(** * R installation discovery of the desktop front end

    A shallow embedding of [src/cpp/desktop/DesktopRVersion.cpp]: the PE
    header reader, the minimum-version check, the [RVersion] record with its
    comparator, the candidate enumerators, [allRVersions], [autoDetect] and
    [detectRVersion].

    The operating system, the registry, Qt and the user are outside the
    program; they enter the model through the record [Host] (what the
    machine answers) and through the functions of [Module QDir] (what Qt
    computes on path strings). *)

From Stdlib Require Import ZArith List Bool String Ascii Lia Arith.
From Stdlib Require Import Sorting.Sorted.
From Stdlib Require Init.Byte.
Import ListNotations.

Local Open Scope string_scope.
Local Open Scope list_scope.
Local Open Scope Z_scope.

(* ================================================================== *)
(** * Part I: the model                                                 *)
(* ================================================================== *)

(** ** Machine integers *)

(** [HIWORD] and [LOWORD] of a [DWORD] (windows.h). *)
Definition HIWORD (version : Z) : Z := Z.land (Z.shiftr version 16) 65535.
Definition LOWORD (version : Z) : Z := Z.land version 65535.

(** [static_cast<int>] of a [quint32]: the two's-complement reading of the
    same 32 bits. *)
Definition to_int (v : Z) : Z :=
  let w := v mod 4294967296 in
  if w <? 2147483648 then w else w - 4294967296.

(** ** Little-endian fields of a byte sequence *)

Definition byte_val (b : Byte.byte) : Z := Z.of_N (Byte.to_N b).

Fixpoint le_combine (l : list Byte.byte) : Z :=
  match l with
  | [] => 0
  | b :: t => Z.lor (byte_val b) (Z.shiftl (le_combine t) 8)
  end.

Fixpoint le_split (n : nat) (w : Z) : list Byte.byte :=
  match n with
  | O => []
  | S n' =>
      match Byte.of_N (Z.to_N (Z.land w 255)) with
      | Some b => b :: le_split n' (Z.shiftr w 8)
      | None => Byte.x00 :: le_split n' (Z.shiftr w 8)
      end
  end.

(** ** [std::ifstream], as far as [getArch] uses it

    The stream is the file's bytes, the get position and the state that
    [good()] reports.  A file that could not be opened is a stream that is
    not good from the start. *)
Module Stream.

Record ifstream : Type := mk {
  content : list Byte.byte;
  gpos : nat;
  good : bool
}.

Definition open (file : option (list Byte.byte)) : ifstream :=
  match file with
  | Some bytes => mk bytes 0 true
  | None => mk [] 0 false
  end.

(** [seekg(off, ios::beg)]: no effect on a stream that has failed;
    otherwise the position moves, also beyond the end of the file. *)
Definition seekg (off : Z) (s : ifstream) : ifstream :=
  if good s then mk (content s) (Z.to_nat off) true else s.

(** [stream.read(&val, n)] on a local [val] that was not initialised:
    [uninit] is whatever the [n] bytes of [val] held before.  The bytes
    that could be extracted overwrite the front of [val]; fewer than [n]
    of them set the fail state, and a stream that is not good extracts
    nothing. *)
Definition read (n : nat) (uninit : Z) (s : ifstream) : Z * ifstream :=
  if good s then
    let got := firstn n (skipn (gpos s) (content s)) in
    if (List.length got =? n)%nat
    then (le_combine got, mk (content s) (gpos s + n) true)
    else (le_combine (got ++ skipn (List.length got) (le_split n uninit)),
          mk (content s) (gpos s + List.length got) false)
  else (le_combine (le_split n uninit), s).

End Stream.

(** ** Architectures *)

(** Modelled from the spec: the enumeration [Architecture] is declared in
    DesktopRVersion.hpp, which is not among the sources; the spec lists its
    members as {None, X86, X64, Unknown}. *)
Inductive Architecture : Type :=
| ArchNone
| ArchX86
| ArchX64
| ArchUnknown.

(** Modelled from the spec: the integer value of each enumerator, in the
    order of the spec's list; [compareTo] subtracts these values. *)
Definition archValue (a : Architecture) : Z :=
  match a with
  | ArchNone => 0
  | ArchX86 => 1
  | ArchX64 => 2
  | ArchUnknown => 3
  end.

Definition arch_eqb (a b : Architecture) : bool :=
  match a, b with
  | ArchNone, ArchNone | ArchX86, ArchX86
  | ArchX64, ArchX64 | ArchUnknown, ArchUnknown => true
  | _, _ => false
  end.

(** winnt.h *)
Definition IMAGE_FILE_MACHINE_I386 : Z := 332.     (* 0x014c *)
Definition IMAGE_FILE_MACHINE_AMD64 : Z := 34404.  (* 0x8664 *)

Inductive ValidateResult : Type :=
| ValidateSuccess
| ValidateNotFound
| ValidateVersionTooOld.

(** ** The minimum-version check *)

Definition confirmMinVersion (version major minor : Z) : bool :=
  let fileMajor := HIWORD version in
  if fileMajor >? major then true
  else if fileMajor <? major then false
  else LOWORD version >=? minor.

(** ** [QString] *)

Definition isEmpty_str (s : string) : bool :=
  match s with EmptyString => true | _ => false end.

(** Case folding of one character; the model's strings hold Latin-1 code
    units and only the letters A to Z have a lower-case form. *)
Definition foldCase (c : ascii) : N :=
  let n := N_of_ascii c in
  if ((65 <=? n) && (n <=? 90))%N then (n + 32)%N else n.

(** The lexicographic comparison of the folded code units. *)
Fixpoint compare_folded (s1 s2 : string) : comparison :=
  match s1, s2 with
  | EmptyString, EmptyString => Eq
  | EmptyString, String _ _ => Lt
  | String _ _, EmptyString => Gt
  | String c1 t1, String c2 t2 =>
      match N.compare (foldCase c1) (foldCase c2) with
      | Eq => compare_folded t1 t2
      | c => c
      end
  end.

(** [QString::compare(s1, s2, Qt::CaseInsensitive)]: an integer below,
    equal to or above zero. *)
Definition QString_compare_ci (s1 s2 : string) : Z :=
  match compare_folded s1 s2 with
  | Lt => -1
  | Eq => 0
  | Gt => 1
  end.

(** ** [QDir] on path strings

    A [QDir] is the path it was set to; the functions below are Qt 5's
    (qdir.cpp, qfilesystementry.cpp, Windows branch) restricted to what
    DesktopRVersion.cpp calls.  Functions that look at the disk take the
    answers of the machine as arguments. *)
Module QDir.

Definition slash : ascii := "/"%char.

Definition isLetter (c : ascii) : bool :=
  let n := N_of_ascii c in
  (((65 <=? n) && (n <=? 90)) || ((97 <=? n) && (n <=? 122)))%N.

Fixpoint fromNativeSeparators (s : string) : string :=
  match s with
  | EmptyString => EmptyString
  | String c t =>
      String (if Ascii.eqb c "\"%char then slash else c)
             (fromNativeSeparators t)
  end.

Fixpoint endsWithSlash (s : string) : bool :=
  match s with
  | EmptyString => false
  | String c EmptyString => Ascii.eqb c slash
  | String _ t => endsWithSlash t
  end.

Fixpoint chop (s : string) : string :=
  match s with
  | EmptyString => EmptyString
  | String _ EmptyString => EmptyString
  | String c t => String c (chop t)
  end.

(** "X:/" *)
Definition isDriveRoot (p : string) : bool :=
  match p with
  | String d (String c (String s EmptyString)) =>
      isLetter d && Ascii.eqb c ":"%char && Ascii.eqb s slash
  | _ => false
  end.

(** [QDir::setPath]: native separators become slashes and one trailing
    slash is dropped, except from a root. *)
Definition setPath (path : string) : string :=
  let p := fromNativeSeparators path in
  if endsWithSlash p && (1 <? String.length p)%nat && negb (isDriveRoot p)
  then chop p else p.

(** [QDir(path)]: an empty path stands for the working directory ".". *)
Definition make (path : string) : string :=
  setPath (if isEmpty_str path then "." else path).

Definition isRelative (p : string) : bool :=
  match p with
  | EmptyString => true
  | String c0 t =>
      negb (Ascii.eqb c0 slash)
      && negb (match t with
               | String c1 _ => Ascii.eqb c1 ":"%char
               | EmptyString => false
               end)
  end.

Definition isAbsolute (p : string) : bool := negb (isRelative p).

Definition isRoot (p : string) : bool :=
  String.eqb p "/" || isDriveRoot p.

(** The pieces of [s] between slashes; [cur] is the piece being read. *)
Fixpoint split (s : string) (cur : string) : list string :=
  match s with
  | EmptyString => [cur]
  | String c t =>
      if Ascii.eqb c slash then cur :: split t EmptyString
      else split t (cur ++ String c EmptyString)%string
  end.

(** [dirName]: what follows the last slash, the whole path if there is
    none. *)
Definition dirName (p : string) : string :=
  last (split p EmptyString) EmptyString.

(** One step of path normalisation; [stack] holds the segments kept so
    far, the last one first. *)
Definition pushSegment (rooted : bool) (stack : list string) (seg : string)
  : list string :=
  if isEmpty_str seg || String.eqb seg "." then stack
  else if String.eqb seg ".." then
    match stack with
    | top :: rest =>
        if String.eqb top ".." then seg :: stack else rest
    | [] => if rooted then [] else [seg]
    end
  else seg :: stack.

(** [QDir::cleanPath]: no "." and no empty segments, ".." resolved against
    the segment before it, no trailing slash except on a root. *)
Definition cleanPath (p : string) : string :=
  let p := fromNativeSeparators p in
  let (drive, rest) :=
    match p with
    | String d (String c t) =>
        if isLetter d && Ascii.eqb c ":"%char
        then (String d (String c EmptyString), t) else (EmptyString, p)
    | _ => (EmptyString, p)
    end in
  let rooted := match rest with
                | String c _ => Ascii.eqb c slash
                | EmptyString => false
                end in
  let segs := rev (fold_left (pushSegment rooted) (split rest EmptyString) []) in
  let body := String.concat "/" segs in
  let out := (drive ++ (if rooted then "/" else "") ++ body)%string in
  if isEmpty_str out then "." else out.

(** [filePath(fileName)] *)
Definition filePath (d fileName : string) : string :=
  if isAbsolute fileName then fileName
  else if isEmpty_str fileName then d
  else if isEmpty_str d || endsWithSlash d then (d ++ fileName)%string
  else (d ++ "/" ++ fileName)%string.

(** [absolutePath()], for a process whose working directory is [cwd]. *)
Definition absolutePath (cwd d : string) : string :=
  cleanPath (if isRelative d then (cwd ++ "/" ++ d)%string else d).

(** [absoluteFilePath(fileName)] *)
Definition absoluteFilePath (cwd d fileName : string) : string :=
  if isAbsolute fileName then fileName
  else
    let a := absolutePath cwd d in
    if isEmpty_str fileName then a
    else if endsWithSlash a then (a ++ fileName)%string
    else (a ++ "/" ++ fileName)%string.

(** The path [cd(dirName)] moves to, before it is checked on disk. *)
Definition cdPath (d name : string) : string :=
  if isAbsolute name then cleanPath name
  else
    let newPath := ((if isRoot d then d else d ++ "/") ++ name)%string in
    if existsb (Ascii.eqb slash) (list_ascii_of_string name)
       || String.eqb name ".." || String.eqb d "."
    then cleanPath newPath else newPath.

(** [cd(dirName)]: the directory moved to, when it exists. *)
Definition cd (dirExists : string -> bool) (d name : string)
  : option string :=
  if isEmpty_str name || String.eqb name "." then Some d
  else
    let p := setPath (cdPath d name) in
    if dirExists p then Some p else None.

(** [exists(name)] *)
Definition existsEntry (fileExists : string -> bool) (d name : string)
  : bool :=
  if isEmpty_str name then false else fileExists (filePath d name).

End QDir.

(** ** The installation record *)

(** The data members of class [RVersion]. *)
Record RVersion : Type := mkRVersion {
  binDir : string;
  homeDir : string;
  version : Z;
  architecture : Architecture
}.

(** ** The registry (core/system/RegistryKey.hpp) *)

Inductive HKEY : Type :=
| HKEY_CURRENT_USER
| HKEY_LOCAL_MACHINE
| HKEY_opened (id : nat).

(** An opened key: its handle, the names of its subkeys and its string
    values. *)
Record RegistryKey : Type := mkRegistryKey {
  handle : HKEY;
  keyNames : list string;
  stringValues : list (string * string)
}.

Fixpoint lookupValue (name : string) (vs : list (string * string))
  : option string :=
  match vs with
  | [] => None
  | (k, v) :: t => if String.eqb k name then Some v else lookupValue name t
  end.

Definition getStringValue (k : RegistryKey) (name defaultValue : string)
  : string :=
  match lookupValue name (stringValues k) with
  | Some v => v
  | None => defaultValue
  end.

(** An [Error] that is set, by its code. *)
Record Error : Type := mkError { code : Z }.

(** [boost::system::errc::no_such_file_or_directory] *)
Definition no_such_file_or_directory : Z := 2.

Definition KEY_READ : Z := 131097.       (* 0x20019 *)
Definition KEY_WOW64_32KEY : Z := 512.   (* 0x0200 *)
Definition KEY_WOW64_64KEY : Z := 256.   (* 0x0100 *)

(** ** The machine, the build and the user *)

Record Host : Type := mkHost {
  (** the build: the CONDA_BUILD switch and the required R version, all
      set by the build scripts *)
  CONDA_BUILD : bool;
  RSTUDIO_R_MAJOR_VERSION_REQUIRED : Z;
  RSTUDIO_R_MINOR_VERSION_REQUIRED : Z;
  RSTUDIO_R_PATCH_VERSION_REQUIRED : Z;
  (** the process: environment ([None] for a variable that is not set),
      working directory, path of the executable *)
  environ : string -> option string;
  currentPath : string;
  applicationFilePath : string;
  (** the disk: [QFile::exists], [QDir::exists()], the subdirectories that
      [entryList(Dirs | NoDotAndDotDot)] lists, the bytes of a file that
      can be opened for reading, and [dwFileVersionMS] of a file whose
      version resource can be read *)
  fileExists : string -> bool;
  dirExists : string -> bool;
  subdirs : string -> list string;
  fileBytes : string -> option (list Byte.byte);
  fileVersionMS : string -> option Z;
  (** what the three locals that [getArch] reads into held before *)
  indeterminate : nat -> Z;
  (** [RegistryKey::open] *)
  regOpen : HKEY -> string -> Z -> Error + RegistryKey;
  (** the ChooseRHome dialog with the person in front of it: given the
      versions offered, the version and the rendering engine preselected,
      [exec()] is accepted with a version and an engine, or it is not *)
  chooseRHome : list RVersion -> RVersion -> string
                -> option (RVersion * string)
}.

(** [core::system::getenv]: the empty string for a variable not set. *)
Definition getenv (h : Host) (name : string) : string :=
  match environ h name with
  | Some v => v
  | None => ""
  end.

(** ** Functions of the anonymous namespace *)

(** The three Win32 calls that can fail ([GetFileVersionInfoSize],
    [GetFileVersionInfo], [VerQueryValue]) are folded into
    [fileVersionMS]. *)
Definition getVersion (h : Host) (path : string) : Z :=
  if negb (fileExists h path) then 0
  else match fileVersionMS h path with
       | Some ms => ms
       | None => 0
       end.

Definition getArch (h : Host) (path : string) : Architecture :=
  if negb (fileExists h path) then ArchNone
  else
    let stream := Stream.open (fileBytes h path) in
    let stream := Stream.seekg 60 stream in
    let (headerOffset, stream) := Stream.read 4 (indeterminate h 0) stream in
    let stream := Stream.seekg headerOffset stream in
    let (header, stream) := Stream.read 4 (indeterminate h 1) stream in
    if negb (header =? 17744) then ArchNone
    else
      let (arch, stream) := Stream.read 2 (indeterminate h 2) stream in
      if negb (Stream.good stream) then ArchNone
      else if arch =? IMAGE_FILE_MACHINE_I386 then ArchX86
      else if arch =? IMAGE_FILE_MACHINE_AMD64 then ArchX64
      else ArchUnknown.

(** What [getArch] does once the stream is positioned at the header
    offset. *)
Definition afterSeek (u1 u2 : Z) (s : Stream.ifstream) : Architecture :=
  let (header, stream) := Stream.read 4 u1 s in
  if negb (header =? 17744) then ArchNone
  else
    let (arch, stream) := Stream.read 2 u2 stream in
    if negb (Stream.good stream) then ArchNone
    else if arch =? IMAGE_FILE_MACHINE_I386 then ArchX86
    else if arch =? IMAGE_FILE_MACHINE_AMD64 then ArchX64
    else ArchUnknown.

(** ** Home directories and the record's constructor *)

Definition binDirToHomeDir (binDir : string) : string :=
  if isEmpty_str binDir then ""
  else
    let dir := QDir.make binDir in
    if negb (QDir.isAbsolute dir) then ""
    else
      let dir :=
        if negb (String.eqb (QDir.dirName dir) "bin")
        then QDir.setPath (QDir.cleanPath (QDir.filePath dir ".."))
        else dir in
      if String.eqb (QDir.dirName dir) "bin"
      then QDir.cleanPath (QDir.filePath dir "..")
      else "".

(** [RVersion::RVersion(QString binDir)] *)
Definition newRVersion (h : Host) (binDir : string) : RVersion :=
  let homeDir_ := binDirToHomeDir binDir in
  if negb (isEmpty_str binDir) then
    let dllPath :=
      QDir.absoluteFilePath (currentPath h) (QDir.make binDir) "R.dll" in
    mkRVersion binDir homeDir_ (getVersion h dllPath) (getArch h dllPath)
  else mkRVersion binDir homeDir_ 0 ArchNone.

Definition isEmpty (r : RVersion) : bool := isEmpty_str (binDir r).

Definition validate (h : Host) (r : RVersion) : ValidateResult :=
  if isEmpty r || isEmpty_str (homeDir r) then ValidateNotFound
  else if negb (QDir.existsEntry (fileExists h) (QDir.make (binDir r)) "R.dll")
  then ValidateNotFound
  else if negb (confirmMinVersion (version r)
                  (RSTUDIO_R_MAJOR_VERSION_REQUIRED h)
                  (RSTUDIO_R_MINOR_VERSION_REQUIRED h
                   + RSTUDIO_R_PATCH_VERSION_REQUIRED h))
  then ValidateVersionTooOld
  else ValidateSuccess.

Definition isValid (h : Host) (r : RVersion) : bool :=
  match validate h r with
  | ValidateSuccess => true
  | _ => false
  end.

(** ** The comparator *)

(** [int] subtraction and negation, wrapping to 32 bits. *)
Definition int_sub (a b : Z) : Z := to_int (a - b).
Definition int_neg (a : Z) : Z := to_int (- a).

Definition compareTo (a other : RVersion) : Z :=
  (* First order by version, descending *)
  let c := int_neg (int_sub (to_int (version a)) (to_int (version other))) in
  if negb (c =? 0) then c
  else
    (* Then by homedir *)
    let c := QString_compare_ci (homeDir a) (homeDir other) in
    if negb (c =? 0) then c
    else
      (* Then put 64-bit first *)
      let c := int_neg (int_sub (archValue (architecture a))
                                (archValue (architecture other))) in
      if negb (c =? 0) then c
      else
        (* Then order by bindir *)
        let c := QString_compare_ci (binDir a) (binDir other) in
        if negb (c =? 0) then c
        else 0.

(** [operator<] *)
Definition lessThan (a other : RVersion) : bool := compareTo a other <? 0.

(** [operator==] *)
Definition equals (a other : RVersion) : bool :=
  QString_compare_ci (binDir a) (binDir other) =? 0.

(** ** Logging

    [LOG_ERROR] is the only effect of the enumerators; a computation that
    may log is its value and the errors it logged, in order. *)
Definition Logged (A : Type) : Type := (A * list Error)%type.

Definition ret {A : Type} (a : A) : Logged A := (a, []).

Definition bind {A B : Type} (m : Logged A) (k : A -> Logged B) : Logged B :=
  let (a, l1) := m in
  let (b, l2) := k a in
  (b, l1 ++ l2).

Definition LOG_ERROR (e : Error) : Logged unit := (tt, [e]).

Notation "x <- m ;; k" := (bind m (fun x => k))
  (at level 61, m at next level, right associativity).
Notation "m ;;; k" := (bind m (fun _ => k))
  (at level 61, right associativity).

(** A loop over [l] whose body may log. *)
Fixpoint forEach {A S : Type} (body : S -> A -> Logged S) (l : list A) (s : S)
  : Logged S :=
  match l with
  | [] => ret s
  | x :: t => s' <- body s x ;; forEach body t s'
  end.

(** ** The enumerators

    Each takes the list behind [pResults] and returns it extended. *)

(** Given an R home directory, add candidates for child bin directories. *)
Definition versionsFromRHome (h : Host) (rHome : string)
  (pResults : list RVersion) : list RVersion :=
  fold_left
    (fun results d =>
       match QDir.cd (dirExists h) rHome d with
       | Some tmp =>
           if QDir.existsEntry (fileExists h) tmp "R.dll"
           then results ++ [newRVersion h (QDir.absolutePath (currentPath h) tmp)]
           else results
       | None => results
       end)
    ["bin"; "bin/x64"] pResults.

Definition detectVersionsInDir (h : Host) (dir : string) : list RVersion :=
  let qdir := QDir.make dir in
  if QDir.existsEntry (fileExists h) qdir "R.dll"
  then [newRVersion h (QDir.absolutePath (currentPath h) qdir)]
  else
    let qdir :=
      if String.eqb (QDir.dirName qdir) "bin"
      then QDir.setPath
             (binDirToHomeDir (QDir.absolutePath (currentPath h) qdir))
      else qdir in
    versionsFromRHome h qdir [].

(** [enumProgramFiles] for one program files directory *)
Definition enumProgramFilesIn (h : Host) (progFiles : string)
  (pResults : list RVersion) : list RVersion :=
  let programFiles := QDir.make progFiles in
  if QDir.isAbsolute programFiles && dirExists h programFiles then
    match QDir.cd (dirExists h) programFiles "R" with
    | Some programFiles =>
        fold_left
          (fun results rDir =>
             versionsFromRHome h
               (QDir.make
                  (QDir.absoluteFilePath (currentPath h) programFiles rDir))
               results)
          (subdirs h programFiles) pResults
    | None => pResults
    end
  else pResults.

(** [QStringList::removeDuplicates]: the first of equal strings stays. *)
Fixpoint removeDuplicatesFrom (seen l : list string) : list string :=
  match l with
  | [] => []
  | x :: t =>
      if existsb (String.eqb x) seen then removeDuplicatesFrom seen t
      else x :: removeDuplicatesFrom (x :: seen) t
  end.

Definition removeDuplicates (l : list string) : list string :=
  removeDuplicatesFrom [] l.

(** [enumProgramFiles] over all program files directories *)
Definition enumProgramFiles (h : Host) (pResults : list RVersion)
  : list RVersion :=
  let progFiles :=
    [getenv h "ProgramFiles"; getenv h "ProgramW6432";
     getenv h "ProgramFiles(x86)"] in
  let progFiles := filter (fun s => negb (isEmpty_str s)) progFiles in
  let progFiles := removeDuplicates progFiles in
  fold_left (fun results p => enumProgramFilesIn h p results)
            progFiles pResults.

(** [enumRegistry] for one architecture view and one root key *)
Definition enumRegistryKey (h : Host) (arch : Architecture) (key : HKEY)
  (pResults : list RVersion) : Logged (list RVersion) :=
  let walk (flags : Z) : Logged (list RVersion) :=
    match regOpen h key "Software\R-core\R" (Z.lor KEY_READ flags) with
    | inl error =>
        if negb (code error =? no_such_file_or_directory)
        then LOG_ERROR error ;;; ret pResults
        else ret pResults
    | inr regKey =>
        forEach
          (fun results name =>
             match regOpen h (handle regKey) name (Z.lor KEY_READ flags) with
             | inl error => LOG_ERROR error ;;; ret results
             | inr verKey =>
                 let installPath := getStringValue verKey "InstallPath" "" in
                 if negb (isEmpty_str installPath)
                 then ret (versionsFromRHome h (QDir.make installPath) results)
                 else ret results
             end)
          (keyNames regKey) pResults
    end in
  match arch with
  | ArchX86 => walk KEY_WOW64_32KEY
  | ArchX64 => walk KEY_WOW64_64KEY
  | _ => ret pResults
  end.

(** [enumRegistry] over both root keys *)
Definition enumRegistry (h : Host) (pResults : list RVersion)
  : Logged (list RVersion) :=
  results <- enumRegistryKey h ArchX64 HKEY_CURRENT_USER pResults ;;
  enumRegistryKey h ArchX64 HKEY_LOCAL_MACHINE results.

(** [enumConda], compiled in under CONDA_BUILD. *)
Definition enumConda (h : Host) (pResults : list RVersion) : list RVersion :=
  let conda_prefix := environ h "CONDA_PREFIX" in
  fold_left
    (fun results (pfx : string * string) =>
       let (pfxs, pfxs2) := pfx in
       let results :=
         match conda_prefix with
         | Some prefix =>
             versionsFromRHome h (QDir.make (prefix ++ pfxs)%string) results
         | None => results
         end in
       let executable_path :=
         QDir.make
           (QDir.absolutePath (currentPath h)
              (QDir.make (applicationFilePath h ++ pfxs2)%string)) in
       if dirExists h executable_path
       then versionsFromRHome h executable_path results
       else results)
    [("/lib/R", "/../../../lib/R"); ("/R", "/../../../R")] pResults.

(** ** [allRVersions] *)

(** The loop that removes invalid versions. *)
Definition removeInvalid (h : Host) (versions : list RVersion)
  : list RVersion :=
  filter (isValid h) versions.

(** [qSort(versions)], Qt's sort by [operator<], as an insertion sort. *)
Fixpoint insertSorted (x : RVersion) (l : list RVersion) : list RVersion :=
  match l with
  | [] => [x]
  | y :: t => if lessThan y x then y :: insertSorted x t else x :: y :: t
  end.

Definition qSort (versions : list RVersion) : list RVersion :=
  fold_right insertSorted [] versions.

(** The de-duplication loop: the entry at [i] is removed when it equals the
    entry at [i-1], which is the last entry that stayed. *)
Fixpoint dedupFrom (prev : RVersion) (rest : list RVersion) : list RVersion :=
  match rest with
  | [] => []
  | y :: t => if equals y prev then dedupFrom prev t else y :: dedupFrom y t
  end.

Definition deduplicate (versions : list RVersion) : list RVersion :=
  match versions with
  | [] => []
  | x :: t => x :: dedupFrom x t
  end.

(** The loop that removes unsupported architectures. *)
Definition removeUnsupported (versions : list RVersion) : list RVersion :=
  filter (fun v => arch_eqb (architecture v) ArchX64) versions.

(** What [allRVersions] does to the list once the enumerators have run. *)
Definition sortedCandidates (h : Host) (versions : list RVersion)
  : list RVersion :=
  removeUnsupported (deduplicate (qSort (removeInvalid h versions))).

Definition allRVersions (h : Host) (versions : list RVersion)
  : Logged (list RVersion) :=
  let versions := versionsFromRHome h (QDir.make (getenv h "R_HOME")) versions in
  let versions := if CONDA_BUILD h then enumConda h versions else versions in
  versions <- enumRegistry h versions ;;
  let versions := enumProgramFiles h versions in
  ret (sortedCandidates h versions).

(** ** Automatic detection *)

Definition detectPreferredFromRegistry (h : Host) (key : HKEY)
  (arch : Architecture) : Logged RVersion :=
  let lookup (flags : Z) : Logged RVersion :=
    match regOpen h key "Software\R-core\R" (Z.lor KEY_READ flags) with
    | inl error =>
        if negb (code error =? no_such_file_or_directory)
        then LOG_ERROR error ;;; ret (newRVersion h "")
        else ret (newRVersion h "")
    | inr regKey =>
        let versions :=
          versionsFromRHome h
            (QDir.make (getStringValue regKey "InstallPath" "")) [] in
        match find (fun v => isValid h v && arch_eqb (architecture v) arch)
                   versions with
        | Some v => ret v
        | None => ret (newRVersion h "")
        end
    end in
  match arch with
  | ArchX86 => lookup KEY_WOW64_32KEY
  | ArchX64 => lookup KEY_WOW64_64KEY
  | _ => ret (newRVersion h "")
  end.

(** [autoDetect(Architecture, bool)] *)
Definition autoDetect (h : Host) (arch : Architecture) (preferredOnly : bool)
  : Logged RVersion :=
  let scan : Logged RVersion :=
    if preferredOnly then ret (newRVersion h "")
    else
      versions <- allRVersions h [] ;;
      match find (fun v => arch_eqb (architecture v) arch) versions with
      | Some v => ret v
      | None => ret (newRVersion h "")
      end in
  if negb (CONDA_BUILD h) then
    preferred <- detectPreferredFromRegistry h HKEY_CURRENT_USER arch ;;
    preferred <- (if negb (isValid h preferred)
                  then detectPreferredFromRegistry h HKEY_LOCAL_MACHINE arch
                  else ret preferred) ;;
    if isValid h preferred then ret preferred else scan
  else scan.

(** [autoDetect()]; the header's default for [preferredOnly] is [false]
    (the spec: "run autoDetect (not preferred-only)"). *)
Definition autoDetectDefault (h : Host) : Logged RVersion :=
  autoDetect h ArchX64 false.

(** ** [detectRVersion]

    The desktop options that [detectRVersion] reads and writes, and a trace
    of what it did that can be seen from outside: each entry into the
    function, each logged error, each showing of the dialog, the message
    box. *)
Inductive Event : Type :=
| Entered (forceUi : bool)
| ErrorLogged (e : Error)
| DialogShown (versions : list RVersion) (selected : RVersion)
              (renderingEngine : string)
| MessageBoxShown.

Record Desktop : Type := mkDesktop {
  rBinDir : string;
  desktopRenderingEngine : string;
  events : list Event
}.

Definition record (e : Event) (d : Desktop) : Desktop :=
  mkDesktop (rBinDir d) (desktopRenderingEngine d) (events d ++ [e]).

Definition recordLog (log : list Error) (d : Desktop) : Desktop :=
  mkDesktop (rBinDir d) (desktopRenderingEngine d)
            (events d ++ map ErrorLogged log).

Definition setRBinDir (s : string) (d : Desktop) : Desktop :=
  mkDesktop s (desktopRenderingEngine d) (events d).

Definition setDesktopRenderingEngine (s : string) (d : Desktop) : Desktop :=
  mkDesktop (rBinDir d) s (events d).

(** The version that the options name, unless it is empty or not 64-bit. *)
Definition currentChoice (h : Host) (d : Desktop) : RVersion :=
  let rCurrentVersion := newRVersion h (rBinDir d) in
  if negb (isEmpty rCurrentVersion)
     && arch_eqb (architecture rCurrentVersion) ArchX64
  then rCurrentVersion
  else newRVersion h "".

(** The part of [detectRVersion] before the dialog: the version it returns
    without asking, if any. *)
Definition withoutAsking (h : Host) (forceUi : bool) (rVersion : RVersion)
  : Logged (option RVersion) :=
  if negb forceUi then
    if negb (isEmpty rVersion) then
      (* User manually chose an R version. Use it if it's valid. *)
      ret (if isValid h rVersion then Some rVersion else None)
    else
      (* User wants us to autodetect *)
      autoDetected <- autoDetectDefault h ;;
      ret (if isValid h autoDetected then Some autoDetected else None)
  else ret None.

(** The recursion of the source is not structural; [fuel] bounds the number
    of entries, and [None] is a run that needed more. *)
Fixpoint detectRVersion (h : Host) (fuel : nat) (forceUi : bool) (d : Desktop)
  : option (RVersion * Desktop) :=
  match fuel with
  | O => None
  | S fuel' =>
      let d := record (Entered forceUi) d in
      let rVersion := currentChoice h d in
      let (found, log) := withoutAsking h forceUi rVersion in
      let d := recordLog log d in
      match found with
      | Some version => Some (version, d)
      | None =>
          (* Now we show the dialog and make the user choose. *)
          let renderingEngine := desktopRenderingEngine d in
          let (versions, log) := allRVersions h [rVersion] in
          let d := recordLog log d in
          let d := record (DialogShown versions rVersion renderingEngine) d in
          match chooseRHome h versions rVersion renderingEngine with
          | Some (chosen, engine) =>
              let d := setRBinDir (binDir chosen) d in
              let d := setDesktopRenderingEngine engine d in
              if negb (String.eqb renderingEngine engine)
              then Some (newRVersion h "", record MessageBoxShown d)
              else detectRVersion h fuel' false d
          | None => Some (newRVersion h "", d)
          end
      end
  end.

(** ** Counting in the trace *)

Definition isEntered (e : Event) : bool :=
  match e with Entered _ => true | _ => false end.

Definition isDialogShown (e : Event) : bool :=
  match e with DialogShown _ _ _ => true | _ => false end.

Definition isMessageBoxShown (e : Event) : bool :=
  match e with MessageBoxShown => true | _ => false end.

Definition count (p : Event -> bool) (d : Desktop) : nat :=
  List.length (filter p (events d)).

(** ** The contract of the dialog *)

(** Modelled from the spec: DesktopChooseRHome.cpp is not among the
    sources.  "The bridge must reject acceptance unless its own internal
    validation already confirmed the selection is usable"; in the words of
    the comment in [detectRVersion], "the dialog won't let itself be
    accepted unless a valid installation is detected".  A chosen [binDir]
    is usable when its record is a valid 64-bit installation; the empty
    one, which asks for the system default, when automatic detection finds
    a valid installation. *)
Definition usable (h : Host) (chosenBinDir : string) : Prop :=
  if isEmpty_str chosenBinDir
  then isValid h (fst (autoDetectDefault h)) = true
  else architecture (newRVersion h chosenBinDir) = ArchX64
       /\ isValid h (newRVersion h chosenBinDir) = true.

Definition acceptsOnlyUsable (h : Host) : Prop :=
  forall versions selected renderingEngine chosen engine,
    chooseRHome h versions selected renderingEngine = Some (chosen, engine) ->
    usable h (binDir chosen).

(** The versions that the dialog offers in state [d]. *)
Definition offered (h : Host) (d : Desktop) : list RVersion :=
  fst (allRVersions h [currentChoice h d]).

(** ** The header reader as the specification words it *)

(** The little-endian field of [n] bytes at offset [off], when the bytes
    reach that far. *)
Definition fieldAt (n off : nat) (bytes : list Byte.byte) : option Z :=
  if (off + n <=? List.length bytes)%nat
  then Some (le_combine (firstn n (skipn off bytes)))
  else None.

Definition machineToArchitecture (machineType : Z) : Architecture :=
  if machineType =? 332 then ArchX86
  else if machineType =? 34404 then ArchX64
  else ArchUnknown.

(** Steps 2 to 5 of the specification's Binary Header Reader, on the bytes
    of a file that could be opened ([None]: it could not). *)
Definition headerArchitecture (file : option (list Byte.byte)) : Architecture :=
  match file with
  | None => ArchNone
  | Some bytes =>
      match fieldAt 4 60 bytes with
      | None => ArchNone
      | Some headerOffset =>
          match fieldAt 4 (Z.to_nat headerOffset) bytes with
          | None => ArchNone
          | Some signature =>
              if signature =? 17744 then
                match fieldAt 2 (Z.to_nat headerOffset + 4) bytes with
                | None => ArchNone
                | Some machineType => machineToArchitecture machineType
                end
              else ArchNone
          end
      end
  end.

(** Bytes that end before the fields that the reader needs. *)
Definition truncated (bytes : list Byte.byte) : Prop :=
  (List.length bytes < 64)%nat
  \/ (List.length bytes
      < Z.to_nat (le_combine (firstn 4 (skipn 60 bytes))) + 6)%nat.

(** ** Names for the statements below *)

(** The directory one level up, as [binDirToHomeDir] computes it. *)
Definition upOne (dir : string) : string :=
  QDir.setPath (QDir.cleanPath (QDir.filePath dir "..")).

(** The list that [allRVersions] holds when all enumerators have run and
    nothing has been removed yet. *)
Definition enumerated (h : Host) (versions : list RVersion) : list RVersion :=
  let versions := versionsFromRHome h (QDir.make (getenv h "R_HOME")) versions in
  let versions := if CONDA_BUILD h then enumConda h versions else versions in
  enumProgramFiles h (fst (enumRegistry h versions)).


(** ** The order of the specification

    Comparisons as functions into [comparison], and what makes such a
    function the comparison of a total preorder. *)
Class Coherent {A : Type} (cmp : A -> A -> comparison) : Prop := {
  cmp_antisym : forall a b, cmp b a = CompOpp (cmp a b);
  cmp_trans : forall a b c, cmp a b = Lt -> cmp b c = Lt -> cmp a c = Lt;
  cmp_eq_l : forall a b c, cmp a b = Eq -> cmp a c = cmp b c
}.

Arguments cmp_antisym {A} cmp {_} a b.
Arguments cmp_trans {A} cmp {_} a b c _ _.
Arguments cmp_eq_l {A} cmp {_} a b c _.

(** First by [c1]; ties are broken by [c2]. *)
Definition lexi {A : Type} (c1 c2 : A -> A -> comparison) (a b : A)
  : comparison :=
  match c1 a b with
  | Eq => c2 a b
  | c => c
  end.

(** The order that the specification gives for step 3 of [allCandidates]:
    packed version descending, then [homeDir] case-insensitively ascending,
    then the architecture of the higher enumerator first, then [binDir]
    case-insensitively ascending; [Lt] reads "sorts before". *)
Definition specifiedOrder : RVersion -> RVersion -> comparison :=
  lexi (fun a b => Z.compare (version b) (version a))
    (lexi (fun a b => compare_folded (homeDir a) (homeDir b))
       (lexi (fun a b => Z.compare (archValue (architecture b))
                                   (archValue (architecture a)))
             (fun a b => compare_folded (binDir a) (binDir b)))).

(** A packed version that is not negative as an [int]. *)
Definition fitsInt (r : RVersion) : Prop := 0 <= version r < 2147483648.

(** [a] sorts strictly before [b]. *)
Definition sortsBefore (a b : RVersion) : Prop := compareTo a b < 0.

(** [l] without the records at its front that equal [x]. *)
Fixpoint skipEqual (x : RVersion) (l : list RVersion) : list RVersion :=
  match l with
  | [] => []
  | y :: t => if equals y x then skipEqual x t else l
  end.


(** [a] does not come after [b] in the specified order. *)
Definition notAfter (a b : RVersion) : Prop := specifiedOrder a b <> Gt.

(** [a] comes strictly before [b] in the specified order. *)
Definition strictlyBefore (a b : RVersion) : Prop := specifiedOrder a b = Lt.

(** The machine reports no file version of 0x80000000 or above, and the
    versions passed in carry none. *)
Definition versionsFitInt (h : Host) (versions : list RVersion) : Prop :=
  (forall path ms, fileVersionMS h path = Some ms -> 0 <= ms < 2147483648)
  /\ Forall fitsInt versions.


(** ** Clean absolute paths

    The paths that the enumerators produce on a Windows machine: a drive
    letter, a colon, and segments separated by slashes. *)

Definition plainChar (c : ascii) : bool :=
  negb (Ascii.eqb c "/"%char) && negb (Ascii.eqb c "\"%char).

(** No separator occurs in [s]. *)
Definition plain (s : string) : bool :=
  forallb plainChar (list_ascii_of_string s).

(** [s] can name a directory entry: it is not empty, not "." and not "..",
    and holds no separator. *)
Definition isSegment (s : string) : bool :=
  negb (isEmpty_str s) && negb (String.eqb s ".") && negb (String.eqb s "..")
  && plain s.

(** "X:/" followed by the segments with slashes between them. *)
Definition drivePath (drive : ascii) (segments : list string) : string :=
  String drive (String ":"%char ("/" ++ String.concat "/" segments)%string).


(** The directory [dir] exists and holds a file R.dll. *)
Definition hasLibrary (h : Host) (dir : string) : bool :=
  dirExists h dir && fileExists h (dir ++ "/R.dll")%string.


(** The packed version that [getVersion] reads for a library that is
    there. *)
Definition libraryVersion (h : Host) (library : string) : Z :=
  match fileVersionMS h library with
  | Some ms => ms
  | None => 0
  end.

(** [confirmMinVersion] with its default arguments. *)
Definition meetsMinimum (h : Host) (version : Z) : bool :=
  confirmMinVersion version
    (RSTUDIO_R_MAJOR_VERSION_REQUIRED h)
    (RSTUDIO_R_MINOR_VERSION_REQUIRED h + RSTUDIO_R_PATCH_VERSION_REQUIRED h).


(** A record that the constructor made, in the course of a probe, from the
    absolute path of a directory. *)
Definition probed (h : Host) (r : RVersion) : Prop :=
  exists dir, r = newRVersion h (QDir.absolutePath (currentPath h) dir).


(** [results] is [seed] followed by probed records. *)
Definition extends (h : Host) (seed results : list RVersion) : Prop :=
  exists added, results = seed ++ added /\ Forall (probed h) added.


(** The registry view that [enumRegistry] and [detectPreferredFromRegistry]
    open for an architecture. *)
Definition viewFlags (arch : Architecture) : Z :=
  match arch with
  | ArchX86 => Z.lor KEY_READ KEY_WOW64_32KEY
  | _ => Z.lor KEY_READ KEY_WOW64_64KEY
  end.

Definition hasView (arch : Architecture) : bool :=
  match arch with
  | ArchX86 | ArchX64 => true
  | _ => false
  end.

(** What is logged for an error of opening the key Software\R-core\R. *)
Definition logged (error : Error) : list Error :=
  if code error =? no_such_file_or_directory then [] else [error].


(** * The rendering engine at start-up (DesktopMain.cpp)

    [initializeRenderingEngine] reads the rendering engine that
    [detectRVersion] stores in the options. *)

(** [std::string::find], with [None] for [npos]. *)
Module std_string.

Fixpoint find (s item : string) : option nat :=
  if String.prefix item s then Some 0%nat
  else match s with
       | EmptyString => None
       | String _ t => option_map S (find t item)
       end.

Definition isNpos (pos : option nat) : bool :=
  match pos with
  | Some _ => false
  | None => true
  end.

End std_string.

(** [DISPLAY_DEVICE], the fields that are read. *)
Record DISPLAY_DEVICE : Type := mkDISPLAY_DEVICE {
  DeviceString : string;
  StateFlags : Z
}.

Definition DISPLAY_DEVICE_PRIMARY_DEVICE : Z := 4.

(** The display as Windows reports it: the value of
    [GetSystemMetrics(SM_REMOTESESSION)], and the devices that
    [EnumDisplayDevices] fills in for the indices 0, 1, ... until it
    fails. *)
Record Display : Type := mkDisplay {
  SM_REMOTESESSION : Z;
  EnumDisplayDevices : list DISPLAY_DEVICE
}.

Inductive ApplicationAttribute : Type :=
| AA_DisableShaderDiskCache
| AA_UseDesktopOpenGL
| AA_UseOpenGLES
| AA_UseSoftwareOpenGL.

Inductive GraphicsApi : Type :=
| OpenGL
| Software.

(** What the start-up code sets for rendering: the application attributes
    that were switched on, in order, the scene graph backend, and the
    command line arguments that go to Chromium. *)
Record Rendering : Type := mkRendering {
  attributes : list ApplicationAttribute;
  sceneGraphBackend : option GraphicsApi;
  arguments : list string
}.

Definition setAttribute (a : ApplicationAttribute) (r : Rendering)
  : Rendering :=
  mkRendering (attributes r ++ [a]) (sceneGraphBackend r) (arguments r).

Definition setSceneGraphBackend (api : GraphicsApi) (r : Rendering)
  : Rendering :=
  mkRendering (attributes r) (Some api) (arguments r).

Definition push_back (argument : string) (r : Rendering) : Rendering :=
  mkRendering (attributes r) (sceneGraphBackend r) (arguments r ++ [argument]).

Definition blacklist : list string :=
  ["Intel(R) HD Graphics 520"%string;
   "Intel(R) HD Graphics 530"%string;
   "Intel(R) HD Graphics 620"%string;
   "Intel(R) HD Graphics 630"%string].

(** The loop over the blacklist for one device string. *)
Fixpoint checkUnsupported (items : list string) (deviceString : string)
  : bool :=
  match items with
  | [] => false
  | item :: rest =>
      if negb (std_string.isNpos (std_string.find deviceString item))
      then true
      else checkUnsupported rest deviceString
  end.

(** The loop over the display devices: [true] when it returns from inside. *)
Fixpoint scanDevices (devices : list DISPLAY_DEVICE) : bool :=
  match devices with
  | [] => false
  | device :: rest =>
      (* skip non-primary device *)
      if Z.land (StateFlags device) DISPLAY_DEVICE_PRIMARY_DEVICE =? 0
      then scanDevices rest
      else if checkUnsupported blacklist (DeviceString device) then true
      else scanDevices rest
  end.

(** [inferDefaultRenderingEngine], as compiled for Windows. *)
Definition inferDefaultRenderingEngine (w : Display) (r : Rendering)
  : string * Rendering :=
  if negb (SM_REMOTESESSION w =? 0) then
    (* use software rendering over remote desktop *)
    ("software"%string, r)
  else if scanDevices (EnumDisplayDevices w) then
    ("software"%string, setAttribute AA_DisableShaderDiskCache r)
  else ("auto"%string, r).

(** [initializeRenderingEngine]; the three options that it reads are the
    rendering engine in [d] and the two flags. *)
Definition initializeRenderingEngine (d : Desktop)
  (ignoreGpuBlacklist disableGpuDriverBugWorkarounds : bool)
  (w : Display) (r : Rendering) : Rendering :=
  let engine := desktopRenderingEngine d in
  let (engine, r) :=
    if isEmpty_str engine || String.eqb engine "auto"
    then inferDefaultRenderingEngine w r
    else (engine, r) in
  let r :=
    if String.eqb engine "desktop" then
      setSceneGraphBackend OpenGL (setAttribute AA_UseDesktopOpenGL r)
    else if String.eqb engine "gles" then
      setSceneGraphBackend OpenGL (setAttribute AA_UseOpenGLES r)
    else if String.eqb engine "software" then
      (* allow WebGL rendering with the software renderer *)
      push_back "--enable-webgl-software-rendering"
        (setSceneGraphBackend Software (setAttribute AA_UseSoftwareOpenGL r))
    else r in
  (* tell Chromium to ignore the GPU blacklist if requested *)
  let r :=
    if ignoreGpuBlacklist then push_back "--ignore-gpu-blacklist" r else r in
  (* also disable driver workarounds if requested *)
  if disableGpuDriverBugWorkarounds
  then push_back "--disable-gpu-driver-bug-workarounds" r
  else r.

(** ** The rendering engine in words *)

(** [item] occurs in [s]. *)
Definition occursIn (item s : string) : Prop :=
  exists before after, s = (before ++ item ++ after)%string.

(** The flag DISPLAY_DEVICE_PRIMARY_DEVICE, bit 2, is set. *)
Definition isPrimary (device : DISPLAY_DEVICE) : Prop :=
  Z.testbit (StateFlags device) 2 = true.

(** The name of the device holds a name of the blacklist. *)
Definition unsupported (device : DISPLAY_DEVICE) : Prop :=
  exists item, In item blacklist /\ occursIn item (DeviceString device).

(** Some primary display device is unsupported. *)
Definition unsupportedPrimary (w : Display) : Prop :=
  exists device,
    In device (EnumDisplayDevices w) /\ isPrimary device /\ unsupported device.

(** The engine that [initializeRenderingEngine] acts on is "software". *)
Definition softwareChosen (d : Desktop) (w : Display) : Prop :=
  desktopRenderingEngine d = "software"%string
  \/ ((desktopRenderingEngine d = ""%string
       \/ desktopRenderingEngine d = "auto"%string)
      /\ (SM_REMOTESESSION w <> 0 \/ unsupportedPrimary w)).


(* ================================================================== *)
(** * Part II: machines to run the model on                             *)
(* ================================================================== *)

Module Example.

(** A file on the example disk: its path, its bytes and the high part of
    its file version. *)
Record File : Type := mkFile {
  filePath : string;
  bytes : list Byte.byte;
  versionMS : option Z
}.

(** A disk whose names are case-insensitive, as on Windows. *)
Record Disk : Type := mkDisk {
  files : list File;
  directories : list (string * list string) (* path, subdirectory names *)
}.

Definition samePath (a b : string) : bool := QString_compare_ci a b =? 0.

Definition findFile (cwd : string) (k : Disk) (p : string) : option File :=
  find (fun f => samePath (QDir.absolutePath cwd p) (filePath f)) (files k).

Definition findDir (cwd : string) (k : Disk) (p : string)
  : option (string * list string) :=
  find (fun e => samePath (QDir.absolutePath cwd p) (fst e)) (directories k).

(** The image of a library for the given machine type: an MZ stub of 64
    bytes whose field at 0x3C points right behind it, then the PE
    signature and the machine type. *)
Definition image (machine : Z) : list Byte.byte :=
  repeat Byte.x00 60
  ++ [Byte.x40; Byte.x00; Byte.x00; Byte.x00]
  ++ [Byte.x50; Byte.x45; Byte.x00; Byte.x00]
  ++ le_split 2 machine
  ++ repeat Byte.x00 18.

Definition noRegistry : HKEY -> string -> Z -> Error + RegistryKey :=
  fun _ _ _ => inl (mkError no_such_file_or_directory).

Definition nobody : list RVersion -> RVersion -> string
                    -> option (RVersion * string) :=
  fun _ _ _ => None.

Definition lookupEnv (env : list (string * string)) (name : string)
  : option string := lookupValue name env.

(** A machine of a build that requires R 3.0.1. *)
Definition machine (env : list (string * string)) (cwd : string)
  (k : Disk)
  (registry : HKEY -> string -> Z -> Error + RegistryKey)
  (user : list RVersion -> RVersion -> string -> option (RVersion * string))
  : Host :=
  {| CONDA_BUILD := false;
     RSTUDIO_R_MAJOR_VERSION_REQUIRED := 3;
     RSTUDIO_R_MINOR_VERSION_REQUIRED := 0;
     RSTUDIO_R_PATCH_VERSION_REQUIRED := 1;
     environ := lookupEnv env;
     currentPath := cwd;
     applicationFilePath := "C:/Program Files/RStudio/bin/rstudio.exe";
     fileExists := fun p =>
       match findFile cwd k p, findDir cwd k p with
       | None, None => false
       | _, _ => true
       end;
     dirExists := fun p =>
       match findDir cwd k p with Some _ => true | None => false end;
     subdirs := fun p =>
       match findDir cwd k p with Some e => snd e | None => [] end;
     fileBytes := fun p =>
       match findFile cwd k p with Some f => Some (bytes f) | None => None end;
     fileVersionMS := fun p =>
       match findFile cwd k p with Some f => versionMS f | None => None end;
     indeterminate := fun _ => 3435973836; (* 0xCCCCCCCC *)
     regOpen := registry;
     chooseRHome := user |}.

(** A library file cut off after ten bytes. *)
Definition stubDisk : Disk :=
  mkDisk [mkFile "C:/R/R-3.5.1/bin/x64/R.dll" (repeat Byte.x00 10) None]
         [("C:/R/R-3.5.1/bin/x64", [])].

Definition stubMachine : Host :=
  machine [] "C:/" stubDisk noRegistry nobody.


(** One installation of R 3.5.1 (file version 3.51) with both
    architectures, as the installer lays it out. *)
Definition R351 : Disk :=
  mkDisk
    [mkFile "C:/R-3.5.1/bin/x64/R.dll" (image 34404) (Some 196659);
     mkFile "C:/R-3.5.1/bin/i386/R.dll" (image 332) (Some 196659)]
    [("C:/R-3.5.1", ["bin"]);
     ("C:/R-3.5.1/bin", ["i386"; "x64"]);
     ("C:/R-3.5.1/bin/i386", []);
     ("C:/R-3.5.1/bin/x64", []);
     ("C:/R-3.5.1/library", [])].

(** The front end started from a shortcut: working directory C:/, no
    R_HOME, nothing in the registry. *)
Definition plainMachine : Host :=
  machine [] "C:/" R351 noRegistry nobody.


(** A library in a directory named bin inside another directory named
    bin, and an installation next to it. *)
Definition nestedBin : Disk :=
  mkDisk
    [mkFile "C:/R/bin/bin/R.dll" (image 34404) (Some 196659);
     mkFile "C:/R/a/bin/R.dll" (image 34404) (Some 196659)]
    [("C:/R", ["a"; "bin"]);
     ("C:/R/bin", ["bin"]);
     ("C:/R/bin/bin", []);
     ("C:/R/a", ["bin"]);
     ("C:/R/a/bin", [])].

(** A registry whose machine-wide 64-bit view has the key
    Software\R-core\R with one version below it, installed in C:\R\a. *)
Definition oneVersionRegistry : HKEY -> string -> Z -> Error + RegistryKey :=
  fun key subkey flags =>
    match key with
    | HKEY_LOCAL_MACHINE =>
        if String.eqb subkey "Software\R-core\R"
           && (flags =? Z.lor KEY_READ KEY_WOW64_64KEY)
        then inr (mkRegistryKey (HKEY_opened 1) ["3.5.1"] [])
        else inl (mkError no_such_file_or_directory)
    | HKEY_opened 1 =>
        if String.eqb subkey "3.5.1"
        then inr (mkRegistryKey (HKEY_opened 2) []
                    [("InstallPath", "C:\R\a")])
        else inl (mkError no_such_file_or_directory)
    | _ => inl (mkError no_such_file_or_directory)
    end.

(** R_HOME names C:/R/bin. *)
Definition nestedMachine : Host :=
  machine [("R_HOME", "C:/R/bin")] "C:/" nestedBin oneVersionRegistry nobody.

(** Two installations; the file version of one has its top bit set. *)
Definition topBit : Disk :=
  mkDisk
    [mkFile "C:/R/R-new/bin/x64/R.dll" (image 34404) (Some 2147811328);
     mkFile "C:/R/R-4.0.0/bin/x64/R.dll" (image 34404) (Some 262144)]
    [("C:/R/R-new/bin/x64", []); ("C:/R/R-4.0.0/bin/x64", [])].

Definition topBitMachine : Host :=
  machine [] "C:/" topBit noRegistry nobody.


(** The front end started with the installation as working directory, and
    no R_HOME. *)
Definition startedInRHome : Host :=
  machine [] "C:/R-3.5.1" R351 noRegistry nobody.

(** A registry whose current-user 64-bit view has the key
    Software\R-core\R with the install path of R 3.5.1. *)
Definition preferredRegistry : HKEY -> string -> Z -> Error + RegistryKey :=
  fun key subkey flags =>
    match key with
    | HKEY_CURRENT_USER =>
        if String.eqb subkey "Software\R-core\R"
           && (flags =? Z.lor KEY_READ KEY_WOW64_64KEY)
        then inr (mkRegistryKey (HKEY_opened 1) []
                    [("InstallPath", "C:\R-3.5.1")])
        else inl (mkError no_such_file_or_directory)
    | _ => inl (mkError no_such_file_or_directory)
    end.

Definition registryMachine : Host :=
  machine [] "C:/" R351 preferredRegistry nobody.

(** R 2.15.3, older than the build requires, next to R 3.5.1. *)
Definition oldAndNew : Disk :=
  mkDisk
    [mkFile "C:/R-2.15.3/bin/x64/R.dll" (image 34404) (Some 131225);
     mkFile "C:/R-3.5.1/bin/x64/R.dll" (image 34404) (Some 196659);
     mkFile "C:/R-3.5.1/bin/i386/R.dll" (image 332) (Some 196659)]
    [("C:/R-2.15.3", ["bin"]);
     ("C:/R-2.15.3/bin", ["x64"]);
     ("C:/R-2.15.3/bin/x64", []);
     ("C:/R-3.5.1", ["bin"]);
     ("C:/R-3.5.1/bin", ["i386"; "x64"]);
     ("C:/R-3.5.1/bin/i386", []);
     ("C:/R-3.5.1/bin/x64", [])].

(** The registry prefers R 3.5.1; whoever sits at the machine closes the
    dialog without choosing. *)
Definition upgradedMachine : Host :=
  machine [] "C:/" oldAndNew preferredRegistry nobody.

(** Somebody who picks the 64-bit R 3.5.1 whenever asked and leaves the
    rendering engine as it is. *)
Definition picksR351 : list RVersion -> RVersion -> string
                       -> option (RVersion * string) :=
  fun _ _ renderingEngine =>
    Some (mkRVersion "C:/R-3.5.1/bin/x64" "C:/R-3.5.1" 196659 ArchX64,
          renderingEngine).

Definition attendedMachine : Host :=
  machine [] "C:/" R351 noRegistry picksR351.






(** A laptop with two display adapters, the primary one on the
    blacklist. *)
Definition laptop : Display :=
  mkDisplay 0
    [mkDISPLAY_DEVICE "NVIDIA GeForce 940MX" 1;
     mkDISPLAY_DEVICE "Intel(R) HD Graphics 620 (Mobile)" 5].

(** The same adapters, neither of them primary on the blacklist. *)
Definition docked : Display :=
  mkDisplay 0
    [mkDISPLAY_DEVICE "NVIDIA GeForce 940MX" 5;
     mkDISPLAY_DEVICE "Intel(R) HD Graphics 620 (Mobile)" 1].

Definition nothingSet : Rendering := mkRendering [] None ["rstudio"%string].


(** A 64-bit Windows on which ProgramFiles and ProgramW6432 name the same
    directory, with R 3.5.1 installed there. *)
Definition programFilesDisk : Disk :=
  mkDisk
    [mkFile "C:/Program Files/R/R-3.5.1/bin/x64/R.dll" (image 34404)
            (Some 196659)]
    [("C:/Program Files", ["R"%string]);
     ("C:/Program Files/R", ["R-3.5.1"%string]);
     ("C:/Program Files/R/R-3.5.1", ["bin"%string]);
     ("C:/Program Files/R/R-3.5.1/bin", ["x64"%string]);
     ("C:/Program Files/R/R-3.5.1/bin/x64", []);
     ("C:/Program Files (x86)", [])].

Definition programFilesMachine : Host :=
  machine [("ProgramFiles"%string, "C:\Program Files"%string);
           ("ProgramW6432"%string, "C:\Program Files"%string);
           ("ProgramFiles(x86)"%string, "C:\Program Files (x86)"%string)]
          "C:/" programFilesDisk noRegistry nobody.


(** The same disk and R_HOME, and nothing in the registry. *)
Definition nestedAlone : Host :=
  machine [("R_HOME", "C:/R/bin")] "C:/" nestedBin noRegistry nobody.

End Example.

(* ================================================================== *)
(** * Part III: properties                                              *)
(* ================================================================== *)

(** ** The minimum-version check *)

Lemma HIWORD_pack (hi lo : Z) :
  0 <= hi < 65536 -> 0 <= lo < 65536 -> HIWORD (hi * 65536 + lo) = hi.
Proof.
  intros Hhi Hlo. unfold HIWORD.
  rewrite Z.shiftr_div_pow2 by lia.
  change (2 ^ 16) with 65536.
  rewrite Z.div_add_l, (Z.div_small lo) by lia.
  rewrite Z.add_0_r.
  change 65535 with (Z.ones 16).
  rewrite Z.land_ones by lia.
  apply Z.mod_small. change (2 ^ 16) with 65536. lia.
Qed.

Lemma LOWORD_pack (hi lo : Z) :
  0 <= lo < 65536 -> LOWORD (hi * 65536 + lo) = lo.
Proof.
  intros Hlo. unfold LOWORD.
  change 65535 with (Z.ones 16).
  rewrite Z.land_ones by lia.
  change (2 ^ 16) with 65536.
  rewrite Z.add_comm, Z.mod_add by lia.
  apply Z.mod_small. lia.
Qed.

(** C5. [confirmMinVersion] answers true exactly when the high word of the
    packed version exceeds the required major, or equals it while the low
    word is at least the required minor.  So 0x00040002 passes against
    (4, 1), every version of major 3 fails against major 4 whatever the
    minor, and major 5 with minor 0 passes against major 4 whatever the
    minor required. *)
Theorem confirmMinVersion_spec :
  (forall version major minor,
      confirmMinVersion version major minor = true
      <-> (HIWORD version > major
           \/ (HIWORD version = major /\ LOWORD version >= minor)))
  /\ confirmMinVersion 262146 4 1 = true
  /\ (forall lo minor, confirmMinVersion (3 * 65536 + lo mod 65536) 4 minor = false)
  /\ (forall minor, confirmMinVersion (5 * 65536 + 0) 4 minor = true).
Proof.
  split; [| split; [reflexivity | split]].
  - intros v major minor. unfold confirmMinVersion.
    destruct (HIWORD v >? major) eqn:Hgt.
    + apply Z.gtb_lt in Hgt. split; [intros _; left; lia | reflexivity].
    + assert (Hle : HIWORD v <= major)
        by (destruct (Z.gtb_spec (HIWORD v) major); [discriminate | lia]).
      destruct (HIWORD v <? major) eqn:Hlt.
      * apply Z.ltb_lt in Hlt. split; [discriminate | intros [H | [H _]]; lia].
      * apply Z.ltb_ge in Hlt.
        rewrite Z.geb_leb, Z.leb_le. split; [intros H; right; lia |].
        intros [H | [_ H]]; lia.
  - intros lo minor. unfold confirmMinVersion.
    rewrite HIWORD_pack by (try lia; apply Z.mod_pos_bound; lia).
    reflexivity.
  - intros minor. unfold confirmMinVersion.
    rewrite HIWORD_pack by lia. reflexivity.
Qed.

(** ** The header reader *)

Lemma length_window (n off : nat) (bytes : list Byte.byte) :
  (0 < n)%nat ->
  (List.length (firstn n (skipn off bytes)) =? n)%nat
  = (off + n <=? List.length bytes)%nat.
Proof.
  intros Hn. rewrite length_firstn, length_skipn.
  destruct (Nat.leb_spec (off + n) (List.length bytes));
    [apply Nat.eqb_eq | apply Nat.eqb_neq]; lia.
Qed.

(** A read from a good stream delivers the field, or fails. *)
Lemma read_good (n : nat) (u : Z) (bytes : list Byte.byte) (pos : nat) :
  (0 < n)%nat ->
  match fieldAt n pos bytes with
  | Some v =>
      Stream.read n u (Stream.mk bytes pos true)
      = (v, Stream.mk bytes (pos + n) true)
  | None => Stream.good (snd (Stream.read n u (Stream.mk bytes pos true))) = false
  end.
Proof.
  intros Hn. unfold fieldAt, Stream.read. cbn [Stream.good Stream.content Stream.gpos].
  rewrite (length_window n pos bytes Hn).
  destruct (pos + n <=? List.length bytes)%nat; reflexivity.
Qed.

(** A stream that is not good stays so, whatever is read from it. *)
Lemma read_failed (n : nat) (u : Z) (s : Stream.ifstream) :
  Stream.good s = false -> Stream.good (snd (Stream.read n u s)) = false.
Proof. intros H. unfold Stream.read. rewrite H. exact H. Qed.

Lemma seekg_failed (off : Z) (s : Stream.ifstream) :
  Stream.good s = false -> Stream.good (Stream.seekg off s) = false.
Proof. intros H. unfold Stream.seekg. rewrite H. exact H. Qed.

Lemma afterSeek_failed (u1 u2 : Z) (s : Stream.ifstream) :
  Stream.good s = false -> afterSeek u1 u2 s = ArchNone.
Proof.
  intros H. unfold afterSeek.
  pose proof (read_failed 4 u1 s H) as H1.
  destruct (Stream.read 4 u1 s) as [header s1]. cbn [snd] in H1.
  destruct (negb (header =? 17744)); [reflexivity |].
  pose proof (read_failed 2 u2 s1 H1) as H2.
  destruct (Stream.read 2 u2 s1) as [arch s2]. cbn [snd] in H2.
  rewrite H2. reflexivity.
Qed.

Lemma afterSeek_good (u1 u2 : Z) (bytes : list Byte.byte) (pos : nat) :
  afterSeek u1 u2 (Stream.mk bytes pos true)
  = match fieldAt 4 pos bytes with
    | None => ArchNone
    | Some signature =>
        if signature =? 17744 then
          match fieldAt 2 (pos + 4) bytes with
          | None => ArchNone
          | Some machineType => machineToArchitecture machineType
          end
        else ArchNone
    end.
Proof.
  unfold afterSeek.
  pose proof (read_good 4 u1 bytes pos ltac:(lia)) as H1.
  destruct (fieldAt 4 pos bytes) as [signature |].
  - rewrite H1. destruct (signature =? 17744); [| reflexivity].
    cbn [negb].
    pose proof (read_good 2 u2 bytes (pos + 4) ltac:(lia)) as H2.
    destruct (fieldAt 2 (pos + 4) bytes) as [machineType |].
    + rewrite H2. reflexivity.
    + destruct (Stream.read 2 u2 (Stream.mk bytes (pos + 4) true)) as [a s2].
      cbn [snd] in H2. rewrite H2. reflexivity.
  - destruct (Stream.read 4 u1 (Stream.mk bytes pos true)) as [header s1] eqn:E.
    cbn [snd] in H1.
    destruct (negb (header =? 17744)); [reflexivity |].
    pose proof (read_failed 2 u2 s1 H1) as H2.
    destruct (Stream.read 2 u2 s1) as [arch s2]. cbn [snd] in H2.
    rewrite H2. reflexivity.
Qed.

Lemma getArch_afterSeek (h : Host) (path : string) :
  getArch h path
  = if negb (fileExists h path) then ArchNone
    else
      let stream := Stream.seekg 60 (Stream.open (fileBytes h path)) in
      let (headerOffset, stream) := Stream.read 4 (indeterminate h 0) stream in
      afterSeek (indeterminate h 1) (indeterminate h 2)
                (Stream.seekg headerOffset stream).
Proof.
  unfold getArch, afterSeek.
  destruct (negb (fileExists h path)); [reflexivity |].
  cbv zeta.
  destruct (Stream.read 4 (indeterminate h 0)
              (Stream.seekg 60 (Stream.open (fileBytes h path)))) as [off s].
  reflexivity.
Qed.

Lemma getArch_missing (h : Host) (path : string) :
  fileExists h path = false -> getArch h path = ArchNone.
Proof. intros H. unfold getArch. rewrite H. reflexivity. Qed.

Lemma getArch_existing (h : Host) (path : string) :
  fileExists h path = true ->
  getArch h path = headerArchitecture (fileBytes h path).
Proof.
  intros Hex. rewrite getArch_afterSeek, Hex.
  cbn [negb]. cbv zeta.
  destruct (fileBytes h path) as [bytes |]; cbn [Stream.open headerArchitecture].
  - change (Stream.seekg 60 (Stream.mk bytes 0 true))
      with (Stream.mk bytes 60 true).
    pose proof (read_good 4 (indeterminate h 0) bytes 60 ltac:(lia)) as H1.
    destruct (fieldAt 4 60 bytes) as [headerOffset |].
    + rewrite H1. unfold Stream.seekg. cbn [Stream.good Stream.content].
      apply afterSeek_good.
    + destruct (Stream.read 4 (indeterminate h 0) (Stream.mk bytes 60 true))
        as [off s1].
      cbn [snd] in H1.
      apply afterSeek_failed, seekg_failed, H1.
  - pose proof (read_failed 4 (indeterminate h 0)
                  (Stream.seekg 60 (Stream.mk [] 0 false))
                  (seekg_failed 60 (Stream.mk [] 0 false) eq_refl)) as H1.
    destruct (Stream.read 4 (indeterminate h 0)
                (Stream.seekg 60 (Stream.mk [] 0 false))) as [off s1].
    cbn [snd] in H1.
    apply afterSeek_failed, seekg_failed, H1.
Qed.

(** C6. On a file that exists, [getArch] is the reader of the
    specification: the 32-bit little-endian header offset at byte 0x3C, the
    32-bit little-endian signature at that offset, [ArchNone] unless the
    signature is 0x00004550, then the 16-bit little-endian machine type
    mapped 0x014C to X86, 0x8664 to X64 and anything else to Unknown; a
    field that the bytes do not reach gives [ArchNone].  A file that does
    not exist or cannot be opened gives [ArchNone].  The values that the
    uninitialised locals held do not matter. *)
Theorem getArch_reads_header (h : Host) (path : string) :
  getArch h path
  = if fileExists h path then headerArchitecture (fileBytes h path)
    else ArchNone.
Proof.
  destruct (fileExists h path) eqn:Hex.
  - apply getArch_existing, Hex.
  - apply getArch_missing, Hex.
Qed.

Lemma fieldAt_short (n off : nat) (bytes : list Byte.byte) :
  (List.length bytes < off + n)%nat -> fieldAt n off bytes = None.
Proof.
  intros H. unfold fieldAt.
  destruct (Nat.leb_spec (off + n) (List.length bytes)); [lia | reflexivity].
Qed.

Lemma fieldAt_value (n off : nat) (bytes : list Byte.byte) (v : Z) :
  fieldAt n off bytes = Some v -> v = le_combine (firstn n (skipn off bytes)).
Proof.
  unfold fieldAt. destruct (off + n <=? List.length bytes)%nat; congruence.
Qed.

Lemma headerArchitecture_truncated (bytes : list Byte.byte) :
  truncated bytes -> headerArchitecture (Some bytes) = ArchNone.
Proof.
  intros [Hshort | Hshort]; cbn [headerArchitecture].
  - rewrite fieldAt_short by lia. reflexivity.
  - destruct (fieldAt 4 60 bytes) as [headerOffset |] eqn:E1; [| reflexivity].
    apply fieldAt_value in E1. subst headerOffset.
    destruct (fieldAt 4 _ bytes) as [signature |]; [| reflexivity].
    rewrite (fieldAt_short 2) by lia.
    destruct (signature =? 17744); reflexivity.
Qed.

(** C7. A file that is missing, that cannot be opened, or whose bytes end
    before the header fields that the reader needs (before byte 0x40, or
    before the end of the machine type at header offset + 6) gives
    [ArchNone], the same answer as for a missing file; [getArch] has no
    other way to report a failure. *)
Theorem getArch_truncated (h : Host) (path : string) :
  fileExists h path = false
  \/ fileBytes h path = None
  \/ (exists bytes, fileBytes h path = Some bytes /\ truncated bytes) ->
  getArch h path = ArchNone.
Proof.
  intros H.
  destruct (fileExists h path) eqn:Hex; [| apply getArch_missing, Hex].
  rewrite (getArch_existing h path Hex).
  destruct H as [H | [H | [bytes [H Ht]]]].
  - discriminate.
  - rewrite H. reflexivity.
  - rewrite H. apply headerArchitecture_truncated, Ht.
Qed.

Lemma getArch_truncated_witness :
  getArch Example.stubMachine "C:/R/R-3.5.1/bin/x64/R.dll" = ArchNone.
Proof.
  apply (getArch_truncated Example.stubMachine "C:/R/R-3.5.1/bin/x64/R.dll").
  right. right. exists (repeat Byte.x00 10).
  split; [reflexivity | left; cbn; lia].
Defined.

(** ** Logged computations *)

Lemma fst_bind {A B : Type} (m : Logged A) (k : A -> Logged B) :
  fst (bind m k) = fst (k (fst m)).
Proof. unfold bind. destruct m as [a l1]. cbn [fst]. destruct (k a). reflexivity. Qed.

Lemma snd_bind {A B : Type} (m : Logged A) (k : A -> Logged B) :
  snd (bind m k) = snd m ++ snd (k (fst m)).
Proof. unfold bind. destruct m as [a l1]. cbn [fst snd]. destruct (k a). reflexivity. Qed.

Lemma allRVersions_value (h : Host) (versions : list RVersion) :
  fst (allRVersions h versions) = sortedCandidates h (enumerated h versions).
Proof. unfold allRVersions, enumerated. rewrite fst_bind. reflexivity. Qed.

(** ** Records and validity *)

Lemma isEmpty_str_true (s : string) : isEmpty_str s = true <-> s = "".
Proof. destruct s; cbn; split; congruence. Qed.

Lemma isEmpty_str_false (s : string) : isEmpty_str s = false <-> s <> "".
Proof. destruct s; cbn; split; congruence. Qed.

Lemma homeDir_newRVersion (h : Host) (b : string) :
  homeDir (newRVersion h b) = binDirToHomeDir b.
Proof. unfold newRVersion. destruct (negb (isEmpty_str b)); reflexivity. Qed.

Lemma binDir_newRVersion (h : Host) (b : string) :
  binDir (newRVersion h b) = b.
Proof. unfold newRVersion. destruct (negb (isEmpty_str b)); reflexivity. Qed.

Lemma newRVersion_empty (h : Host) :
  newRVersion h "" = mkRVersion "" "" 0 ArchNone.
Proof. reflexivity. Qed.

Lemma validate_no_homeDir (h : Host) (r : RVersion) :
  homeDir r = "" -> validate h r = ValidateNotFound.
Proof.
  intros H. unfold validate. rewrite H. cbn [isEmpty_str].
  rewrite orb_true_r. reflexivity.
Qed.

Lemma isValid_homeDir (h : Host) (r : RVersion) :
  isValid h r = true -> homeDir r <> "" /\ binDir r <> "".
Proof.
  unfold isValid, validate, isEmpty. intros H.
  destruct (isEmpty_str (binDir r)) eqn:Eb; [discriminate |].
  destruct (isEmpty_str (homeDir r)) eqn:Eh; [discriminate |].
  split; apply isEmpty_str_false; assumption.
Qed.

Lemma binDirToHomeDir_no_bin (b : string) :
  QDir.isAbsolute (QDir.make b) = false
  \/ (QDir.dirName (QDir.make b) <> "bin"
      /\ QDir.dirName (upOne (QDir.make b)) <> "bin") ->
  binDirToHomeDir b = "".
Proof.
  intros H. unfold binDirToHomeDir.
  destruct (isEmpty_str b); [reflexivity |].
  destruct H as [H | [H1 H2]].
  - rewrite H. reflexivity.
  - destruct (negb (QDir.isAbsolute (QDir.make b))); [reflexivity |].
    apply String.eqb_neq in H1. rewrite H1. cbn [negb].
    fold (upOne (QDir.make b)).
    apply String.eqb_neq in H2. rewrite H2. reflexivity.
Qed.

(** ** What the sorting and removing steps keep *)

Lemma In_insertSorted (x y : RVersion) (l : list RVersion) :
  In y (insertSorted x l) <-> y = x \/ In y l.
Proof.
  induction l as [| z t IH]; cbn [insertSorted].
  - cbn. intuition congruence.
  - destruct (lessThan z x); cbn [In]; [rewrite IH |]; intuition congruence.
Qed.

Lemma In_qSort (y : RVersion) (l : list RVersion) :
  In y (qSort l) <-> In y l.
Proof.
  induction l as [| x t IH]; cbn [qSort fold_right]; [reflexivity |].
  fold (qSort t). rewrite In_insertSorted, IH. cbn. intuition congruence.
Qed.

Lemma In_dedupFrom (y prev : RVersion) (l : list RVersion) :
  In y (dedupFrom prev l) -> In y l.
Proof.
  revert prev. induction l as [| z t IH]; intros prev; cbn [dedupFrom]; [tauto |].
  destruct (equals z prev); cbn [In]; intros H.
  - right. eapply IH, H.
  - destruct H as [H | H]; [left; exact H | right; eapply IH, H].
Qed.

Lemma In_deduplicate (y : RVersion) (l : list RVersion) :
  In y (deduplicate l) -> In y l.
Proof.
  destruct l as [| x t]; cbn [deduplicate In]; [tauto |].
  intros [H | H]; [left; exact H | right; eapply In_dedupFrom, H].
Qed.

Lemma In_sortedCandidates (h : Host) (y : RVersion) (l : list RVersion) :
  In y (sortedCandidates h l) ->
  In y l /\ isValid h y = true /\ architecture y = ArchX64.
Proof.
  unfold sortedCandidates, removeUnsupported, removeInvalid. intros H.
  apply filter_In in H. destruct H as [H Ha].
  apply In_deduplicate, In_qSort, filter_In in H.
  destruct H as [H Hv]. repeat split; try assumption.
  destruct (architecture y); cbn in Ha; congruence.
Qed.

(** C10. A record made from a non-empty [binDir] that is not absolute, or
    one of whose last two path segments none is named "bin", has an empty
    [homeDir], [validate] answers [ValidateNotFound] for it and it is not
    valid.  Whatever record has an empty [homeDir] is not valid, and so no
    record that [allRVersions] returns has one. *)
Theorem no_homeDir_never_valid (h : Host) :
  (forall b,
      b <> "" ->
      QDir.isAbsolute (QDir.make b) = false
      \/ (QDir.dirName (QDir.make b) <> "bin"
          /\ QDir.dirName (upOne (QDir.make b)) <> "bin") ->
      homeDir (newRVersion h b) = ""
      /\ validate h (newRVersion h b) = ValidateNotFound
      /\ isValid h (newRVersion h b) = false)
  /\ (forall r,
         homeDir r = "" ->
         validate h r = ValidateNotFound /\ isValid h r = false)
  /\ (forall versions r,
         In r (fst (allRVersions h versions)) ->
         isValid h r = true /\ homeDir r <> "").
Proof.
  assert (Hgen : forall r, homeDir r = "" ->
                           validate h r = ValidateNotFound /\ isValid h r = false).
  { intros r Hr. unfold isValid. rewrite (validate_no_homeDir h r Hr). auto. }
  split; [| split].
  - intros b _ Hb.
    assert (Hh : homeDir (newRVersion h b) = "")
      by (rewrite homeDir_newRVersion; apply binDirToHomeDir_no_bin, Hb).
    split; [exact Hh | apply Hgen, Hh].
  - exact Hgen.
  - intros versions r Hin. rewrite allRVersions_value in Hin.
    apply In_sortedCandidates in Hin. destruct Hin as [_ [Hv _]].
    split; [exact Hv | apply (isValid_homeDir h r Hv)].
Qed.

Lemma no_homeDir_never_valid_witness :
  validate Example.plainMachine (newRVersion Example.plainMachine "R-3.5.1/bin")
  = ValidateNotFound
  /\ validate Example.plainMachine
       (newRVersion Example.plainMachine "C:/R-3.5.1/library")
     = ValidateNotFound.
Proof.
  split.
  - apply (proj1 (no_homeDir_never_valid Example.plainMachine) "R-3.5.1/bin").
    + discriminate.
    + left. reflexivity.
  - apply (proj1 (no_homeDir_never_valid Example.plainMachine)
             "C:/R-3.5.1/library").
    + discriminate.
    + right. split; vm_compute; discriminate.
Defined.

(** ** Comparisons *)

Section CoherentFacts.
Context {A : Type} (cmp : A -> A -> comparison) `{!Coherent cmp}.

Lemma cmp_refl (a : A) : cmp a a = Eq.
Proof.
  pose proof (cmp_antisym cmp a a) as H.
  destruct (cmp a a); cbn in H; congruence.
Qed.

Lemma cmp_eq_sym (a b : A) : cmp a b = Eq -> cmp b a = Eq.
Proof. intros H. rewrite (cmp_antisym cmp a b), H. reflexivity. Qed.

Lemma cmp_eq_r (a b c : A) : cmp b c = Eq -> cmp a b = cmp a c.
Proof.
  intros H.
  pose proof (cmp_eq_l cmp b c a H) as E.
  rewrite (cmp_antisym cmp a b), (cmp_antisym cmp a c) in E.
  destruct (cmp a b), (cmp a c); cbn in E; congruence.
Qed.

Lemma cmp_gt_lt (a b : A) : cmp a b = Gt <-> cmp b a = Lt.
Proof.
  rewrite (cmp_antisym cmp a b).
  destruct (cmp a b); cbn; split; congruence.
Qed.

(** "Not after" is transitive. *)
Lemma cmp_le_trans (a b c : A) :
  cmp a b <> Gt -> cmp b c <> Gt -> cmp a c <> Gt.
Proof.
  intros Hab Hbc.
  destruct (cmp a b) eqn:Eab; [| | congruence].
  - rewrite (cmp_eq_l cmp a b c Eab). exact Hbc.
  - destruct (cmp b c) eqn:Ebc; [| | congruence].
    + rewrite <- (cmp_eq_r a b c Ebc), Eab. discriminate.
    + rewrite (cmp_trans cmp a b c Eab Ebc). discriminate.
Qed.

Lemma cmp_lt_le_trans (a b c : A) :
  cmp a b = Lt -> cmp b c <> Gt -> cmp a c = Lt.
Proof.
  intros Hab Hbc.
  destruct (cmp b c) eqn:Ebc; [| | congruence].
  - rewrite <- (cmp_eq_r a b c Ebc). exact Hab.
  - exact (cmp_trans cmp a b c Hab Ebc).
Qed.
End CoherentFacts.

Lemma Coherent_Z : Coherent Z.compare.
Proof.
  split.
  - intros a b. apply Z.compare_antisym.
  - intros a b c. rewrite !Z.compare_lt_iff. lia.
  - intros a b c H. apply Z.compare_eq in H. subst. reflexivity.
Qed.

#[local] Instance Coherent_N : Coherent N.compare.
Proof.
  split.
  - intros a b. apply N.compare_antisym.
  - intros a b c. rewrite !N.compare_lt_iff. lia.
  - intros a b c H. apply N.compare_eq in H. subst. reflexivity.
Qed.

Lemma Coherent_key {A B : Type} (f : A -> B)
  (cmp : B -> B -> comparison) (Hcmp : Coherent cmp) :
  Coherent (fun a b => cmp (f a) (f b)).
Proof.
  split; intros.
  - apply (cmp_antisym cmp).
  - eapply (cmp_trans cmp); eassumption.
  - apply (cmp_eq_l cmp). assumption.
Qed.

Lemma Coherent_flip {A : Type}
  (cmp : A -> A -> comparison) (Hcmp : Coherent cmp) :
  Coherent (fun a b => cmp b a).
Proof.
  split.
  - intros a b. apply (cmp_antisym cmp).
  - intros a b c H1 H2. exact (cmp_trans cmp c b a H2 H1).
  - intros a b c H. apply (cmp_eq_r cmp). apply (cmp_eq_sym cmp). exact H.
Qed.

Lemma Coherent_lexi {A : Type}
  (c1 c2 : A -> A -> comparison) (H1 : Coherent c1) (H2 : Coherent c2) :
  Coherent (lexi c1 c2).
Proof.
  split; unfold lexi.
  - intros a b. rewrite (cmp_antisym c1 a b).
    destruct (c1 a b); cbn; [apply (cmp_antisym c2) | reflexivity | reflexivity].
  - intros a b c Hab Hbc.
    destruct (c1 a b) eqn:Eab; [| | discriminate].
    + rewrite (cmp_eq_l c1 a b c Eab).
      destruct (c1 b c); [| reflexivity | discriminate].
      exact (cmp_trans c2 a b c Hab Hbc).
    + destruct (c1 b c) eqn:Ebc; [| | discriminate].
      * rewrite <- (cmp_eq_r c1 a b c Ebc), Eab. reflexivity.
      * rewrite (cmp_trans c1 a b c Eab Ebc). reflexivity.
  - intros a b c H.
    destruct (c1 a b) eqn:Eab; try discriminate.
    rewrite (cmp_eq_l c1 a b c Eab).
    destruct (c1 b c); [| reflexivity | reflexivity].
    exact (cmp_eq_l c2 a b c H).
Qed.

#[local] Instance Coherent_folded : Coherent compare_folded.
Proof.
  split.
  - induction a as [| x a IH]; destruct b as [| y b]; cbn; try reflexivity.
    rewrite (N.compare_antisym (foldCase x) (foldCase y)).
    destruct (foldCase x ?= foldCase y)%N; cbn; [apply IH | reflexivity | reflexivity].
  - induction a as [| x a IH]; destruct b as [| y b]; destruct c as [| z c];
      cbn; try congruence.
    intros Hab Hbc.
    destruct (foldCase x ?= foldCase y)%N eqn:Exy; [| | discriminate].
    + rewrite (cmp_eq_l N.compare _ _ (foldCase z) Exy).
      destruct (foldCase y ?= foldCase z)%N; [| reflexivity | discriminate].
      exact (IH b c Hab Hbc).
    + destruct (foldCase y ?= foldCase z)%N eqn:Eyz; [| | discriminate].
      * rewrite <- (cmp_eq_r N.compare _ _ _ Eyz), Exy. reflexivity.
      * rewrite (cmp_trans N.compare _ _ _ Exy Eyz). reflexivity.
  - induction a as [| x a IH]; destruct b as [| y b]; destruct c as [| z c];
      cbn; try congruence.
    intros H.
    destruct (foldCase x ?= foldCase y)%N eqn:Exy; try discriminate.
    rewrite (cmp_eq_l N.compare _ _ (foldCase z) Exy).
    destruct (foldCase y ?= foldCase z)%N; [| reflexivity | reflexivity].
    exact (IH b c H).
Qed.

Lemma Coherent_descending {A : Type} (f : A -> Z) :
  Coherent (fun a b => Z.compare (f b) (f a)).
Proof.
  apply (Coherent_flip (fun a b => Z.compare (f a) (f b))).
  apply (Coherent_key f Z.compare). exact Coherent_Z.
Qed.

#[local] Instance Coherent_specifiedOrder : Coherent specifiedOrder.
Proof.
  unfold specifiedOrder.
  apply Coherent_lexi; [apply (Coherent_descending version) |].
  apply Coherent_lexi;
    [apply (Coherent_key homeDir compare_folded); exact Coherent_folded |].
  apply Coherent_lexi;
    [apply (Coherent_descending (fun r => archValue (architecture r))) |].
  apply (Coherent_key binDir compare_folded). exact Coherent_folded.
Qed.

(** ** The comparator against the specified order *)

Lemma to_int_id (x : Z) : -2147483648 <= x < 2147483648 -> to_int x = x.
Proof.
  intros H. unfold to_int. cbv zeta.
  destruct (Z_lt_le_dec x 0) as [Hneg | Hpos].
  - replace (x mod 4294967296) with (x + 4294967296).
    + destruct (Z.ltb_spec (x + 4294967296) 2147483648); lia.
    + symmetry. rewrite <- (Z.mod_add x 1 4294967296) by lia.
      apply Z.mod_small. lia.
  - rewrite Z.mod_small by lia.
    destruct (Z.ltb_spec x 2147483648); lia.
Qed.

Lemma step_sign (c k : Z) (o : comparison) :
  (c ?= 0) = o ->
  ((if negb (c =? 0) then c else k) ?= 0)
  = match o with Eq => (k ?= 0) | _ => o end.
Proof.
  intros H. destruct (Z.eqb_spec c 0) as [E | E]; cbn [negb].
  - subst c. cbn in H. subst o. reflexivity.
  - rewrite H. destruct o; try reflexivity.
    apply Z.compare_eq in H. contradiction.
Qed.

Lemma QString_compare_ci_sign (s t : string) :
  (QString_compare_ci s t ?= 0) = compare_folded s t.
Proof. unfold QString_compare_ci. destruct (compare_folded s t); reflexivity. Qed.

Lemma int_difference_sign (x y : Z) :
  -2147483648 < x - y < 2147483648 ->
  -2147483648 <= x < 2147483648 ->
  -2147483648 <= y < 2147483648 ->
  (int_neg (int_sub (to_int x) (to_int y)) ?= 0) = (y ?= x).
Proof.
  intros Hd Hx Hy. unfold int_neg, int_sub.
  rewrite (to_int_id x), (to_int_id y) by assumption.
  rewrite (to_int_id (x - y)) by lia.
  rewrite (to_int_id (- (x - y))) by lia.
  destruct (Z.compare_spec y x) as [E | E | E].
  - subst. replace (- (x - x)) with 0 by lia. reflexivity.
  - apply Z.compare_lt_iff. lia.
  - apply Z.compare_gt_iff. lia.
Qed.

Lemma archValue_difference_sign (x y : Architecture) :
  (int_neg (int_sub (archValue x) (archValue y)) ?= 0)
  = (archValue y ?= archValue x).
Proof. destruct x, y; reflexivity. Qed.

(** On versions that are not negative as an [int], the sign of [compareTo]
    is the specified order. *)
Lemma compareTo_sign (a b : RVersion) :
  fitsInt a -> fitsInt b -> (compareTo a b ?= 0) = specifiedOrder a b.
Proof.
  unfold fitsInt. intros Ha Hb. unfold compareTo, specifiedOrder, lexi.
  cbv zeta.
  rewrite (step_sign _ _ _ (int_difference_sign (version a) (version b)
                              ltac:(lia) ltac:(lia) ltac:(lia))).
  destruct (version b ?= version a); try reflexivity.
  rewrite (step_sign _ _ _ (QString_compare_ci_sign (homeDir a) (homeDir b))).
  destruct (compare_folded (homeDir a) (homeDir b)); try reflexivity.
  rewrite (step_sign _ _ _ (archValue_difference_sign
                              (architecture a) (architecture b))).
  destruct (archValue (architecture b) ?= archValue (architecture a));
    try reflexivity.
  rewrite (step_sign _ _ _ (QString_compare_ci_sign (binDir a) (binDir b))).
  destruct (compare_folded (binDir a) (binDir b)); reflexivity.
Qed.

Lemma lessThan_specified (a b : RVersion) :
  fitsInt a -> fitsInt b ->
  lessThan a b = true <-> specifiedOrder a b = Lt.
Proof.
  intros Ha Hb. unfold lessThan.
  rewrite <- (compareTo_sign a b Ha Hb), Z.ltb_lt. reflexivity.
Qed.

(** Records that [compareTo] does not tell apart are equal for
    [operator==], whatever their versions. *)
Lemma compareTo_0_equals (a b : RVersion) :
  compareTo a b = 0 -> equals b a = true.
Proof.
  unfold compareTo, equals. cbv zeta. intros H.
  assert (E : QString_compare_ci (binDir a) (binDir b) = 0).
  { repeat match type of H with
           | (if negb (?c =? 0) then _ else _) = 0 =>
               let N := fresh "N" in
               destruct (Z.eqb_spec c 0) as [N | N]; cbn [negb] in H;
               [| contradiction]
           end.
    assumption. }
  pose proof (QString_compare_ci_sign (binDir a) (binDir b)) as S.
  rewrite E in S. cbn in S. symmetry in S.
  apply (cmp_eq_sym compare_folded) in S.
  unfold QString_compare_ci. rewrite S. reflexivity.
Qed.

Lemma specifiedOrder_Eq_equals (a b : RVersion) :
  specifiedOrder a b = Eq -> equals b a = true.
Proof.
  unfold specifiedOrder, lexi, equals. intros H.
  destruct (version b ?= version a); try discriminate.
  destruct (compare_folded (homeDir a) (homeDir b)); try discriminate.
  destruct (archValue (architecture b) ?= archValue (architecture a));
    try discriminate.
  apply (cmp_eq_sym compare_folded) in H.
  unfold QString_compare_ci. rewrite H. reflexivity.
Qed.

(** ** Sorting *)

Lemma Forall_insertSorted (P : RVersion -> Prop) (x : RVersion)
  (l : list RVersion) :
  P x -> Forall P l -> Forall P (insertSorted x l).
Proof.
  intros Hx Hl. apply Forall_forall. intros y Hy.
  apply (proj1 (In_insertSorted x y l)) in Hy.
  destruct Hy as [-> | Hy]; [exact Hx |].
  rewrite Forall_forall in Hl. exact (Hl y Hy).
Qed.

Lemma Forall_qSort (P : RVersion -> Prop) (l : list RVersion) :
  Forall P l -> Forall P (qSort l).
Proof.
  intros Hl. apply Forall_forall. intros y Hy.
  apply (proj1 (In_qSort y l)) in Hy.
  rewrite Forall_forall in Hl. exact (Hl y Hy).
Qed.

Lemma insertSorted_sorted (x : RVersion) (l : list RVersion) :
  fitsInt x -> Forall fitsInt l ->
  StronglySorted notAfter l -> StronglySorted notAfter (insertSorted x l).
Proof.
  intros Hx. induction l as [| y t IH]; intros Hl Hs; cbn [insertSorted].
  - constructor; constructor.
  - inversion Hl as [| ? ? Hy Ht]; subst.
    inversion Hs as [| ? ? Hst Hyt]; subst.
    destruct (lessThan y x) eqn:E.
    + apply (lessThan_specified y x Hy Hx) in E.
      constructor; [exact (IH Ht Hst) |].
      apply Forall_insertSorted; [| exact Hyt].
      unfold notAfter. rewrite E. discriminate.
    + assert (Hxy : notAfter x y).
      { unfold notAfter. intros G.
        apply (cmp_gt_lt specifiedOrder) in G.
        apply (lessThan_specified y x Hy Hx) in G. congruence. }
      constructor; [exact Hs |].
      constructor; [exact Hxy |].
      apply Forall_forall. intros z Hz.
      rewrite Forall_forall in Hyt.
      exact (cmp_le_trans specifiedOrder x y z Hxy (Hyt z Hz)).
Qed.

Lemma qSort_sorted (l : list RVersion) :
  Forall fitsInt l -> StronglySorted notAfter (qSort l).
Proof.
  induction l as [| x t IH]; intros Hl; cbn [qSort fold_right].
  - constructor.
  - inversion Hl; subst. fold (qSort t).
    apply insertSorted_sorted; [assumption | apply Forall_qSort; assumption |].
    apply IH. assumption.
Qed.

(** ** De-duplication *)

Lemma dedupFrom_strict (l : list RVersion) (x : RVersion) :
  Forall (notAfter x) l -> StronglySorted notAfter l ->
  Forall (strictlyBefore x) (dedupFrom x l)
  /\ StronglySorted strictlyBefore (dedupFrom x l).
Proof.
  revert x. induction l as [| y t IH]; intros x Hx Hs; cbn [dedupFrom].
  - split; constructor.
  - inversion Hx as [| ? ? Hxy Hxt]; subst.
    inversion Hs as [| ? ? Hst Hyt]; subst.
    destruct (equals y x) eqn:E.
    + exact (IH x Hxt Hst).
    + assert (Hlt : strictlyBefore x y).
      { unfold strictlyBefore. unfold notAfter in Hxy.
        destruct (specifiedOrder x y) eqn:C; [| reflexivity | congruence].
        apply specifiedOrder_Eq_equals in C. congruence. }
      destruct (IH y Hyt Hst) as [Hall Hsorted].
      split.
      * constructor; [exact Hlt |].
        apply Forall_forall. intros z Hz.
        rewrite Forall_forall in Hall.
        exact (cmp_trans specifiedOrder x y z Hlt (Hall z Hz)).
      * constructor; assumption.
Qed.

Lemma deduplicate_strict (l : list RVersion) :
  StronglySorted notAfter l -> StronglySorted strictlyBefore (deduplicate l).
Proof.
  destruct l as [| x t]; cbn [deduplicate]; intros Hs; [constructor |].
  inversion Hs as [| ? ? Hst Hxt]; subst.
  destruct (dedupFrom_strict t x Hxt Hst). constructor; assumption.
Qed.

Lemma StronglySorted_filter {A : Type} (R : A -> A -> Prop) (f : A -> bool)
  (l : list A) :
  StronglySorted R l -> StronglySorted R (filter f l).
Proof.
  induction 1 as [| x t Hs IH Hx]; cbn [filter]; [constructor |].
  destruct (f x); [| exact IH].
  constructor; [exact IH |].
  apply Forall_forall. intros y Hy. apply filter_In in Hy.
  rewrite Forall_forall in Hx. apply Hx. tauto.
Qed.

Lemma StronglySorted_among {A : Type} (P : A -> Prop) (R R' : A -> A -> Prop)
  (l : list A) :
  (forall a b, P a -> P b -> R a b -> R' a b) ->
  Forall P l -> StronglySorted R l -> StronglySorted R' l.
Proof.
  intros HR Hl Hs. induction Hs as [| x t Hs IH Hx]; [constructor |].
  inversion Hl as [| ? ? Px Pt]; subst.
  constructor; [exact (IH Pt) |].
  rewrite Forall_forall in *. intros y Hy. apply HR; auto.
Qed.

Lemma sortedCandidates_strict (h : Host) (l : list RVersion) :
  Forall fitsInt l -> StronglySorted sortsBefore (sortedCandidates h l).
Proof.
  intros Hl.
  assert (Hfit : Forall fitsInt (sortedCandidates h l)).
  { apply Forall_forall. intros y Hy. apply In_sortedCandidates in Hy.
    rewrite Forall_forall in Hl. apply Hl. tauto. }
  apply (StronglySorted_among fitsInt strictlyBefore sortsBefore);
    [| exact Hfit |].
  - intros a b Ha Hb Hab. unfold sortsBefore, strictlyBefore in *.
    rewrite <- (compareTo_sign a b Ha Hb) in Hab.
    apply Z.compare_lt_iff. exact Hab.
  - unfold sortedCandidates, removeUnsupported.
    apply StronglySorted_filter, deduplicate_strict, qSort_sorted.
    unfold removeInvalid. apply Forall_forall. intros y Hy.
    apply filter_In in Hy. rewrite Forall_forall in Hl. apply Hl. tauto.
Qed.

Lemma dedupFrom_idempotent (l : list RVersion) (x : RVersion) :
  dedupFrom x (dedupFrom x l) = dedupFrom x l.
Proof.
  revert x. induction l as [| y t IH]; intros x; cbn [dedupFrom]; [reflexivity |].
  destruct (equals y x) eqn:E; [apply IH |].
  cbn [dedupFrom]. rewrite E, IH. reflexivity.
Qed.

Lemma deduplicate_idempotent (l : list RVersion) :
  deduplicate (deduplicate l) = deduplicate l.
Proof.
  destruct l as [| x t]; cbn [deduplicate]; [reflexivity |].
  rewrite dedupFrom_idempotent. reflexivity.
Qed.

Lemma dedupFrom_skipEqual (l : list RVersion) (x : RVersion) :
  dedupFrom x l = deduplicate (skipEqual x l).
Proof.
  induction l as [| y t IH]; cbn [dedupFrom skipEqual]; [reflexivity |].
  destruct (equals y x); [exact IH | reflexivity].
Qed.

(** No two neighbours of a de-duplicated list are equal. *)
Lemma dedupFrom_neighbours (l : list RVersion) (x : RVersion) :
  forall front a b back,
    x :: dedupFrom x l = front ++ a :: b :: back -> equals b a = false.
Proof.
  revert x. induction l as [| y t IH]; intros x front a b back; cbn [dedupFrom].
  - destruct front as [| f [| f' front]]; cbn; intros H; discriminate.
  - destruct (equals y x) eqn:E; [apply IH |].
    destruct front as [| f front]; cbn [app]; intros H.
    + injection H as <- <- _. exact E.
    + injection H as _ H. exact (IH y front a b back H).
Qed.

(** ** What the enumerators add

    Every enumerator leaves the records it was given in place and adds
    records that the constructor made; so a property of all constructed
    records that holds for the list given holds for the list returned. *)

Lemma fold_left_invariant {A B : Type} (Inv : A -> Prop) (f : A -> B -> A)
  (l : list B) (a : A) :
  (forall a b, Inv a -> Inv (f a b)) -> Inv a -> Inv (fold_left f l a).
Proof.
  intros Hf. revert a. induction l as [| b t IH]; intros a Ha; cbn [fold_left].
  - exact Ha.
  - apply IH, Hf, Ha.
Qed.

Lemma forEach_invariant {A S : Type} (Inv : S -> Prop)
  (body : S -> A -> Logged S) (l : list A) (s : S) :
  (forall s a, Inv s -> Inv (fst (body s a))) ->
  Inv s -> Inv (fst (forEach body l s)).
Proof.
  intros Hb. revert s. induction l as [| a t IH]; intros s Hs; cbn [forEach].
  - exact Hs.
  - rewrite fst_bind. apply IH, Hb, Hs.
Qed.

Section Constructed.
Variable h : Host.
Variable P : RVersion -> Prop.
Hypothesis P_new : forall path, P (newRVersion h path).

Lemma versionsFromRHome_Forall (rHome : string) (pResults : list RVersion) :
  Forall P pResults -> Forall P (versionsFromRHome h rHome pResults).
Proof.
  unfold versionsFromRHome. apply fold_left_invariant.
  intros results d Hr.
  destruct (QDir.cd (dirExists h) rHome d) as [tmp |]; [| exact Hr].
  destruct (QDir.existsEntry (fileExists h) tmp "R.dll"); [| exact Hr].
  apply Forall_app. split; [exact Hr |]. constructor; [apply P_new | constructor].
Qed.

Lemma enumProgramFilesIn_Forall (progFiles : string)
  (pResults : list RVersion) :
  Forall P pResults -> Forall P (enumProgramFilesIn h progFiles pResults).
Proof.
  intros Hr. unfold enumProgramFilesIn. cbv zeta.
  destruct (QDir.isAbsolute (QDir.make progFiles)
            && dirExists h (QDir.make progFiles)); [| exact Hr].
  destruct (QDir.cd (dirExists h) (QDir.make progFiles) "R"); [| exact Hr].
  apply fold_left_invariant; [| exact Hr].
  intros results rDir. apply versionsFromRHome_Forall.
Qed.

Lemma enumProgramFiles_Forall (pResults : list RVersion) :
  Forall P pResults -> Forall P (enumProgramFiles h pResults).
Proof.
  unfold enumProgramFiles. cbv zeta. apply fold_left_invariant.
  intros results p. apply enumProgramFilesIn_Forall.
Qed.

Lemma enumRegistryKey_Forall (arch : Architecture) (key : HKEY)
  (pResults : list RVersion) :
  Forall P pResults -> Forall P (fst (enumRegistryKey h arch key pResults)).
Proof.
  intros Hr. unfold enumRegistryKey.
  assert (Hwalk : forall flags,
    Forall P (fst
      match regOpen h key "Software\R-core\R" (Z.lor KEY_READ flags) with
      | inl error =>
          if negb (code error =? no_such_file_or_directory)
          then LOG_ERROR error ;;; ret pResults
          else ret pResults
      | inr regKey =>
          forEach
            (fun results name =>
               match regOpen h (handle regKey) name (Z.lor KEY_READ flags) with
               | inl error => LOG_ERROR error ;;; ret results
               | inr verKey =>
                   let installPath := getStringValue verKey "InstallPath" "" in
                   if negb (isEmpty_str installPath)
                   then ret (versionsFromRHome h (QDir.make installPath) results)
                   else ret results
               end)
            (keyNames regKey) pResults
      end)).
  { intros flags.
    destruct (regOpen h key "Software\R-core\R" (Z.lor KEY_READ flags))
      as [error | regKey].
    - destruct (negb (code error =? no_such_file_or_directory)); exact Hr.
    - apply forEach_invariant; [| exact Hr].
      intros results name Hres.
      destruct (regOpen h (handle regKey) name (Z.lor KEY_READ flags))
        as [error | verKey]; [exact Hres |].
      cbv zeta.
      destruct (negb (isEmpty_str (getStringValue verKey "InstallPath" "")));
        [| exact Hres].
      cbn [ret fst]. apply versionsFromRHome_Forall, Hres. }
  destruct arch; try exact Hr; apply Hwalk.
Qed.

Lemma enumRegistry_Forall (pResults : list RVersion) :
  Forall P pResults -> Forall P (fst (enumRegistry h pResults)).
Proof.
  intros Hr. unfold enumRegistry. rewrite fst_bind.
  apply enumRegistryKey_Forall, enumRegistryKey_Forall, Hr.
Qed.

Lemma enumConda_Forall (pResults : list RVersion) :
  Forall P pResults -> Forall P (enumConda h pResults).
Proof.
  unfold enumConda. cbv zeta. apply fold_left_invariant.
  intros results [pfxs pfxs2] Hres.
  assert (H1 : Forall P
    match environ h "CONDA_PREFIX" with
    | Some prefix =>
        versionsFromRHome h (QDir.make (prefix ++ pfxs)%string) results
    | None => results
    end).
  { destruct (environ h "CONDA_PREFIX");
      [apply versionsFromRHome_Forall, Hres | exact Hres]. }
  destruct (dirExists h _); [apply versionsFromRHome_Forall, H1 | exact H1].
Qed.

Lemma enumerated_Forall (versions : list RVersion) :
  Forall P versions -> Forall P (enumerated h versions).
Proof.
  intros Hv. unfold enumerated. cbv zeta.
  apply enumProgramFiles_Forall, enumRegistry_Forall.
  destruct (CONDA_BUILD h);
    [apply enumConda_Forall |]; apply versionsFromRHome_Forall, Hv.
Qed.
End Constructed.

Lemma fitsInt_newRVersion (h : Host) (path : string) :
  (forall p ms, fileVersionMS h p = Some ms -> 0 <= ms < 2147483648) ->
  fitsInt (newRVersion h path).
Proof.
  intros Hh. unfold fitsInt, newRVersion.
  destruct (negb (isEmpty_str path)); cbn [version]; [| lia].
  unfold getVersion.
  destruct (negb (fileExists h _)); [lia |].
  destruct (fileVersionMS h _) as [ms |] eqn:E; [exact (Hh _ _ E) | lia].
Qed.

Lemma enumerated_fitsInt (h : Host) (versions : list RVersion) :
  versionsFitInt h versions -> Forall fitsInt (enumerated h versions).
Proof.
  intros [Hh Hv]. apply enumerated_Forall; [| exact Hv].
  intros path. apply fitsInt_newRVersion, Hh.
Qed.

(** ** [allRVersions]: what is removed as a duplicate *)

(** C8 at the failing input.  R_HOME names C:/R/bin, whose child bin
    holds a library; the registry lists an installation in C:/R/a; the
    list passed in holds the record of C:/R/bin/BIN, the same directory
    named in capitals.  The three records are valid and 64-bit.  Those of
    C:/R/bin/BIN and C:/R/bin/bin are equal for [operator==], yet their
    home directories differ, the record of C:/R/a/bin sorts between them,
    the loop compares neighbours only, and [allRVersions] returns both.
    Without the installation in C:/R/a the two are neighbours and the
    second is removed. *)
Theorem allRVersions_leaves_duplicate :
  let h := Example.nestedMachine in
  let upper := newRVersion h "C:/R/bin/BIN" in
  let lower := newRVersion h "C:/R/bin/bin" in
  let other := newRVersion h "C:/R/a/bin" in
  upper = mkRVersion "C:/R/bin/BIN" "C:/R" 196659 ArchX64
  /\ lower = mkRVersion "C:/R/bin/bin" "C:/R/bin" 196659 ArchX64
  /\ other = mkRVersion "C:/R/a/bin" "C:/R/a" 196659 ArchX64
  /\ equals upper lower = true
  /\ equals lower upper = true
  /\ compareTo upper lower = -1
  /\ enumerated h [upper] = [upper; lower; other]
  /\ qSort (removeInvalid h (enumerated h [upper])) = [upper; other; lower]
  /\ fst (allRVersions h [upper]) = [upper; other; lower]
  /\ fst (allRVersions Example.nestedAlone [upper]) = [upper].
Proof.
  cbv zeta.
  assert (Eu : newRVersion Example.nestedMachine "C:/R/bin/BIN"
               = mkRVersion "C:/R/bin/BIN" "C:/R" 196659 ArchX64)
    by (vm_compute; reflexivity).
  assert (El : newRVersion Example.nestedMachine "C:/R/bin/bin"
               = mkRVersion "C:/R/bin/bin" "C:/R/bin" 196659 ArchX64)
    by (vm_compute; reflexivity).
  assert (Eo : newRVersion Example.nestedMachine "C:/R/a/bin"
               = mkRVersion "C:/R/a/bin" "C:/R/a" 196659 ArchX64)
    by (vm_compute; reflexivity).
  rewrite Eu, El, Eo.
  repeat split; vm_compute; reflexivity.
Qed.

(** X22. What the de-duplication does achieve.  It is idempotent; it
    collapses each run of neighbouring records whose [binDir] are equal
    when case is ignored to the first record of the run, so that no two
    neighbours of the de-duplicated list are equal.  When no packed
    version has its top bit set, the result of [allRVersions] is strictly
    ordered by the comparator: of candidates that [compareTo] does not
    tell apart one stays. *)
Theorem allRVersions_deduplicated :
  (forall l, deduplicate (deduplicate l) = deduplicate l)
  /\ (forall x l, deduplicate (x :: l) = x :: deduplicate (skipEqual x l))
  /\ (forall l front a b back,
         deduplicate l = front ++ a :: b :: back -> equals b a = false)
  /\ (forall h versions,
         versionsFitInt h versions ->
         StronglySorted sortsBefore (fst (allRVersions h versions))).
Proof.
  split; [exact deduplicate_idempotent | split; [| split]].
  - intros x l. cbn [deduplicate]. rewrite dedupFrom_skipEqual. reflexivity.
  - intros [| x t] front a b back; cbn [deduplicate].
    + destruct front; discriminate.
    + apply dedupFrom_neighbours.
  - intros h versions Hfit. rewrite allRVersions_value.
    apply sortedCandidates_strict, enumerated_fitsInt, Hfit.
Qed.

Lemma allRVersions_deduplicated_witness :
  StronglySorted sortsBefore
    (fst (allRVersions Example.nestedMachine
            [newRVersion Example.nestedMachine "C:/R/bin/BIN"])).
Proof.
  apply (proj2 (proj2 (proj2 allRVersions_deduplicated))).
  split.
  - intros path ms. cbn [fileVersionMS Example.nestedMachine Example.machine].
    destruct (Example.findFile "C:/" Example.nestedBin path) as [f |] eqn:E;
      [| discriminate].
    apply find_some in E. destruct E as [E _].
    cbn in E. destruct E as [E | [E | E]]; [| | contradiction];
      subst f; cbn [Example.versionMS]; intros Hms; injection Hms as Hms;
      lia.
  - constructor; [| constructor].
    assert (E : version (newRVersion Example.nestedMachine "C:/R/bin/BIN")
                = 196659) by (vm_compute; reflexivity).
    unfold fitsInt. rewrite E. lia.
Defined.

(** ** The comparator on large versions *)

(** C4 at the failing input: both records are valid, the first has the
    greater packed version (0x80050000 against 0x00040000), and yet
    [compareTo] is positive, [operator<] puts the second first and so does
    the sort. *)
Theorem compareTo_top_bit_sorts_last :
  let a := newRVersion Example.topBitMachine "C:/R/R-new/bin/x64" in
  let b := newRVersion Example.topBitMachine "C:/R/R-4.0.0/bin/x64" in
  isValid Example.topBitMachine a = true
  /\ isValid Example.topBitMachine b = true
  /\ version a = 2147811328 /\ version b = 262144
  /\ compareTo a b = 2147418112
  /\ lessThan a b = false /\ lessThan b a = true
  /\ qSort [a; b] = [b; a].
Proof. vm_compute. repeat split; reflexivity. Qed.

(** ** The enumerators on a source that is not there *)

Lemma enumRegistryKey_missing_key (h : Host) (arch : Architecture)
  (key : HKEY) (pResults : list RVersion) :
  (forall flags,
      regOpen h key "Software\R-core\R" flags
      = inl (mkError no_such_file_or_directory)) ->
  enumRegistryKey h arch key pResults = (pResults, []).
Proof.
  intros H. unfold enumRegistryKey.
  destruct arch; try reflexivity; rewrite H; reflexivity.
Qed.

Lemma enumRegistryKey_access_error (h : Host) (key : HKEY) (error : Error)
  (pResults : list RVersion) :
  code error <> no_such_file_or_directory ->
  regOpen h key "Software\R-core\R" (Z.lor KEY_READ KEY_WOW64_64KEY)
  = inl error ->
  enumRegistryKey h ArchX64 key pResults = (pResults, [error]).
Proof.
  intros Hc H. unfold enumRegistryKey. rewrite H.
  apply Z.eqb_neq in Hc. rewrite Hc. reflexivity.
Qed.

Lemma enumProgramFilesIn_missing (h : Host) (progFiles : string)
  (pResults : list RVersion) :
  dirExists h (QDir.make progFiles) = false
  \/ QDir.cd (dirExists h) (QDir.make progFiles) "R" = None ->
  enumProgramFilesIn h progFiles pResults = pResults.
Proof.
  intros [H | H]; unfold enumProgramFilesIn; cbv zeta; rewrite H.
  - rewrite andb_false_r. reflexivity.
  - destruct (_ && _); reflexivity.
Qed.

Lemma enumProgramFiles_unset (h : Host) (pResults : list RVersion) :
  environ h "ProgramFiles" = None ->
  environ h "ProgramW6432" = None ->
  environ h "ProgramFiles(x86)" = None ->
  enumProgramFiles h pResults = pResults.
Proof.
  intros H1 H2 H3. unfold enumProgramFiles, getenv.
  rewrite H1, H2, H3. reflexivity.
Qed.

Lemma versionsFromRHome_no_bin (h : Host) (rHome : string)
  (pResults : list RVersion) :
  QDir.cd (dirExists h) rHome "bin" = None ->
  QDir.cd (dirExists h) rHome "bin/x64" = None ->
  versionsFromRHome h rHome pResults = pResults.
Proof.
  intros H1 H2. unfold versionsFromRHome. cbn [fold_left].
  rewrite H1, H2. reflexivity.
Qed.

(** C9 at the failing input: R_HOME is not set and the working directory is
    an installation of R.  The empty home directory is probed as the
    working directory, and the enumerator returns the record of its
    bin/x64 instead of an empty list; [allRVersions] passes it on. *)
Theorem versionsFromRHome_unset_R_HOME :
  let h := Example.startedInRHome in
  environ h "R_HOME" = None
  /\ getenv h "R_HOME" = ""
  /\ versionsFromRHome h (QDir.make (getenv h "R_HOME")) []
     = [mkRVersion "C:/R-3.5.1/bin/x64" "C:/R-3.5.1" 196659 ArchX64]
  /\ allRVersions h []
     = ([mkRVersion "C:/R-3.5.1/bin/x64" "C:/R-3.5.1" 196659 ArchX64], []).
Proof. vm_compute. repeat split; reflexivity. Qed.

(** ** [autoDetect] *)

Lemma arch_eqb_eq (a b : Architecture) : arch_eqb a b = true <-> a = b.
Proof. destruct a, b; cbn; split; congruence. Qed.

Lemma isValid_empty (h : Host) : isValid h (newRVersion h "") = false.
Proof. reflexivity. Qed.

(** What the registry lookup returns is a valid record of the architecture
    asked for, or the empty record. *)
Lemma detectPreferredFromRegistry_result (h : Host) (key : HKEY)
  (arch : Architecture) :
  let r := fst (detectPreferredFromRegistry h key arch) in
  r = newRVersion h "" \/ (isValid h r = true /\ architecture r = arch).
Proof.
  cbv zeta. unfold detectPreferredFromRegistry.
  assert (Hlookup : forall flags,
    let r := fst
      match regOpen h key "Software\R-core\R" (Z.lor KEY_READ flags) with
      | inl error =>
          if negb (code error =? no_such_file_or_directory)
          then LOG_ERROR error ;;; ret (newRVersion h "")
          else ret (newRVersion h "")
      | inr regKey =>
          match find (fun v => isValid h v && arch_eqb (architecture v) arch)
                  (versionsFromRHome h
                     (QDir.make (getStringValue regKey "InstallPath" "")) [])
          with
          | Some v => ret v
          | None => ret (newRVersion h "")
          end
      end in
    r = newRVersion h "" \/ (isValid h r = true /\ architecture r = arch)).
  { intros flags. cbv zeta.
    destruct (regOpen h key "Software\R-core\R" (Z.lor KEY_READ flags))
      as [error | regKey].
    - destruct (negb (code error =? no_such_file_or_directory)); left; reflexivity.
    - destruct (find _ _) as [v |] eqn:E; [| left; reflexivity].
      right. apply find_some in E. destruct E as [_ E].
      apply andb_true_iff in E. destruct E as [Ev Ea].
      apply arch_eqb_eq in Ea. cbn [ret fst]. auto. }
  destruct arch; try (left; reflexivity); apply Hlookup.
Qed.

Lemma autoDetect_equation (h : Host) (arch : Architecture)
  (preferredOnly : bool) :
  CONDA_BUILD h = false ->
  let user := detectPreferredFromRegistry h HKEY_CURRENT_USER arch in
  let machine := detectPreferredFromRegistry h HKEY_LOCAL_MACHINE arch in
  let scan := allRVersions h [] in
  autoDetect h arch preferredOnly
  = if isValid h (fst user) then (fst user, snd user)
    else if isValid h (fst machine)
    then (fst machine, snd user ++ snd machine)
    else if preferredOnly
    then (newRVersion h "", snd user ++ snd machine)
    else (match find (fun v => arch_eqb (architecture v) arch) (fst scan) with
          | Some v => v
          | None => newRVersion h ""
          end,
          snd user ++ snd machine ++ snd scan).
Proof.
  intros Hbuild. cbv zeta. unfold autoDetect. rewrite Hbuild. cbn [negb].
  unfold bind, ret.
  destruct (detectPreferredFromRegistry h HKEY_CURRENT_USER arch)
    as [user userLog].
  cbn [fst snd].
  destruct (isValid h user) eqn:Euser; cbn [negb].
  - rewrite Euser. rewrite !app_nil_r. reflexivity.
  - destruct (detectPreferredFromRegistry h HKEY_LOCAL_MACHINE arch)
      as [machine machineLog].
    cbn [fst snd].
    destruct (isValid h machine) eqn:Emachine.
    + rewrite !app_nil_r. reflexivity.
    + destruct preferredOnly.
      * rewrite !app_nil_r. reflexivity.
      * destruct (allRVersions h []) as [versions scanLog].
        cbn [fst snd].
        destruct (find _ versions); rewrite !app_nil_r; reflexivity.
Qed.

(** C3. In a build without CONDA_BUILD, [autoDetect] looks the preferred
    version up in the registry, under the current user and then under the
    machine, and returns the first of the two that is valid; nothing of the
    scan is run then, and its errors are not logged.  With no valid
    registry hit it returns the empty record if [preferredOnly], and
    otherwise the first record of [allRVersions()] whose architecture is
    the one asked for, or the empty record if there is none.  What it
    returns is a valid record of the architecture asked for, or the empty
    record. *)
Theorem autoDetect_registry_first (h : Host) (arch : Architecture)
  (preferredOnly : bool) :
  CONDA_BUILD h = false ->
  let user := detectPreferredFromRegistry h HKEY_CURRENT_USER arch in
  let machine := detectPreferredFromRegistry h HKEY_LOCAL_MACHINE arch in
  let scan := allRVersions h [] in
  autoDetect h arch preferredOnly
  = (if isValid h (fst user) then (fst user, snd user)
     else if isValid h (fst machine)
     then (fst machine, snd user ++ snd machine)
     else if preferredOnly
     then (newRVersion h "", snd user ++ snd machine)
     else (match find (fun v => arch_eqb (architecture v) arch) (fst scan) with
           | Some v => v
           | None => newRVersion h ""
           end,
           snd user ++ snd machine ++ snd scan))
  /\ (fst (autoDetect h arch preferredOnly) = newRVersion h ""
      \/ (isValid h (fst (autoDetect h arch preferredOnly)) = true
          /\ architecture (fst (autoDetect h arch preferredOnly)) = arch)).
Proof.
  intros Hbuild. cbv zeta.
  split; [exact (autoDetect_equation h arch preferredOnly Hbuild) |].
  rewrite (autoDetect_equation h arch preferredOnly Hbuild). cbv zeta.
  pose proof (detectPreferredFromRegistry_result h HKEY_CURRENT_USER arch)
    as Huser.
  pose proof (detectPreferredFromRegistry_result h HKEY_LOCAL_MACHINE arch)
    as Hmachine.
  cbv zeta in Huser, Hmachine.
  destruct (isValid h (fst (detectPreferredFromRegistry h HKEY_CURRENT_USER arch)))
    eqn:Eu.
  - cbn [fst]. destruct Huser as [Huser | [_ Huser]];
      [left; exact Huser | right; split; [exact Eu | exact Huser]].
  - destruct (isValid h (fst (detectPreferredFromRegistry h HKEY_LOCAL_MACHINE arch)))
      eqn:Em.
    + cbn [fst]. destruct Hmachine as [Hmachine | [_ Hmachine]];
        [left; exact Hmachine | right; split; [exact Em | exact Hmachine]].
    + destruct preferredOnly; cbn [fst]; [left; reflexivity |].
      destruct (find _ _) as [v |] eqn:E; [| left; reflexivity].
      right. apply find_some in E. destruct E as [Hin Ha].
      rewrite allRVersions_value in Hin.
      apply In_sortedCandidates in Hin.
      apply arch_eqb_eq in Ha. tauto.
Qed.

Lemma autoDetect_registry_first_witness :
  autoDetect Example.registryMachine ArchX64 true
  = (mkRVersion "C:/R-3.5.1/bin/x64" "C:/R-3.5.1" 196659 ArchX64, []).
Proof.
  destruct (autoDetect_registry_first Example.registryMachine ArchX64 true
              eq_refl) as [E _].
  rewrite E. vm_compute. reflexivity.
Defined.

(** ** [detectRVersion] *)

Lemma currentChoice_rBinDir (h : Host) (d d' : Desktop) :
  rBinDir d' = rBinDir d -> currentChoice h d' = currentChoice h d.
Proof. intros H. unfold currentChoice. rewrite H. reflexivity. Qed.

Lemma currentChoice_chosen (h : Host) (d : Desktop) :
  isEmpty (newRVersion h (rBinDir d)) = false ->
  architecture (newRVersion h (rBinDir d)) = ArchX64 ->
  currentChoice h d = newRVersion h (rBinDir d).
Proof. intros He Ha. unfold currentChoice. rewrite He, Ha. reflexivity. Qed.

Lemma currentChoice_none (h : Host) (d : Desktop) :
  isEmpty (newRVersion h (rBinDir d)) = true
  \/ architecture (newRVersion h (rBinDir d)) <> ArchX64 ->
  currentChoice h d = newRVersion h "".
Proof.
  intros [He | Ha]; unfold currentChoice.
  - rewrite He. reflexivity.
  - destruct (architecture (newRVersion h (rBinDir d)));
      try (rewrite andb_false_r; reflexivity).
    contradiction.
Qed.

(** A record whose library is not on the disk has no architecture. *)
Lemma architecture_missing_library (h : Host) (path : string) :
  fileExists h (QDir.absoluteFilePath (currentPath h) (QDir.make path) "R.dll")
  = false ->
  architecture (newRVersion h path) = ArchNone.
Proof.
  intros H. unfold newRVersion.
  destruct (negb (isEmpty_str path)); cbn [architecture]; [| reflexivity].
  apply getArch_missing, H.
Qed.

Lemma withoutAsking_chosen (h : Host) (rVersion : RVersion) :
  isEmpty rVersion = false ->
  withoutAsking h false rVersion
  = (if isValid h rVersion then Some rVersion else None, []).
Proof. intros He. unfold withoutAsking. rewrite He. reflexivity. Qed.

Lemma withoutAsking_auto (h : Host) :
  withoutAsking h false (newRVersion h "")
  = (if isValid h (fst (autoDetectDefault h))
     then Some (fst (autoDetectDefault h)) else None,
     snd (autoDetectDefault h)).
Proof.
  unfold withoutAsking. cbn [negb isEmpty newRVersion isEmpty_str binDir].
  unfold bind, ret. destruct (autoDetectDefault h) as [a log].
  cbn [fst snd]. rewrite app_nil_r. reflexivity.
Qed.

Lemma recordLog_nil (d : Desktop) : recordLog [] d = d.
Proof.
  unfold recordLog. cbn [map]. rewrite app_nil_r. destruct d; reflexivity.
Qed.

(** The run of [detectRVersion] from the dialog on. *)
Lemma detectRVersion_asks (h : Host) (fuel : nat) (forceUi : bool)
  (d : Desktop) (log : list Error) :
  withoutAsking h forceUi (currentChoice h d) = (None, log) ->
  detectRVersion h (S fuel) forceUi d
  = let rVersion := currentChoice h d in
    let renderingEngine := desktopRenderingEngine d in
    let d1 :=
      record (DialogShown (offered h d) rVersion renderingEngine)
        (recordLog (snd (allRVersions h [rVersion]))
           (recordLog log (record (Entered forceUi) d))) in
    match chooseRHome h (offered h d) rVersion renderingEngine with
    | Some (chosen, engine) =>
        let d2 := setDesktopRenderingEngine engine
                    (setRBinDir (binDir chosen) d1) in
        if negb (String.eqb renderingEngine engine)
        then Some (newRVersion h "", record MessageBoxShown d2)
        else detectRVersion h fuel false d2
    | None => Some (newRVersion h "", d1)
    end.
Proof.
  intros H. cbn [detectRVersion]. cbv zeta.
  rewrite (currentChoice_rBinDir h d (record (Entered forceUi) d) eq_refl).
  rewrite H. unfold offered.
  destruct (allRVersions h [currentChoice h d]) as [versions scanLog].
  reflexivity.
Qed.

Lemma detectRVersion_found (h : Host) (fuel : nat) (forceUi : bool)
  (d : Desktop) (found : RVersion) (log : list Error) :
  withoutAsking h forceUi (currentChoice h d) = (Some found, log) ->
  detectRVersion h (S fuel) forceUi d
  = Some (found, recordLog log (record (Entered forceUi) d)).
Proof.
  intros H. cbn [detectRVersion]. cbv zeta.
  rewrite (currentChoice_rBinDir h d (record (Entered forceUi) d) eq_refl).
  rewrite H. reflexivity.
Qed.

Lemma count_record (p : Event -> bool) (e : Event) (d : Desktop) :
  count p (record e d) = (count p d + if p e then 1 else 0)%nat.
Proof.
  unfold count, record. cbn [events].
  rewrite filter_app, length_app. cbn [filter].
  destruct (p e); reflexivity.
Qed.

Lemma count_recordLog (p : Event -> bool) (log : list Error) (d : Desktop) :
  (forall e, p (ErrorLogged e) = false) ->
  count p (recordLog log d) = count p d.
Proof.
  intros Hp. unfold count, recordLog. cbn [events].
  rewrite filter_app, length_app.
  replace (filter p (map ErrorLogged log)) with (@nil Event); [cbn; lia |].
  induction log as [| e t IH]; cbn [map filter]; [reflexivity |].
  rewrite Hp. exact IH.
Qed.

(** C1, as stated, fails: the options name C:/R-2.15.3/bin/x64, a 64-bit
    R that is older than required, and the registry prefers a valid R
    3.5.1.  [detectRVersion(false)] does not run [autoDetect]; it shows the
    dialog, and with the dialog closed it returns the empty record. *)
Lemma detectRVersion_invalid_choice_asks :
  ~ (forall h d fuel result d',
        detectRVersion h (S fuel) false d = Some (result, d') ->
        let candidate := newRVersion h (rBinDir d) in
        if negb (isEmpty candidate)
           && arch_eqb (architecture candidate) ArchX64
           && isValid h candidate
        then result = candidate
        else isValid h (fst (autoDetectDefault h)) = true ->
             result = fst (autoDetectDefault h)).
Proof.
  intros H.
  pose proof (H Example.upgradedMachine
                (mkDesktop "C:/R-2.15.3/bin/x64" "auto" []) 0%nat) as H0.
  destruct (detectRVersion Example.upgradedMachine 1 false
              (mkDesktop "C:/R-2.15.3/bin/x64" "auto" []))
    as [[result d'] |] eqn:E.
  - specialize (H0 result d' eq_refl).
    vm_compute in E. injection E as <- <-.
    vm_compute in H0. specialize (H0 eq_refl). discriminate.
  - vm_compute in E. discriminate.
Qed.

(** C1, amended.  In a call with [forceUi] false, let the candidate be the
    record of the path that the options name.  If it is non-empty, 64-bit
    and valid, it is returned at once.  If it is empty or not 64-bit, as is
    the candidate of a path whose library is gone, [autoDetect] (not
    preferred-only) is run and its result is returned if valid; no dialog
    is shown in either case and the options stay as they are.  If it is
    non-empty and 64-bit but not valid, the dialog is shown without
    [autoDetect] having run. *)
Theorem detectRVersion_unforced (h : Host) (d : Desktop) (fuel : nat) :
  let candidate := newRVersion h (rBinDir d) in
  let library :=
    QDir.absoluteFilePath (currentPath h) (QDir.make (rBinDir d)) "R.dll" in
  (isEmpty candidate = false ->
   architecture candidate = ArchX64 ->
   isValid h candidate = true ->
   detectRVersion h (S fuel) false d
   = Some (candidate,
           mkDesktop (rBinDir d) (desktopRenderingEngine d)
                     (events d ++ [Entered false])))
  /\ (isEmpty candidate = true
      \/ architecture candidate <> ArchX64
      \/ fileExists h library = false ->
      isValid h (fst (autoDetectDefault h)) = true ->
      detectRVersion h (S fuel) false d
      = Some (fst (autoDetectDefault h),
              mkDesktop (rBinDir d) (desktopRenderingEngine d)
                        ((events d ++ [Entered false])
                         ++ map ErrorLogged (snd (autoDetectDefault h)))))
  /\ (isEmpty candidate = false ->
      architecture candidate = ArchX64 ->
      isValid h candidate = false ->
      chooseRHome h (offered h d) candidate (desktopRenderingEngine d) = None ->
      detectRVersion h (S fuel) false d
      = Some (newRVersion h "",
              mkDesktop (rBinDir d) (desktopRenderingEngine d)
                        (((events d ++ [Entered false])
                          ++ map ErrorLogged (snd (allRVersions h [candidate])))
                         ++ [DialogShown (offered h d) candidate
                                         (desktopRenderingEngine d)]))).
Proof.
  cbv zeta. split; [| split].
  - intros He Ha Hv.
    rewrite (detectRVersion_found h fuel false d (newRVersion h (rBinDir d)) []).
    + rewrite recordLog_nil. reflexivity.
    + rewrite (currentChoice_chosen h d He Ha).
      rewrite (withoutAsking_chosen h _ He), Hv. reflexivity.
  - intros Hc Hv.
    assert (Hnone : currentChoice h d = newRVersion h "").
    { apply currentChoice_none.
      destruct Hc as [Hc | [Hc | Hc]]; [left; exact Hc | right; exact Hc |].
      right. rewrite (architecture_missing_library h (rBinDir d) Hc).
      discriminate. }
    rewrite (detectRVersion_found h fuel false d (fst (autoDetectDefault h))
               (snd (autoDetectDefault h))).
    + reflexivity.
    + rewrite Hnone, withoutAsking_auto, Hv. reflexivity.
  - intros He Ha Hv Hno.
    pose proof (currentChoice_chosen h d He Ha) as Hcur.
    rewrite (detectRVersion_asks h fuel false d []).
    + cbv zeta. rewrite Hcur, Hno, recordLog_nil. reflexivity.
    + rewrite Hcur, (withoutAsking_chosen h _ He), Hv. reflexivity.
Qed.

Lemma detectRVersion_unforced_witness :
  detectRVersion Example.upgradedMachine 1 false
    (mkDesktop "C:/R-3.4.4/bin/x64" "auto" [])
  = Some (mkRVersion "C:/R-3.5.1/bin/x64" "C:/R-3.5.1" 196659 ArchX64,
          mkDesktop "C:/R-3.4.4/bin/x64" "auto" [Entered false]).
Proof.
  pose proof (proj1 (proj2 (detectRVersion_unforced Example.upgradedMachine
                              (mkDesktop "C:/R-3.4.4/bin/x64" "auto" []) 0)))
    as H.
  cbv zeta in H. rewrite H.
  - vm_compute. reflexivity.
  - right. right. vm_compute. reflexivity.
  - vm_compute. reflexivity.
Defined.

(** The second pass: with the options naming a usable choice, an unforced
    call returns a valid version without showing the dialog. *)
Lemma detectRVersion_usable (h : Host) (fuel : nat) (d : Desktop) :
  usable h (rBinDir d) ->
  exists log,
    detectRVersion h (S fuel) false d
    = Some (if isEmpty_str (rBinDir d)
            then fst (autoDetectDefault h)
            else newRVersion h (rBinDir d),
            recordLog log (record (Entered false) d))
    /\ isValid h (if isEmpty_str (rBinDir d)
                  then fst (autoDetectDefault h)
                  else newRVersion h (rBinDir d)) = true.
Proof.
  unfold usable. intros Hu.
  destruct (isEmpty_str (rBinDir d)) eqn:He.
  - exists (snd (autoDetectDefault h)). split; [| exact Hu].
    apply detectRVersion_found.
    rewrite currentChoice_none.
    + rewrite withoutAsking_auto, Hu. reflexivity.
    + left. unfold isEmpty. rewrite binDir_newRVersion. exact He.
  - destruct Hu as [Ha Hv]. exists []. split; [| exact Hv].
    assert (He' : isEmpty (newRVersion h (rBinDir d)) = false)
      by (unfold isEmpty; rewrite binDir_newRVersion; exact He).
    apply detectRVersion_found.
    rewrite (currentChoice_chosen h d He' Ha).
    rewrite (withoutAsking_chosen h _ He'), Hv. reflexivity.
Qed.

(** C2. When [detectRVersion] gets to the dialog and the dialog, which
    accepts only usable selections, is accepted with a version and a
    rendering engine: both are written to the options; the dialog is shown
    once; if the engine differs from the one in the options before, the
    message box is shown, the empty record is returned and the function is
    not entered again; otherwise it is entered exactly once more, no
    message box is shown, and the version returned is valid: the record of
    the chosen path, or what [autoDetect] finds when the chosen path is
    empty.  Two units of fuel are enough for the run. *)
Theorem detectRVersion_accepted (h : Host) (d : Desktop) (forceUi : bool)
  (fuel : nat) (chosen : RVersion) (engine : string) :
  acceptsOnlyUsable h ->
  fst (withoutAsking h forceUi (currentChoice h d)) = None ->
  chooseRHome h (offered h d) (currentChoice h d) (desktopRenderingEngine d)
  = Some (chosen, engine) ->
  exists result d',
    detectRVersion h (S (S fuel)) forceUi d = Some (result, d')
    /\ rBinDir d' = binDir chosen
    /\ desktopRenderingEngine d' = engine
    /\ count isDialogShown d' = S (count isDialogShown d)
    /\ (engine <> desktopRenderingEngine d ->
        result = newRVersion h ""
        /\ count isEntered d' = S (count isEntered d)
        /\ count isMessageBoxShown d' = S (count isMessageBoxShown d))
    /\ (engine = desktopRenderingEngine d ->
        count isEntered d' = S (S (count isEntered d))
        /\ count isMessageBoxShown d' = count isMessageBoxShown d
        /\ result = (if isEmpty_str (binDir chosen)
                     then fst (autoDetectDefault h)
                     else newRVersion h (binDir chosen))
        /\ isValid h result = true).
Proof.
  intros Hcontract Hfirst Hchoose.
  destruct (withoutAsking h forceUi (currentChoice h d)) as [found log] eqn:Ew.
  cbn [fst] in Hfirst. subst found.
  rewrite (detectRVersion_asks h (S fuel) forceUi d log Ew).
  cbv zeta. rewrite Hchoose.
  set (d1 := record _ (recordLog _ (recordLog log (record (Entered forceUi) d)))).
  set (d2 := setDesktopRenderingEngine engine (setRBinDir (binDir chosen) d1)).
  assert (Cd : count isDialogShown d2 = S (count isDialogShown d)).
  { unfold d2, d1. unfold count at 1. cbn [setDesktopRenderingEngine setRBinDir events].
    fold (count isDialogShown
            (record (DialogShown (offered h d) (currentChoice h d)
                       (desktopRenderingEngine d))
               (recordLog (snd (allRVersions h [currentChoice h d]))
                  (recordLog log (record (Entered forceUi) d))))).
    rewrite count_record, !count_recordLog, count_record by reflexivity.
    cbn. lia. }
  assert (Ce : count isEntered d2 = S (count isEntered d)).
  { unfold d2, d1. unfold count at 1. cbn [setDesktopRenderingEngine setRBinDir events].
    fold (count isEntered
            (record (DialogShown (offered h d) (currentChoice h d)
                       (desktopRenderingEngine d))
               (recordLog (snd (allRVersions h [currentChoice h d]))
                  (recordLog log (record (Entered forceUi) d))))).
    rewrite count_record, !count_recordLog, count_record by reflexivity.
    cbn. lia. }
  assert (Cm : count isMessageBoxShown d2 = count isMessageBoxShown d).
  { unfold d2, d1. unfold count at 1. cbn [setDesktopRenderingEngine setRBinDir events].
    fold (count isMessageBoxShown
            (record (DialogShown (offered h d) (currentChoice h d)
                       (desktopRenderingEngine d))
               (recordLog (snd (allRVersions h [currentChoice h d]))
                  (recordLog log (record (Entered forceUi) d))))).
    rewrite count_record, !count_recordLog, count_record by reflexivity.
    cbn. lia. }
  destruct (String.eqb_spec (desktopRenderingEngine d) engine) as [Eeng | Eeng];
    cbn [negb].
  - (* the engine is the same: the second pass *)
    pose proof (Hcontract _ _ _ _ _ Hchoose) as Hu.
    destruct (detectRVersion_usable h fuel d2 Hu) as [log2 [Erun Hv]].
    change (rBinDir d2) with (binDir chosen) in Erun, Hv.
    eexists. eexists. split; [exact Erun |].
    split; [reflexivity |]. split; [reflexivity |].
    split; [rewrite count_recordLog, count_record, Cd by reflexivity;
            cbn; lia |].
    split; [intros Hne; congruence |].
    intros _.
    split; [rewrite count_recordLog, count_record, Ce by reflexivity;
            cbn; lia |].
    split; [rewrite count_recordLog, count_record, Cm by reflexivity;
            cbn; lia |].
    split; [reflexivity | exact Hv].
  - (* the engine changed: restart required *)
    eexists. eexists. split; [reflexivity |].
    split; [reflexivity |]. split; [reflexivity |].
    split; [rewrite count_record, Cd; cbn; lia |].
    split; [| intros He; congruence].
    intros _. split; [reflexivity |].
    split; rewrite count_record, ?Ce, ?Cm; cbn; lia.
Qed.

Lemma detectRVersion_accepted_witness :
  exists result d',
    detectRVersion Example.attendedMachine 2 true (mkDesktop "" "auto" [])
    = Some (result, d')
    /\ rBinDir d' = "C:/R-3.5.1/bin/x64"
    /\ count isDialogShown d' = 1%nat
    /\ count isEntered d' = 2%nat
    /\ isValid Example.attendedMachine result = true.
Proof.
  destruct (detectRVersion_accepted Example.attendedMachine
              (mkDesktop "" "auto" []) true 0
              (mkRVersion "C:/R-3.5.1/bin/x64" "C:/R-3.5.1" 196659 ArchX64)
              "auto")
    as [result [d' [Erun [Hbin [_ [Hshown [_ Hsame]]]]]]].
  - intros versions selected renderingEngine chosen engine Hpick.
    injection Hpick as <- _. vm_compute. split; reflexivity.
  - reflexivity.
  - reflexivity.
  - destruct (Hsame eq_refl) as [Hentered [_ [_ Hvalid]]].
    exists result, d'. repeat split; assumption.
Defined.

(** ** Further facts and checks *)

(** [getArch] on the libraries of the example installation. *)
Example getArch_x64_library :
  getArch Example.plainMachine "C:/R-3.5.1/bin/x64/R.dll" = ArchX64.
Proof. vm_compute. reflexivity. Qed.

Example getArch_i386_library :
  getArch Example.plainMachine "C:/R-3.5.1/bin/i386/R.dll" = ArchX86.
Proof. vm_compute. reflexivity. Qed.

Example getArch_no_library :
  getArch Example.plainMachine "C:/R-3.5.1/bin/R.dll" = ArchNone.
Proof. vm_compute. reflexivity. Qed.

(** With the enumerators numbered in the order of the specification's
    list, the architecture step of [compareTo] puts a record of unknown
    architecture before a 64-bit record of the same version and home. *)
Lemma compareTo_unknown_before_x64 (v : Z) (home b1 b2 : string) :
  compareTo (mkRVersion b1 home v ArchUnknown) (mkRVersion b2 home v ArchX64)
  = -1.
Proof.
  unfold compareTo. cbn [version homeDir architecture binDir].
  unfold int_sub at 1. rewrite Z.sub_diag.
  change (int_neg (to_int 0)) with 0. cbn [Z.eqb negb].
  unfold QString_compare_ci at 1 2.
  rewrite (cmp_refl compare_folded home). reflexivity.
Qed.

(** When an unforced call gets to the dialog. *)
Lemma withoutAsking_unforced_none (h : Host) (d : Desktop) :
  fst (withoutAsking h false (currentChoice h d)) = None
  <-> (if isEmpty (currentChoice h d)
       then isValid h (fst (autoDetectDefault h)) = false
       else isValid h (currentChoice h d) = false).
Proof.
  unfold withoutAsking. cbn [negb].
  destruct (isEmpty (currentChoice h d)) eqn:He; cbn [negb].
  - rewrite fst_bind. cbn [ret fst].
    destruct (isValid h (fst (autoDetectDefault h))); split; congruence.
  - cbn [ret fst]. destruct (isValid h (currentChoice h d)); split; congruence.
Qed.

Lemma withoutAsking_forced (h : Host) (rVersion : RVersion) :
  withoutAsking h true rVersion = (None, []).
Proof. reflexivity. Qed.

(* ================================================================== *)
(** * Part IV: further properties of the code                           *)
(* ================================================================== *)

(** ** Strings and path segments *)

Lemma append_assoc (a b c : string) :
  ((a ++ b) ++ c)%string = (a ++ (b ++ c))%string.
Proof. induction a as [| x a IH]; cbn; [reflexivity | rewrite IH; reflexivity]. Qed.

Lemma append_nil_r (a : string) : (a ++ "")%string = a.
Proof. induction a as [| x a IH]; cbn; [reflexivity | rewrite IH; reflexivity]. Qed.

Lemma isEmpty_str_append (a b : string) :
  isEmpty_str b = false -> isEmpty_str (a ++ b) = false.
Proof. destruct a; cbn; auto. Qed.

Lemma plain_cons (c : ascii) (s : string) :
  plain (String c s) = plainChar c && plain s.
Proof. reflexivity. Qed.

Lemma plainChar_not_slash (c : ascii) :
  plainChar c = true -> Ascii.eqb c QDir.slash = false.
Proof.
  unfold plainChar, QDir.slash. intros H. apply andb_true_iff in H.
  destruct H as [H _]. apply negb_true_iff in H. exact H.
Qed.

Lemma plainChar_not_backslash (c : ascii) :
  plainChar c = true -> Ascii.eqb c "\"%char = false.
Proof.
  unfold plainChar. intros H. apply andb_true_iff in H.
  destruct H as [_ H]. apply negb_true_iff in H. exact H.
Qed.

Lemma isLetter_plainChar (c : ascii) : QDir.isLetter c = true -> plainChar c = true.
Proof.
  destruct c as [b0 b1 b2 b3 b4 b5 b6 b7].
  destruct b0, b1, b2, b3, b4, b5, b6, b7; cbv; congruence.
Qed.

Lemma isSegment_plain (s : string) : isSegment s = true -> plain s = true.
Proof. unfold isSegment. intros H. apply andb_true_iff in H. tauto. Qed.

Lemma isSegment_named (s : string) :
  isSegment s = true ->
  isEmpty_str s = false /\ String.eqb s "." = false /\ String.eqb s ".." = false.
Proof.
  unfold isSegment. intros H.
  repeat (apply andb_true_iff in H; destruct H as [H ?]).
  repeat split; apply negb_true_iff; assumption.
Qed.

Lemma forallb_isSegment_plain (l : list string) :
  forallb isSegment l = true -> forallb plain l = true.
Proof.
  induction l as [| x t IH]; cbn; [reflexivity |].
  intros H. apply andb_true_iff in H. destruct H as [Hx Ht].
  rewrite (isSegment_plain x Hx), (IH Ht). reflexivity.
Qed.

(** *** Native separators *)

Lemma fromNativeSeparators_append (a b : string) :
  QDir.fromNativeSeparators (a ++ b)
  = (QDir.fromNativeSeparators a ++ QDir.fromNativeSeparators b)%string.
Proof. induction a as [| x a IH]; cbn; [reflexivity | rewrite IH; reflexivity]. Qed.

Lemma fromNativeSeparators_plain (s : string) :
  plain s = true -> QDir.fromNativeSeparators s = s.
Proof.
  induction s as [| c s IH]; [reflexivity |].
  rewrite plain_cons. intros H. apply andb_true_iff in H. destruct H as [Hc Hs].
  cbn [QDir.fromNativeSeparators].
  rewrite (plainChar_not_backslash c Hc), (IH Hs). reflexivity.
Qed.

Lemma fromNativeSeparators_concat (l : list string) :
  forallb plain l = true ->
  QDir.fromNativeSeparators (String.concat "/" l) = String.concat "/" l.
Proof.
  induction l as [| x t IH]; [reflexivity |].
  cbn [forallb]. intros H. apply andb_true_iff in H. destruct H as [Hx Ht].
  destruct t as [| y t].
  - apply fromNativeSeparators_plain, Hx.
  - change (String.concat "/" (x :: y :: t))
      with (x ++ "/" ++ String.concat "/" (y :: t))%string.
    rewrite !fromNativeSeparators_append, (fromNativeSeparators_plain x Hx).
    rewrite (IH Ht). reflexivity.
Qed.

Lemma fromNativeSeparators_drivePath (d : ascii) (l : list string) :
  QDir.isLetter d = true -> forallb plain l = true ->
  QDir.fromNativeSeparators (drivePath d l) = drivePath d l.
Proof.
  intros Hd Hl. unfold drivePath. cbn [QDir.fromNativeSeparators append].
  rewrite (plainChar_not_backslash d (isLetter_plainChar d Hd)).
  change (Ascii.eqb ":" "\") with false. change (Ascii.eqb "/" "\") with false.
  cbv iota. rewrite (fromNativeSeparators_concat l Hl). reflexivity.
Qed.

(** *** Splitting at slashes *)

Lemma split_plain (seg rest cur : string) :
  plain seg = true ->
  QDir.split (seg ++ rest) cur = QDir.split rest (cur ++ seg).
Proof.
  revert cur. induction seg as [| c seg IH]; intros cur H.
  - cbn. rewrite append_nil_r. reflexivity.
  - rewrite plain_cons in H. apply andb_true_iff in H. destruct H as [Hc Hs].
    cbn [append QDir.split]. rewrite (plainChar_not_slash c Hc).
    rewrite (IH _ Hs), append_assoc. reflexivity.
Qed.

Lemma split_concat (x : string) (xs : list string) (cur : string) :
  forallb plain (x :: xs) = true ->
  QDir.split (String.concat "/" (x :: xs)) cur = (cur ++ x)%string :: xs.
Proof.
  revert x cur. induction xs as [| y ys IH]; intros x cur H;
    cbn [forallb] in H; apply andb_true_iff in H; destruct H as [Hx Hxs].
  - cbn [String.concat]. rewrite <- (append_nil_r x) at 1.
    rewrite (split_plain x "" cur Hx). reflexivity.
  - change (String.concat "/" (x :: y :: ys))
      with (x ++ String "/" (String.concat "/" (y :: ys)))%string.
    rewrite (split_plain x _ cur Hx).
    cbn [QDir.split]. change (Ascii.eqb "/" QDir.slash) with true.
    cbv iota. rewrite (IH y "" Hxs). reflexivity.
Qed.

Lemma split_drivePath (d : ascii) (x : string) (xs : list string) :
  QDir.isLetter d = true -> forallb plain (x :: xs) = true ->
  QDir.split (drivePath d (x :: xs)) ""
  = String d (String ":" "") :: x :: xs.
Proof.
  intros Hd H. unfold drivePath. cbn [QDir.split append].
  rewrite (plainChar_not_slash d (isLetter_plainChar d Hd)).
  change (Ascii.eqb ":" QDir.slash) with false.
  change (Ascii.eqb "/" QDir.slash) with true. cbv iota.
  rewrite (split_concat x xs "" H). reflexivity.
Qed.

(** *** Normalising *)

Lemma pushSegment_named (rooted : bool) (stack : list string) (seg : string) :
  isSegment seg = true -> QDir.pushSegment rooted stack seg = seg :: stack.
Proof.
  intros H. destruct (isSegment_named seg H) as [H1 [H2 H3]].
  unfold QDir.pushSegment. rewrite H1, H2, H3. reflexivity.
Qed.

Lemma pushSegment_up (rooted : bool) (stack : list string) (top : string) :
  isSegment top = true ->
  QDir.pushSegment rooted (top :: stack) ".." = stack.
Proof.
  intros H. destruct (isSegment_named top H) as [_ [_ H3]].
  unfold QDir.pushSegment. cbn [isEmpty_str orb].
  change (String.eqb ".." ".") with false.
  change (String.eqb ".." "..") with true. cbv iota. rewrite H3. reflexivity.
Qed.

Lemma fold_pushSegment_named (rooted : bool) (l stack : list string) :
  forallb isSegment l = true ->
  fold_left (QDir.pushSegment rooted) l stack = rev l ++ stack.
Proof.
  revert stack. induction l as [| x t IH]; intros stack H; [reflexivity |].
  cbn [forallb] in H. apply andb_true_iff in H. destruct H as [Hx Ht].
  cbn [fold_left rev]. rewrite (pushSegment_named rooted stack x Hx), (IH _ Ht).
  rewrite <- app_assoc. reflexivity.
Qed.

(** [cleanPath] on a drive path whose pieces hold no separator normalises
    the pieces. *)
Lemma cleanPath_drivePath (d : ascii) (x : string) (xs : list string) :
  QDir.isLetter d = true -> forallb plain (x :: xs) = true ->
  QDir.cleanPath (drivePath d (x :: xs))
  = drivePath d (rev (fold_left (QDir.pushSegment true) (x :: xs) [])).
Proof.
  intros Hd H. unfold QDir.cleanPath.
  rewrite (fromNativeSeparators_drivePath d (x :: xs) Hd H).
  unfold drivePath at 1 2 3. rewrite Hd.
  change (Ascii.eqb ":" ":") with true. cbn [andb].
  change ("/" ++ String.concat "/" (x :: xs))%string
    with (String "/" (String.concat "/" (x :: xs))).
  cbv beta iota zeta.
  change (Ascii.eqb "/" QDir.slash) with true. cbv iota.
  cbn [QDir.split]. change (Ascii.eqb "/" QDir.slash) with true. cbv iota.
  rewrite (split_concat x xs "" H).
  cbn [fold_left append]. unfold QDir.pushSegment at 2.
  cbn [isEmpty_str orb]. reflexivity.
Qed.

Lemma cleanPath_drivePath_named (d : ascii) (x : string) (xs : list string) :
  QDir.isLetter d = true -> forallb isSegment (x :: xs) = true ->
  QDir.cleanPath (drivePath d (x :: xs)) = drivePath d (x :: xs).
Proof.
  intros Hd H.
  rewrite (cleanPath_drivePath d x xs Hd (forallb_isSegment_plain _ H)).
  rewrite (fold_pushSegment_named true (x :: xs) [] H).
  rewrite app_nil_r, rev_involutive. reflexivity.
Qed.

(** Going up from a named segment drops it. *)
Lemma cleanPath_drivePath_up (d : ascii) (l : list string) (x : string) :
  QDir.isLetter d = true -> forallb isSegment l = true -> isSegment x = true ->
  QDir.cleanPath (drivePath d (l ++ [x; ".."])) = drivePath d l.
Proof.
  intros Hd Hl Hx.
  assert (Hplain : forallb plain (l ++ [x; ".."]) = true).
  { rewrite forallb_app, (forallb_isSegment_plain l Hl). cbn.
    rewrite (isSegment_plain x Hx). reflexivity. }
  destruct (l ++ [x; ".."]) as [| y ys] eqn:E;
    [destruct l; discriminate |].
  rewrite (cleanPath_drivePath d y ys Hd Hplain), <- E.
  rewrite fold_left_app, (fold_pushSegment_named true l [] Hl).
  cbn [fold_left]. rewrite (pushSegment_named true _ x Hx).
  rewrite (pushSegment_up true _ x Hx).
  rewrite app_nil_r, rev_involutive. reflexivity.
Qed.

(** *** Paths as [QDir] holds them *)

Lemma endsWithSlash_append (a b : string) :
  isEmpty_str b = false ->
  QDir.endsWithSlash (a ++ b) = QDir.endsWithSlash b.
Proof.
  intros Hb. induction a as [| c a IH]; [reflexivity |].
  cbn [append QDir.endsWithSlash]. rewrite IH.
  destruct (a ++ b)%string eqn:E; [| reflexivity].
  pose proof (isEmpty_str_append a b Hb) as H. rewrite E in H. discriminate.
Qed.

Lemma endsWithSlash_plain (s : string) :
  plain s = true -> QDir.endsWithSlash s = false.
Proof.
  induction s as [| c s IH]; [reflexivity |].
  rewrite plain_cons. intros H. apply andb_true_iff in H. destruct H as [Hc Hs].
  cbn [QDir.endsWithSlash]. destruct s; [apply plainChar_not_slash, Hc |].
  apply IH, Hs.
Qed.

Lemma concat_named (x : string) (xs : list string) :
  forallb isSegment (x :: xs) = true ->
  isEmpty_str (String.concat "/" (x :: xs)) = false
  /\ QDir.endsWithSlash (String.concat "/" (x :: xs)) = false.
Proof.
  revert x. induction xs as [| y ys IH]; intros x H;
    cbn [forallb] in H; apply andb_true_iff in H; destruct H as [Hx Hxs].
  - cbn [String.concat]. split.
    + apply (isSegment_named x Hx).
    + apply endsWithSlash_plain, isSegment_plain, Hx.
  - change (String.concat "/" (x :: y :: ys))
      with (x ++ String "/" (String.concat "/" (y :: ys)))%string.
    destruct (IH y Hxs) as [He Hs]. split.
    + apply isEmpty_str_append. reflexivity.
    + rewrite endsWithSlash_append by reflexivity.
      cbn [QDir.endsWithSlash].
      destruct (String.concat "/" (y :: ys)); [discriminate | exact Hs].
Qed.

Lemma concat_snoc (l : list string) (x : string) :
  l <> [] ->
  String.concat "/" (l ++ [x])
  = (String.concat "/" l ++ String "/" x)%string.
Proof.
  induction l as [| y t IH]; [congruence |]. intros _.
  destruct t as [| z t].
  - reflexivity.
  - change (String.concat "/" ((y :: z :: t) ++ [x]))
      with (y ++ "/" ++ String.concat "/" ((z :: t) ++ [x]))%string.
    rewrite IH by discriminate.
    change (String.concat "/" (y :: z :: t))
      with (y ++ "/" ++ String.concat "/" (z :: t))%string.
    rewrite !append_assoc. reflexivity.
Qed.

Lemma drivePath_snoc (d : ascii) (l : list string) (x : string) :
  l <> [] ->
  drivePath d (l ++ [x]) = (drivePath d l ++ String "/" x)%string.
Proof.
  intros H. unfold drivePath. rewrite (concat_snoc l x H). reflexivity.
Qed.

Lemma endsWithSlash_drivePath (d : ascii) (x : string) (xs : list string) :
  forallb isSegment (x :: xs) = true ->
  QDir.endsWithSlash (drivePath d (x :: xs)) = false.
Proof.
  intros H. destruct (concat_named x xs H) as [He Hs].
  unfold drivePath.
  change (String d (String ":" ("/" ++ String.concat "/" (x :: xs))))%string
    with (String d (String ":" "/") ++ String.concat "/" (x :: xs))%string.
  rewrite endsWithSlash_append by exact He. exact Hs.
Qed.

Lemma make_drivePath (d : ascii) (x : string) (xs : list string) :
  QDir.isLetter d = true -> forallb isSegment (x :: xs) = true ->
  QDir.make (drivePath d (x :: xs)) = drivePath d (x :: xs)
  /\ QDir.setPath (drivePath d (x :: xs)) = drivePath d (x :: xs).
Proof.
  intros Hd H.
  assert (Hset : QDir.setPath (drivePath d (x :: xs)) = drivePath d (x :: xs)).
  { unfold QDir.setPath.
    rewrite (fromNativeSeparators_drivePath d _ Hd (forallb_isSegment_plain _ H)).
    rewrite (endsWithSlash_drivePath d x xs H). reflexivity. }
  split; [| exact Hset].
  unfold QDir.make. change (isEmpty_str (drivePath d (x :: xs))) with false.
  exact Hset.
Qed.

Lemma isAbsolute_drivePath (d : ascii) (l : list string) :
  QDir.isAbsolute (drivePath d l) = true.
Proof.
  unfold QDir.isAbsolute, QDir.isRelative, drivePath.
  change (Ascii.eqb ":" ":") with true. cbn [negb andb].
  rewrite andb_false_r. reflexivity.
Qed.

Lemma dirName_drivePath (d : ascii) (l : list string) (x : string) :
  QDir.isLetter d = true -> forallb plain (l ++ [x]) = true ->
  QDir.dirName (drivePath d (l ++ [x])) = x.
Proof.
  intros Hd H. unfold QDir.dirName.
  destruct (l ++ [x]) as [| y ys] eqn:E; [destruct l; discriminate |].
  rewrite (split_drivePath d y ys Hd H), <- E.
  change (String d (String ":" "") :: l ++ [x])
    with ((String d (String ":" "") :: l) ++ [x]).
  apply last_last.
Qed.

(** [filePath("..")] on a drive path that names a directory. *)
Lemma filePath_up (d : ascii) (x : string) (xs : list string) :
  forallb isSegment (x :: xs) = true ->
  QDir.filePath (drivePath d (x :: xs)) ".."
  = drivePath d ((x :: xs) ++ [".."]).
Proof.
  intros H. unfold QDir.filePath.
  change (QDir.isAbsolute "..") with false.
  change (isEmpty_str "..") with false.
  change (isEmpty_str (drivePath d (x :: xs))) with false.
  rewrite (endsWithSlash_drivePath d x xs H). cbn [orb]. cbv iota.
  rewrite drivePath_snoc by discriminate. reflexivity.
Qed.

(** The directory above a drive path with at least two segments. *)
Lemma upOne_drivePath (d : ascii) (l : list string) (x y : string) :
  QDir.isLetter d = true ->
  forallb isSegment (l ++ [x; y]) = true ->
  upOne (drivePath d (l ++ [x; y])) = drivePath d (l ++ [x]).
Proof.
  intros Hd H.
  assert (Hl : forallb isSegment (l ++ [x]) = true /\ isSegment y = true).
  { rewrite forallb_app in *. cbn in *.
    destruct (forallb isSegment l), (isSegment x), (isSegment y);
      cbn in *; auto. }
  destruct Hl as [Hl Hy].
  unfold upOne.
  destruct (l ++ [x; y]) as [| z zs] eqn:E; [destruct l; discriminate |].
  rewrite (filePath_up d z zs H), <- E.
  replace ((l ++ [x; y]) ++ [".."]) with ((l ++ [x]) ++ [y; ".."])
    by (rewrite <- !app_assoc; reflexivity).
  rewrite (cleanPath_drivePath_up d (l ++ [x]) y Hd Hl Hy).
  destruct (l ++ [x]) as [| w ws] eqn:E'; [destruct l; discriminate |].
  apply (make_drivePath d w ws Hd Hl).
Qed.

(** ** Home directories *)

Lemma isSegment_snoc (l : list string) (x : string) :
  forallb isSegment l = true -> isSegment x = true ->
  forallb isSegment (l ++ [x]) = true.
Proof. intros Hl Hx. rewrite forallb_app, Hl. cbn. rewrite Hx. reflexivity. Qed.

Lemma binDirToHomeDir_bin (d : ascii) (l : list string) :
  QDir.isLetter d = true -> forallb isSegment l = true ->
  binDirToHomeDir (drivePath d (l ++ ["bin"])) = drivePath d l.
Proof.
  intros Hd Hl.
  assert (H : forallb isSegment (l ++ ["bin"]) = true)
    by (apply isSegment_snoc; [exact Hl | reflexivity]).
  unfold binDirToHomeDir.
  change (isEmpty_str (drivePath d (l ++ ["bin"]))) with false. cbv iota.
  destruct (l ++ ["bin"]) as [| z zs] eqn:E; [destruct l; discriminate |].
  rewrite (proj1 (make_drivePath d z zs Hd H)), isAbsolute_drivePath.
  cbn [negb]. rewrite <- E.
  rewrite (dirName_drivePath d l "bin" Hd)
    by (apply forallb_isSegment_plain; rewrite E; exact H).
  change (String.eqb "bin" "bin") with true. cbn [negb].
  rewrite (dirName_drivePath d l "bin" Hd)
    by (apply forallb_isSegment_plain; rewrite E; exact H).
  change (String.eqb "bin" "bin") with true. cbv iota.
  rewrite E, (filePath_up d z zs H), <- E, <- app_assoc.
  apply (cleanPath_drivePath_up d l "bin" Hd Hl). reflexivity.
Qed.

Lemma binDirToHomeDir_below_bin (d : ascii) (l : list string) (sub : string) :
  QDir.isLetter d = true -> forallb isSegment l = true ->
  isSegment sub = true -> sub <> "bin" ->
  binDirToHomeDir (drivePath d (l ++ ["bin"; sub])) = drivePath d l.
Proof.
  intros Hd Hl Hsub Hne.
  assert (Hbin : forallb isSegment (l ++ ["bin"]) = true)
    by (apply isSegment_snoc; [exact Hl | reflexivity]).
  assert (H : forallb isSegment (l ++ ["bin"; sub]) = true).
  { replace (l ++ ["bin"; sub]) with ((l ++ ["bin"]) ++ [sub])
      by (rewrite <- app_assoc; reflexivity).
    apply isSegment_snoc; assumption. }
  unfold binDirToHomeDir.
  change (isEmpty_str (drivePath d (l ++ ["bin"; sub]))) with false. cbv iota.
  destruct (l ++ ["bin"; sub]) as [| z zs] eqn:E; [destruct l; discriminate |].
  rewrite (proj1 (make_drivePath d z zs Hd H)), isAbsolute_drivePath.
  cbn [negb]. rewrite <- E.
  assert (Hdir : QDir.dirName (drivePath d (l ++ ["bin"; sub])) = sub).
  { replace (l ++ ["bin"; sub]) with ((l ++ ["bin"]) ++ [sub])
      by (rewrite <- app_assoc; reflexivity).
    apply (dirName_drivePath d (l ++ ["bin"]) sub Hd).
    apply forallb_isSegment_plain. rewrite <- app_assoc. cbn [app].
    rewrite E. exact H. }
  rewrite !Hdir.
  apply String.eqb_neq in Hne. rewrite Hne. cbn [negb]. cbv iota.
  fold (upOne (drivePath d (l ++ ["bin"; sub]))).
  rewrite (upOne_drivePath d l "bin" sub Hd) by (rewrite E; exact H).
  rewrite (dirName_drivePath d l "bin" Hd)
    by (apply forallb_isSegment_plain; exact Hbin).
  change (String.eqb "bin" "bin") with true. cbv iota.
  destruct (l ++ ["bin"]) as [| w ws] eqn:E'; [destruct l; discriminate |].
  rewrite (filePath_up d w ws Hbin), <- E', <- app_assoc.
  apply (cleanPath_drivePath_up d l "bin" Hd Hl). reflexivity.
Qed.

(** X1. The home directory is found again from the [bin] directory below
    it and from an architecture directory below that: for a drive path
    [home] of named segments, [binDirToHomeDir] maps home/bin and
    home/bin/sub to [home], for every name [sub] other than "bin". *)
Theorem binDirToHomeDir_finds_home (d : ascii) (l : list string)
  (sub : string) :
  QDir.isLetter d = true ->
  forallb isSegment l = true ->
  isSegment sub = true ->
  sub <> "bin" ->
  binDirToHomeDir (drivePath d (l ++ ["bin"])) = drivePath d l
  /\ binDirToHomeDir (drivePath d (l ++ ["bin"; sub])) = drivePath d l.
Proof.
  intros Hd Hl Hsub Hne. split.
  - exact (binDirToHomeDir_bin d l Hd Hl).
  - exact (binDirToHomeDir_below_bin d l sub Hd Hl Hsub Hne).
Qed.

Lemma binDirToHomeDir_finds_home_witness :
  binDirToHomeDir "C:/Program Files/R/R-3.5.1/bin" = "C:/Program Files/R/R-3.5.1"
  /\ binDirToHomeDir "C:/Program Files/R/R-3.5.1/bin/x64"
     = "C:/Program Files/R/R-3.5.1".
Proof.
  exact (binDirToHomeDir_finds_home "C" ["Program Files"; "R"; "R-3.5.1"] "x64"
           eq_refl eq_refl eq_refl ltac:(discriminate)).
Defined.

(** ** [versionsFromRHome] on a drive path *)

Lemma isRoot_drivePath (d : ascii) (x : string) (xs : list string) :
  QDir.isLetter d = true -> forallb isSegment (x :: xs) = true ->
  QDir.isRoot (drivePath d (x :: xs)) = false.
Proof.
  intros Hd H. destruct (concat_named x xs H) as [He _].
  unfold QDir.isRoot, drivePath.
  change ("/" ++ String.concat "/" (x :: xs))%string
    with (String "/" (String.concat "/" (x :: xs))).
  destruct (String.concat "/" (x :: xs)) as [| c rest]; [discriminate |].
  cbn [String.eqb QDir.isDriveRoot].
  pose proof (plainChar_not_slash d (isLetter_plainChar d Hd)) as Hs.
  unfold QDir.slash in Hs. rewrite Hs. reflexivity.
Qed.

Lemma eqb_drivePath_dot (d : ascii) (l : list string) :
  String.eqb (drivePath d l) "." = false.
Proof.
  unfold drivePath. cbn [String.eqb]. destruct (Ascii.eqb d "."); reflexivity.
Qed.

Lemma cdPath_bin (d : ascii) (x : string) (xs : list string) :
  QDir.isLetter d = true -> forallb isSegment (x :: xs) = true ->
  QDir.cdPath (drivePath d (x :: xs)) "bin"
  = drivePath d ((x :: xs) ++ ["bin"]).
Proof.
  intros Hd H. unfold QDir.cdPath.
  change (QDir.isAbsolute "bin") with false. cbv iota.
  rewrite (isRoot_drivePath d x xs Hd H), eqb_drivePath_dot.
  change (existsb (Ascii.eqb QDir.slash) (list_ascii_of_string "bin")) with false.
  change (String.eqb "bin" "..") with false. cbn [orb]. cbv iota.
  rewrite drivePath_snoc by discriminate.
  rewrite append_assoc. reflexivity.
Qed.

Lemma cdPath_bin_x64 (d : ascii) (x : string) (xs : list string) :
  QDir.isLetter d = true -> forallb isSegment (x :: xs) = true ->
  QDir.cdPath (drivePath d (x :: xs)) "bin/x64"
  = drivePath d ((x :: xs) ++ ["bin"; "x64"]).
Proof.
  intros Hd H. unfold QDir.cdPath.
  change (QDir.isAbsolute "bin/x64") with false. cbv iota.
  rewrite (isRoot_drivePath d x xs Hd H).
  change (existsb (Ascii.eqb QDir.slash) (list_ascii_of_string "bin/x64"))
    with true.
  cbn [orb]. cbv iota.
  assert (Hall : forallb isSegment ((x :: xs) ++ ["bin"; "x64"]) = true).
  { rewrite forallb_app, H. reflexivity. }
  assert (E : ((drivePath d (x :: xs) ++ "/") ++ "bin/x64")%string
              = drivePath d ((x :: xs) ++ ["bin"; "x64"])).
  { replace ((x :: xs) ++ ["bin"; "x64"]) with (((x :: xs) ++ ["bin"]) ++ ["x64"])
      by (rewrite <- app_assoc; reflexivity).
    rewrite drivePath_snoc by (cbn; discriminate).
    rewrite drivePath_snoc by discriminate.
    rewrite !append_assoc. reflexivity. }
  rewrite E. cbn [app] in *.
  apply (cleanPath_drivePath_named d x (xs ++ ["bin"; "x64"]) Hd Hall).
Qed.

(** A probe of [versionsFromRHome] at a drive path that names a
    directory. *)
Lemma probe_drivePath (h : Host) (d : ascii) (x : string) (xs : list string) :
  QDir.isLetter d = true -> forallb isSegment (x :: xs) = true ->
  let dir := drivePath d (x :: xs) in
  QDir.setPath dir = dir
  /\ QDir.existsEntry (fileExists h) dir "R.dll"
     = fileExists h (dir ++ "/R.dll")%string
  /\ QDir.absolutePath (currentPath h) dir = dir.
Proof.
  intros Hd H. cbv zeta. split; [apply (make_drivePath d x xs Hd H) |]. split.
  - unfold QDir.existsEntry, QDir.filePath.
    change (isEmpty_str "R.dll") with false.
    change (QDir.isAbsolute "R.dll") with false.
    change (isEmpty_str (drivePath d (x :: xs))) with false.
    rewrite (endsWithSlash_drivePath d x xs H). reflexivity.
  - unfold QDir.absolutePath.
    pose proof (isAbsolute_drivePath d (x :: xs)) as Ha.
    unfold QDir.isAbsolute in Ha. apply negb_true_iff in Ha. rewrite Ha.
    apply (cleanPath_drivePath_named d x xs Hd H).
Qed.

Lemma versionsFromRHome_drivePath (h : Host) (d : ascii) (x : string)
  (xs : list string) (pResults : list RVersion) :
  QDir.isLetter d = true -> forallb isSegment (x :: xs) = true ->
  let bin := drivePath d ((x :: xs) ++ ["bin"]) in
  let x64 := drivePath d ((x :: xs) ++ ["bin"; "x64"]) in
  versionsFromRHome h (drivePath d (x :: xs)) pResults
  = pResults
    ++ (if hasLibrary h bin then [newRVersion h bin] else [])
    ++ (if hasLibrary h x64 then [newRVersion h x64] else []).
Proof.
  intros Hd H. cbv zeta.
  assert (Hbin : forallb isSegment ((x :: xs) ++ ["bin"]) = true)
    by (rewrite forallb_app, H; reflexivity).
  assert (Hx64 : forallb isSegment ((x :: xs) ++ ["bin"; "x64"]) = true)
    by (rewrite forallb_app, H; reflexivity).
  unfold versionsFromRHome, QDir.cd, hasLibrary. cbn [fold_left].
  change (isEmpty_str "bin") with false.
  change (isEmpty_str "bin/x64") with false.
  change (String.eqb "bin" ".") with false.
  change (String.eqb "bin/x64" ".") with false.
  cbn [orb]. cbv iota.
  rewrite (cdPath_bin d x xs Hd H), (cdPath_bin_x64 d x xs Hd H).
  cbn [app] in *.
  destruct (probe_drivePath h d x (xs ++ ["bin"]) Hd Hbin) as [S1 [X1 A1]].
  destruct (probe_drivePath h d x (xs ++ ["bin"; "x64"]) Hd Hx64) as [S2 [X2 A2]].
  cbv zeta in S1, X1, A1, S2, X2, A2.
  rewrite S1, S2.
  destruct (dirExists h (drivePath d (x :: xs ++ ["bin"])));
    destruct (dirExists h (drivePath d (x :: xs ++ ["bin"; "x64"])));
    cbn [andb]; cbv beta iota;
    rewrite ?X1, ?A1;
    destruct (fileExists h (drivePath d (x :: xs ++ ["bin"]) ++ "/R.dll"));
    cbv beta iota; rewrite ?X2, ?A2;
    destruct (fileExists h (drivePath d (x :: xs ++ ["bin"; "x64"]) ++ "/R.dll"));
    cbn [app]; rewrite ?app_nil_r, <- ?app_assoc; reflexivity.
Qed.

(** X2. For a home directory given as a drive path of named segments,
    [versionsFromRHome] appends to the list it was given, in this order,
    the record of home/bin and the record of home/bin/x64, each only if the
    directory exists and holds R.dll, and nothing else; the home directory
    of both records is the home directory that was probed. *)
Theorem versionsFromRHome_children (h : Host) (d : ascii) (x : string)
  (xs : list string) (pResults : list RVersion) :
  QDir.isLetter d = true ->
  forallb isSegment (x :: xs) = true ->
  let home := drivePath d (x :: xs) in
  let bin := drivePath d ((x :: xs) ++ ["bin"]) in
  let x64 := drivePath d ((x :: xs) ++ ["bin"; "x64"]) in
  versionsFromRHome h home pResults
  = pResults
    ++ (if hasLibrary h bin then [newRVersion h bin] else [])
    ++ (if hasLibrary h x64 then [newRVersion h x64] else [])
  /\ homeDir (newRVersion h bin) = home
  /\ homeDir (newRVersion h x64) = home.
Proof.
  intros Hd H. cbv zeta. split; [| split].
  - exact (versionsFromRHome_drivePath h d x xs pResults Hd H).
  - rewrite homeDir_newRVersion.
    apply (binDirToHomeDir_bin d (x :: xs) Hd H).
  - rewrite homeDir_newRVersion.
    apply (binDirToHomeDir_below_bin d (x :: xs) "x64" Hd H);
      [reflexivity | discriminate].
Qed.

Lemma versionsFromRHome_children_witness :
  versionsFromRHome Example.plainMachine "C:/R-3.5.1" []
  = [mkRVersion "C:/R-3.5.1/bin/x64" "C:/R-3.5.1" 196659 ArchX64].
Proof.
  destruct (versionsFromRHome_children Example.plainMachine "C" "R-3.5.1" [] []
              eq_refl eq_refl) as [E _].
  cbv zeta in E. change (drivePath "C" ["R-3.5.1"]) with "C:/R-3.5.1" in E.
  rewrite E. vm_compute. reflexivity.
Defined.

(** ** Validity of a candidate *)

Lemma newRVersion_drivePath (h : Host) (d : ascii) (x : string)
  (xs : list string) :
  QDir.isLetter d = true -> forallb isSegment (x :: xs) = true ->
  let dir := drivePath d (x :: xs) in
  newRVersion h dir
  = mkRVersion dir (binDirToHomeDir dir)
      (getVersion h (dir ++ "/R.dll")) (getArch h (dir ++ "/R.dll")).
Proof.
  intros Hd H. cbv zeta. unfold newRVersion.
  change (isEmpty_str (drivePath d (x :: xs))) with false. cbn [negb].
  rewrite (proj1 (make_drivePath d x xs Hd H)).
  unfold QDir.absoluteFilePath.
  change (QDir.isAbsolute "R.dll") with false.
  change (isEmpty_str "R.dll") with false. cbv iota.
  destruct (probe_drivePath h d x xs Hd H) as [_ [_ Ha]]. cbv zeta in Ha.
  rewrite Ha, (endsWithSlash_drivePath d x xs H). reflexivity.
Qed.

Lemma validate_drivePath (h : Host) (d : ascii) (x : string)
  (xs : list string) :
  QDir.isLetter d = true -> forallb isSegment (x :: xs) = true ->
  let dir := drivePath d (x :: xs) in
  isEmpty_str (binDirToHomeDir dir) = false ->
  validate h (newRVersion h dir)
  = if fileExists h (dir ++ "/R.dll")
    then if meetsMinimum h (libraryVersion h (dir ++ "/R.dll"))
         then ValidateSuccess else ValidateVersionTooOld
    else ValidateNotFound.
Proof.
  intros Hd H. cbv zeta. intros Hhome.
  rewrite (newRVersion_drivePath h d x xs Hd H).
  unfold validate, isEmpty. cbn [binDir homeDir version].
  change (isEmpty_str (drivePath d (x :: xs))) with false.
  rewrite Hhome. cbn [orb]. cbv iota.
  rewrite (proj1 (make_drivePath d x xs Hd H)).
  destruct (probe_drivePath h d x xs Hd H) as [_ [Hx _]]. cbv zeta in Hx.
  rewrite Hx.
  destruct (fileExists h (drivePath d (x :: xs) ++ "/R.dll")) eqn:Ef;
    cbn [negb]; [| reflexivity].
  unfold getVersion, meetsMinimum, libraryVersion. rewrite Ef. cbn [negb].
  destruct (confirmMinVersion _ _ _); reflexivity.
Qed.

(** X3. Whether a candidate is valid is decided by its library alone: for
    a directory [bin] below a home directory given as a drive path of named
    segments, and for a directory below that [bin], [validate] answers
    [ValidateNotFound] when the directory holds no R.dll,
    [ValidateVersionTooOld] when the packed file version of R.dll (0 if it
    has none) fails the minimum, and [ValidateSuccess] otherwise. *)
Theorem validate_candidate (h : Host) (d : ascii) (l : list string)
  (sub : string) :
  QDir.isLetter d = true ->
  forallb isSegment l = true ->
  isSegment sub = true ->
  sub <> "bin" ->
  let outcome (dir : string) :=
    if fileExists h (dir ++ "/R.dll")
    then if meetsMinimum h (libraryVersion h (dir ++ "/R.dll"))
         then ValidateSuccess else ValidateVersionTooOld
    else ValidateNotFound in
  validate h (newRVersion h (drivePath d (l ++ ["bin"])))
  = outcome (drivePath d (l ++ ["bin"]))
  /\ validate h (newRVersion h (drivePath d (l ++ ["bin"; sub])))
     = outcome (drivePath d (l ++ ["bin"; sub])).
Proof.
  intros Hd Hl Hsub Hne. cbv zeta.
  assert (Hbin : forallb isSegment (l ++ ["bin"]) = true)
    by (apply isSegment_snoc; [exact Hl | reflexivity]).
  assert (Hall : forallb isSegment (l ++ ["bin"; sub]) = true).
  { replace (l ++ ["bin"; sub]) with ((l ++ ["bin"]) ++ [sub])
      by (rewrite <- app_assoc; reflexivity).
    apply isSegment_snoc; assumption. }
  split.
  - pose proof (binDirToHomeDir_bin d l Hd Hl) as Hhome.
    destruct (l ++ ["bin"]) as [| z zs] eqn:E; [destruct l; discriminate |].
    apply (validate_drivePath h d z zs Hd Hbin). rewrite Hhome. reflexivity.
  - pose proof (binDirToHomeDir_below_bin d l sub Hd Hl Hsub Hne) as Hhome.
    destruct (l ++ ["bin"; sub]) as [| z zs] eqn:E; [destruct l; discriminate |].
    apply (validate_drivePath h d z zs Hd Hall). rewrite Hhome. reflexivity.
Qed.

Lemma validate_candidate_witness :
  validate Example.upgradedMachine
    (newRVersion Example.upgradedMachine "C:/R-2.15.3/bin/x64")
  = ValidateVersionTooOld.
Proof.
  destruct (validate_candidate Example.upgradedMachine "C" ["R-2.15.3"] "x64"
              eq_refl eq_refl eq_refl ltac:(discriminate)) as [_ E].
  cbv zeta in E.
  change (drivePath "C" (["R-2.15.3"] ++ ["bin"; "x64"]))
    with "C:/R-2.15.3/bin/x64" in E.
  rewrite E. vm_compute. reflexivity.
Defined.

(** ** The enumerators only append *)

Lemma cleanPath_not_empty (p : string) : isEmpty_str (QDir.cleanPath p) = false.
Proof.
  unfold QDir.cleanPath. cbv zeta.
  destruct (match QDir.fromNativeSeparators p with
            | String d (String c t) =>
                if QDir.isLetter d && Ascii.eqb c ":"
                then (String d (String c ""), t)
                else ("", QDir.fromNativeSeparators p)
            | _ => ("", QDir.fromNativeSeparators p)
            end) as [drive rest].
  match goal with
  | |- isEmpty_str (if isEmpty_str ?out then _ else _) = false =>
      destruct (isEmpty_str out) eqn:E; [reflexivity | exact E]
  end.
Qed.

Lemma probed_not_empty (h : Host) (r : RVersion) :
  probed h r -> isEmpty r = false.
Proof.
  intros [dir ->]. unfold isEmpty. rewrite binDir_newRVersion.
  apply cleanPath_not_empty.
Qed.

Section Appending.
Variable h : Host.
Variable seed : list RVersion.

Lemma extends_snoc (results : list RVersion) (dir : string) :
  extends h seed results ->
  extends h seed (results ++ [newRVersion h (QDir.absolutePath (currentPath h) dir)]).
Proof.
  intros [added [-> Hall]]. exists (added ++ [newRVersion h (QDir.absolutePath (currentPath h) dir)]).
  split; [rewrite app_assoc; reflexivity |].
  apply Forall_app. split; [exact Hall |].
  constructor; [exists dir; reflexivity | constructor].
Qed.

Lemma versionsFromRHome_extends (rHome : string) (pResults : list RVersion) :
  extends h seed pResults -> extends h seed (versionsFromRHome h rHome pResults).
Proof.
  unfold versionsFromRHome. apply fold_left_invariant.
  intros results d Hr.
  destruct (QDir.cd (dirExists h) rHome d) as [tmp |]; [| exact Hr].
  destruct (QDir.existsEntry (fileExists h) tmp "R.dll"); [| exact Hr].
  apply extends_snoc, Hr.
Qed.

Lemma enumProgramFilesIn_extends (progFiles : string)
  (pResults : list RVersion) :
  extends h seed pResults -> extends h seed (enumProgramFilesIn h progFiles pResults).
Proof.
  intros Hr. unfold enumProgramFilesIn. cbv zeta.
  destruct (QDir.isAbsolute (QDir.make progFiles)
            && dirExists h (QDir.make progFiles)); [| exact Hr].
  destruct (QDir.cd (dirExists h) (QDir.make progFiles) "R"); [| exact Hr].
  apply fold_left_invariant; [| exact Hr].
  intros results rDir. apply versionsFromRHome_extends.
Qed.

Lemma enumProgramFiles_extends (pResults : list RVersion) :
  extends h seed pResults -> extends h seed (enumProgramFiles h pResults).
Proof.
  unfold enumProgramFiles. cbv zeta. apply fold_left_invariant.
  intros results p. apply enumProgramFilesIn_extends.
Qed.

Lemma enumRegistryKey_extends (arch : Architecture) (key : HKEY)
  (pResults : list RVersion) :
  extends h seed pResults -> extends h seed (fst (enumRegistryKey h arch key pResults)).
Proof.
  intros Hr. unfold enumRegistryKey.
  destruct arch; try exact Hr;
    (destruct (regOpen h key "Software\R-core\R" _) as [error | regKey];
     [destruct (negb (code error =? no_such_file_or_directory)); exact Hr |];
     apply forEach_invariant; [| exact Hr];
     intros results name Hres;
     destruct (regOpen h (handle regKey) name _) as [error | verKey];
     [exact Hres |]; cbv zeta;
     destruct (negb (isEmpty_str (getStringValue verKey "InstallPath" "")));
     [| exact Hres];
     cbn [ret fst]; apply versionsFromRHome_extends, Hres).
Qed.

Lemma enumRegistry_extends (pResults : list RVersion) :
  extends h seed pResults -> extends h seed (fst (enumRegistry h pResults)).
Proof.
  intros Hr. unfold enumRegistry. rewrite fst_bind.
  apply enumRegistryKey_extends, enumRegistryKey_extends, Hr.
Qed.

Lemma enumConda_extends (pResults : list RVersion) :
  extends h seed pResults -> extends h seed (enumConda h pResults).
Proof.
  unfold enumConda. cbv zeta. apply fold_left_invariant.
  intros results [pfxs pfxs2] Hres.
  assert (H1 : extends h seed
    match environ h "CONDA_PREFIX" with
    | Some prefix =>
        versionsFromRHome h (QDir.make (prefix ++ pfxs)%string) results
    | None => results
    end).
  { destruct (environ h "CONDA_PREFIX");
      [apply versionsFromRHome_extends, Hres | exact Hres]. }
  destruct (dirExists h _); [apply versionsFromRHome_extends, H1 | exact H1].
Qed.

Lemma enumerated_extends : extends h seed (enumerated h seed).
Proof.
  assert (H0 : extends h seed seed)
    by (exists []; split; [rewrite app_nil_r; reflexivity | constructor]).
  unfold enumerated. cbv zeta.
  apply enumProgramFiles_extends, enumRegistry_extends.
  destruct (CONDA_BUILD h);
    [apply enumConda_extends |]; apply versionsFromRHome_extends, H0.
Qed.
End Appending.

(** X4. The enumerators only append.  The list that [allRVersions] holds
    when the environment, the registry and the program files directories
    (and, under CONDA_BUILD, the conda locations) have been searched is the
    list passed in, unchanged and in front, followed by records that the
    constructor made from the absolute path of a directory that was
    probed; none of the records added is empty. *)
Theorem enumerators_append (h : Host) (versions : list RVersion) :
  exists added,
    enumerated h versions = versions ++ added
    /\ Forall (fun r => probed h r /\ isEmpty r = false) added.
Proof.
  destruct (enumerated_extends h versions) as [added [E Hall]].
  exists added. split; [exact E |].
  apply Forall_forall. intros r Hr. rewrite Forall_forall in Hall.
  split; [exact (Hall r Hr) | exact (probed_not_empty h r (Hall r Hr))].
Qed.

(** ** [allRVersions] loses no installation *)

Lemma equals_refl (a : RVersion) : equals a a = true.
Proof.
  unfold equals, QString_compare_ci.
  rewrite (cmp_refl compare_folded (binDir a)). reflexivity.
Qed.

(** Every record of a list is equal to one that de-duplication keeps. *)
Lemma dedupFrom_represents (l : list RVersion) (prev r : RVersion) :
  In r l ->
  equals r prev = true
  \/ exists r', In r' (dedupFrom prev l) /\ equals r r' = true.
Proof.
  revert prev. induction l as [| y t IH]; intros prev Hin; [contradiction |].
  cbn [dedupFrom]. destruct Hin as [-> | Hin].
  - destruct (equals r prev) eqn:E; [left; reflexivity |].
    right. exists r. split; [left; reflexivity | apply equals_refl].
  - destruct (equals y prev) eqn:E.
    + exact (IH prev Hin).
    + right. destruct (IH y Hin) as [Hy | [r' [Hr' He]]].
      * exists y. split; [left; reflexivity | exact Hy].
      * exists r'. split; [right; exact Hr' | exact He].
Qed.

Lemma deduplicate_represents (l : list RVersion) (r : RVersion) :
  In r l -> exists r', In r' (deduplicate l) /\ equals r r' = true.
Proof.
  destruct l as [| x t]; [contradiction |]. cbn [deduplicate].
  intros [-> | Hin].
  - exists r. split; [left; reflexivity | apply equals_refl].
  - destruct (dedupFrom_represents t x r Hin) as [Hx | [r' [Hr' He]]].
    + exists x. split; [left; reflexivity | exact Hx].
    + exists r'. split; [right; exact Hr' | exact He].
Qed.

(** X5. What [allRVersions] returns are valid 64-bit records of the list
    that the enumerators produced; and when records of that list that are
    equal for [operator==] have the same architecture, no valid 64-bit
    record of the list is lost: the result holds a record equal to it. *)
Theorem allRVersions_loses_no_installation (h : Host)
  (versions : list RVersion) :
  (forall r,
      In r (fst (allRVersions h versions)) ->
      In r (enumerated h versions)
      /\ isValid h r = true /\ architecture r = ArchX64)
  /\ ((forall a b,
          In a (enumerated h versions) -> In b (enumerated h versions) ->
          equals a b = true -> architecture a = architecture b) ->
      forall r,
        In r (enumerated h versions) ->
        isValid h r = true -> architecture r = ArchX64 ->
        exists r',
          In r' (fst (allRVersions h versions)) /\ equals r r' = true).
Proof.
  rewrite allRVersions_value. split.
  - intros r Hr. exact (In_sortedCandidates h r _ Hr).
  - intros Hsame r Hin Hv Ha.
    assert (Hkept : In r (qSort (removeInvalid h (enumerated h versions)))).
    { apply In_qSort. unfold removeInvalid. apply filter_In. split; assumption. }
    destruct (deduplicate_represents _ r Hkept) as [r' [Hr' He]].
    exists r'. split; [| exact He].
    unfold sortedCandidates, removeUnsupported. apply filter_In.
    split; [exact Hr' |].
    assert (Hin' : In r' (enumerated h versions)).
    { apply In_deduplicate in Hr'. apply (proj1 (In_qSort r' _)) in Hr'.
      unfold removeInvalid in Hr'. apply filter_In in Hr'. tauto. }
    rewrite <- (Hsame r r' Hin Hin' He), Ha. reflexivity.
Qed.

Lemma allRVersions_loses_no_installation_witness :
  exists r',
    In r' (fst (allRVersions Example.nestedMachine []))
    /\ equals (mkRVersion "C:/R/a/bin" "C:/R/a" 196659 ArchX64) r' = true.
Proof.
  assert (E : enumerated Example.nestedMachine []
              = [mkRVersion "C:/R/bin/bin" "C:/R/bin" 196659 ArchX64;
                 mkRVersion "C:/R/a/bin" "C:/R/a" 196659 ArchX64])
    by (vm_compute; reflexivity).
  apply (proj2 (allRVersions_loses_no_installation Example.nestedMachine [])).
  - rewrite E. intros a b Ha Hb _.
    destruct Ha as [<- | [<- | []]]; destruct Hb as [<- | [<- | []]]; reflexivity.
  - rewrite E. right. left. reflexivity.
  - vm_compute. reflexivity.
  - reflexivity.
Defined.

(** ** The comparator as an order *)

Lemma lessThan_false_specified (a b : RVersion) :
  fitsInt a -> fitsInt b ->
  lessThan a b = false <-> specifiedOrder a b <> Lt.
Proof.
  intros Ha Hb. rewrite <- (lessThan_specified a b Ha Hb).
  destruct (lessThan a b); split; congruence.
Qed.

Lemma specifiedOrder_version (a b : RVersion) :
  version b < version a -> specifiedOrder a b = Lt.
Proof.
  intros H. unfold specifiedOrder, lexi.
  apply Z.compare_lt_iff in H. rewrite H. reflexivity.
Qed.

(** X6. On records whose packed versions do not have the top bit set,
    [operator<] is a strict weak order: it is irreflexive, asymmetric and
    transitive, so is "neither is less"; records of which neither is less
    have [compareTo] zero; and a record with the greater version is less
    (sorts first) whatever the other fields are. *)
Theorem lessThan_strict_weak_order (a b c : RVersion) :
  fitsInt a -> fitsInt b -> fitsInt c ->
  lessThan a a = false
  /\ (lessThan a b = true -> lessThan b a = false)
  /\ (lessThan a b = true -> lessThan b c = true -> lessThan a c = true)
  /\ (lessThan a b = false -> lessThan b c = false -> lessThan a c = false)
  /\ (lessThan a b = false -> lessThan b a = false -> compareTo a b = 0)
  /\ (version b < version a -> lessThan a b = true).
Proof.
  intros Ha Hb Hc.
  repeat split.
  - apply (lessThan_false_specified a a Ha Ha).
    rewrite (cmp_refl specifiedOrder a). discriminate.
  - intros H. apply (lessThan_specified a b Ha Hb) in H.
    apply (lessThan_false_specified b a Hb Ha).
    rewrite (cmp_antisym specifiedOrder a b), H. discriminate.
  - intros H1 H2. apply (lessThan_specified a b Ha Hb) in H1.
    apply (lessThan_specified b c Hb Hc) in H2.
    apply (lessThan_specified a c Ha Hc).
    exact (cmp_trans specifiedOrder a b c H1 H2).
  - intros H1 H2. apply (lessThan_false_specified a b Ha Hb) in H1.
    apply (lessThan_false_specified b c Hb Hc) in H2.
    apply (lessThan_false_specified a c Ha Hc).
    intros H3.
    (* c is not after b, b is not after a: c is not after a *)
    assert (Hcb : specifiedOrder c b <> Gt)
      by (rewrite (cmp_antisym specifiedOrder b c);
          destruct (specifiedOrder b c); cbn; congruence).
    assert (Hba : specifiedOrder b a <> Gt)
      by (rewrite (cmp_antisym specifiedOrder a b);
          destruct (specifiedOrder a b); cbn; congruence).
    pose proof (cmp_le_trans specifiedOrder c b a Hcb Hba) as Hca.
    rewrite (cmp_antisym specifiedOrder a c), H3 in Hca. cbn in Hca. congruence.
  - intros H1 H2. apply (lessThan_false_specified a b Ha Hb) in H1.
    apply (lessThan_false_specified b a Hb Ha) in H2.
    rewrite (cmp_antisym specifiedOrder a b) in H2.
    apply Z.compare_eq. rewrite (compareTo_sign a b Ha Hb).
    destruct (specifiedOrder a b); cbn in H2; congruence.
  - intros H. apply (lessThan_specified a b Ha Hb).
    apply specifiedOrder_version, H.
Qed.

Lemma lessThan_strict_weak_order_witness :
  lessThan (mkRVersion "C:/R-3.5.1/bin/x64" "C:/R-3.5.1" 196659 ArchX64)
           (mkRVersion "C:/R-2.15.3/bin/x64" "C:/R-2.15.3" 131225 ArchX64)
  = true.
Proof.
  apply (lessThan_strict_weak_order
           (mkRVersion "C:/R-3.5.1/bin/x64" "C:/R-3.5.1" 196659 ArchX64)
           (mkRVersion "C:/R-2.15.3/bin/x64" "C:/R-2.15.3" 131225 ArchX64)
           (mkRVersion "C:/R-2.15.3/bin/x64" "C:/R-2.15.3" 131225 ArchX64));
    unfold fitsInt; cbn [version]; lia.
Defined.

(** X7. [operator==] is an equivalence relation on records, it looks at
    nothing but [binDir], and it holds of any two records for which
    [compareTo] is zero; [compareTo] of a record with itself is zero. *)
Theorem equals_equivalence :
  (forall a, equals a a = true)
  /\ (forall a b, equals a b = equals b a)
  /\ (forall a b c, equals a b = true -> equals b c = true -> equals a c = true)
  /\ (forall a b, binDir a = binDir b -> equals a b = true)
  /\ (forall a b, compareTo a b = 0 -> equals a b = true)
  /\ (forall a, compareTo a a = 0).
Proof.
  assert (Heq : forall a b,
             equals a b = true <-> compare_folded (binDir a) (binDir b) = Eq).
  { intros a b. unfold equals, QString_compare_ci.
    destruct (compare_folded (binDir a) (binDir b)); cbn; split; congruence. }
  assert (Hsym : forall a b, equals a b = equals b a).
  { intros a b. unfold equals, QString_compare_ci.
    rewrite (cmp_antisym compare_folded (binDir a) (binDir b)).
    destruct (compare_folded (binDir a) (binDir b)); reflexivity. }
  split; [exact equals_refl | split; [exact Hsym | split; [| split; [| split]]]].
  - intros a b c H1 H2. apply Heq in H1. apply Heq in H2. apply Heq.
    rewrite (cmp_eq_l compare_folded _ _ (binDir c) H1). exact H2.
  - intros a b H. apply Heq. rewrite H. apply (cmp_refl compare_folded).
  - intros a b H. rewrite Hsym. apply compareTo_0_equals, H.
  - intros a. unfold compareTo, int_sub. cbv zeta. rewrite !Z.sub_diag.
    change (int_neg (to_int 0)) with 0. cbn [Z.eqb negb].
    unfold QString_compare_ci.
    rewrite (cmp_refl compare_folded (homeDir a)).
    rewrite (cmp_refl compare_folded (binDir a)). reflexivity.
Qed.

Lemma equals_equivalence_witness :
  equals (mkRVersion "C:/R/BIN" "" 0 ArchNone)
         (mkRVersion "c:/r/bin" "c:/r" 196659 ArchX64) = true.
Proof.
  apply (proj1 (proj2 (proj2 equals_equivalence))
           (mkRVersion "C:/R/BIN" "" 0 ArchNone)
           (mkRVersion "C:/R/bin" "C:/R" 196659 ArchX64)
           (mkRVersion "c:/r/bin" "c:/r" 196659 ArchX64));
    vm_compute; reflexivity.
Defined.

(** ** The minimum version, again *)

Lemma HIWORD_div (v : Z) : 0 <= v < 4294967296 -> HIWORD v = v / 65536.
Proof.
  intros H. unfold HIWORD.
  rewrite Z.shiftr_div_pow2 by lia. change (2 ^ 16) with 65536.
  change 65535 with (Z.ones 16). rewrite Z.land_ones by lia.
  change (2 ^ 16) with 65536.
  apply Z.mod_small. split.
  - apply Z.div_pos; lia.
  - apply Z.div_lt_upper_bound; lia.
Qed.

Lemma LOWORD_mod (v : Z) : LOWORD v = v mod 65536.
Proof.
  unfold LOWORD. change 65535 with (Z.ones 16).
  rewrite Z.land_ones by lia. reflexivity.
Qed.

Lemma confirmMinVersion_true (v major minor : Z) :
  confirmMinVersion v major minor = true
  <-> major < HIWORD v \/ (HIWORD v = major /\ minor <= LOWORD v).
Proof.
  unfold confirmMinVersion. cbv zeta.
  destruct (Z.gtb_spec (HIWORD v) major) as [Hgt | Hle].
  - split; [left; lia | reflexivity].
  - destruct (Z.ltb_spec (HIWORD v) major) as [Hlt | Hge].
    + split; [discriminate | lia].
    + rewrite Z.geb_leb, Z.leb_le. split; [right; lia | intros [H | H]; lia].
Qed.

(** X8. [confirmMinVersion] is monotone: a packed version (a [DWORD]) that
    meets a minimum is met by every greater packed version as well, and a
    version that meets a minimum meets every minimum with the same major
    and a smaller minor, and every minimum with a smaller major. *)
Theorem confirmMinVersion_monotone (v v' major minor : Z) :
  0 <= v -> v <= v' -> v' < 4294967296 ->
  confirmMinVersion v major minor = true ->
  confirmMinVersion v' major minor = true
  /\ (forall minor', minor' <= minor ->
                     confirmMinVersion v major minor' = true)
  /\ (forall major' minor', major' < major ->
                            confirmMinVersion v major' minor' = true).
Proof.
  intros H0 Hle Hmax Hv.
  apply confirmMinVersion_true in Hv.
  rewrite (HIWORD_div v), LOWORD_mod in Hv by lia.
  split; [| split].
  - apply confirmMinVersion_true.
    rewrite (HIWORD_div v'), LOWORD_mod by lia.
    assert (Hdiv : v / 65536 <= v' / 65536) by (apply Z.div_le_mono; lia).
    pose proof (Z.div_mod v 65536 ltac:(lia)) as Ev.
    pose proof (Z.div_mod v' 65536 ltac:(lia)) as Ev'.
    pose proof (Z.mod_pos_bound v 65536 ltac:(lia)).
    pose proof (Z.mod_pos_bound v' 65536 ltac:(lia)).
    destruct Hv as [Hv | [Hv1 Hv2]]; [left; lia |].
    destruct (Z_lt_le_dec (v / 65536) (v' / 65536)) as [Hlt | Hge];
      [left; lia | right; lia].
  - intros minor' Hm. apply confirmMinVersion_true.
    rewrite (HIWORD_div v), LOWORD_mod by lia.
    destruct Hv as [Hv | [Hv1 Hv2]]; [left; lia | right; lia].
  - intros major' minor' Hm. apply confirmMinVersion_true.
    rewrite (HIWORD_div v) by lia. left.
    destruct Hv as [Hv | [Hv1 Hv2]]; lia.
Qed.

Lemma confirmMinVersion_monotone_witness :
  confirmMinVersion 262144 3 1 = true.
Proof.
  apply (confirmMinVersion_monotone 196659 262144 3 1);
    [lia | lia | lia | reflexivity].
Defined.

(** ** Libraries without a version *)

Lemma meetsMinimum_zero (h : Host) :
  1 <= RSTUDIO_R_MAJOR_VERSION_REQUIRED h -> meetsMinimum h 0 = false.
Proof.
  intros H. unfold meetsMinimum, confirmMinVersion. cbv zeta.
  change (HIWORD 0) with 0.
  destruct (Z.gtb_spec 0 (RSTUDIO_R_MAJOR_VERSION_REQUIRED h)); [lia |].
  destruct (Z.ltb_spec 0 (RSTUDIO_R_MAJOR_VERSION_REQUIRED h)); [reflexivity | lia].
Qed.

Lemma isValid_version_zero (h : Host) (r : RVersion) :
  1 <= RSTUDIO_R_MAJOR_VERSION_REQUIRED h ->
  version r = 0 -> isValid h r = false.
Proof.
  intros Hmajor Hv. unfold isValid, validate. rewrite Hv.
  fold (meetsMinimum h 0). rewrite (meetsMinimum_zero h Hmajor).
  destruct (isEmpty r || isEmpty_str (homeDir r)); [reflexivity |].
  destruct (negb (QDir.existsEntry _ _ _)); reflexivity.
Qed.

(** X9. In a build that requires a major version of at least 1, a record
    is never valid when its R.dll is missing or has no version resource
    that can be read: [getVersion] gives such a library the version 0. *)
Theorem no_version_never_valid (h : Host) (path : string) :
  1 <= RSTUDIO_R_MAJOR_VERSION_REQUIRED h ->
  let library :=
    QDir.absoluteFilePath (currentPath h) (QDir.make path) "R.dll" in
  fileExists h library = false \/ fileVersionMS h library = None ->
  version (newRVersion h path) = 0
  /\ isValid h (newRVersion h path) = false.
Proof.
  intros Hmajor. cbv zeta. intros Hlib.
  assert (Hv : version (newRVersion h path) = 0).
  { unfold newRVersion.
    destruct (negb (isEmpty_str path)); cbn [version]; [| reflexivity].
    unfold getVersion. destruct Hlib as [Hlib | Hlib]; rewrite Hlib.
    - reflexivity.
    - destruct (negb (fileExists h _)); reflexivity. }
  split; [exact Hv | exact (isValid_version_zero h _ Hmajor Hv)].
Qed.

Lemma no_version_never_valid_witness :
  isValid Example.stubMachine
    (newRVersion Example.stubMachine "C:/R/R-3.5.1/bin/x64") = false.
Proof.
  apply (no_version_never_valid Example.stubMachine "C:/R/R-3.5.1/bin/x64").
  - cbn. lia.
  - right. vm_compute. reflexivity.
Defined.

(** ** The registry *)

Lemma forEach_log_bound {A S : Type} (body : S -> A -> Logged S)
  (l : list A) (s : S) :
  (forall s a, (List.length (snd (body s a)) <= 1)%nat) ->
  (List.length (snd (forEach body l s)) <= List.length l)%nat.
Proof.
  intros Hb. revert s. induction l as [| a t IH]; intros s; cbn [forEach].
  - cbn. lia.
  - rewrite snd_bind, length_app. cbn [List.length].
    specialize (Hb s a). specialize (IH (fst (body s a))). lia.
Qed.

(** X10. [enumRegistry] for one view and one root key leaves the list it
    was given in front of what it returns and adds only probed records.
    For an architecture without a registry view it returns the list as it
    is and logs nothing.  When the key Software\R-core\R cannot be opened
    it returns the list as it is, logging nothing if the key does not
    exist and exactly the error otherwise.  When the key opens, at most one
    error per subkey is logged. *)
Theorem enumRegistryKey_outcomes (h : Host) (arch : Architecture) (key : HKEY)
  (pResults : list RVersion) :
  extends h pResults (fst (enumRegistryKey h arch key pResults))
  /\ (hasView arch = false ->
      enumRegistryKey h arch key pResults = (pResults, []))
  /\ (forall error,
         hasView arch = true ->
         regOpen h key "Software\R-core\R" (viewFlags arch) = inl error ->
         enumRegistryKey h arch key pResults = (pResults, logged error))
  /\ (forall regKey,
         hasView arch = true ->
         regOpen h key "Software\R-core\R" (viewFlags arch) = inr regKey ->
         (List.length (snd (enumRegistryKey h arch key pResults))
          <= List.length (keyNames regKey))%nat).
Proof.
  split; [| split; [| split]].
  - apply enumRegistryKey_extends.
    exists []. split; [rewrite app_nil_r; reflexivity | constructor].
  - destruct arch; cbn [hasView]; intros H; try discriminate; reflexivity.
  - intros error Hview Hopen. unfold enumRegistryKey, logged.
    destruct arch; cbn [hasView] in Hview; try discriminate;
      cbn [viewFlags] in Hopen; rewrite Hopen;
      destruct (code error =? no_such_file_or_directory); reflexivity.
  - intros regKey Hview Hopen. unfold enumRegistryKey.
    destruct arch; cbn [hasView] in Hview; try discriminate;
      cbn [viewFlags] in Hopen; rewrite Hopen;
      apply forEach_log_bound; intros results name;
      destruct (regOpen h (handle regKey) name _) as [error | verKey];
      try (cbn; lia);
      cbv zeta;
      destruct (negb (isEmpty_str (getStringValue verKey "InstallPath" "")));
      cbn; lia.
Qed.

Lemma enumRegistryKey_outcomes_witness :
  enumRegistryKey Example.plainMachine ArchX64 HKEY_LOCAL_MACHINE [] = ([], []).
Proof.
  apply (proj1 (proj2 (proj2 (enumRegistryKey_outcomes Example.plainMachine
                                ArchX64 HKEY_LOCAL_MACHINE [])))
           (mkError no_such_file_or_directory));
    reflexivity.
Defined.

(** X11. [detectPreferredFromRegistry] returns the empty record or a valid
    record of the architecture asked for.  For an architecture without a
    registry view it returns the empty record and logs nothing.  When the
    key Software\R-core\R cannot be opened it returns the empty record,
    logging nothing if the key does not exist and exactly the error
    otherwise; when the key opens nothing is logged. *)
Theorem detectPreferredFromRegistry_outcomes (h : Host) (key : HKEY)
  (arch : Architecture) :
  (fst (detectPreferredFromRegistry h key arch) = newRVersion h ""
   \/ (isValid h (fst (detectPreferredFromRegistry h key arch)) = true
       /\ architecture (fst (detectPreferredFromRegistry h key arch)) = arch))
  /\ (hasView arch = false ->
      detectPreferredFromRegistry h key arch = (newRVersion h "", []))
  /\ (forall error,
         hasView arch = true ->
         regOpen h key "Software\R-core\R" (viewFlags arch) = inl error ->
         detectPreferredFromRegistry h key arch
         = (newRVersion h "", logged error))
  /\ (forall regKey,
         hasView arch = true ->
         regOpen h key "Software\R-core\R" (viewFlags arch) = inr regKey ->
         snd (detectPreferredFromRegistry h key arch) = []).
Proof.
  split; [exact (detectPreferredFromRegistry_result h key arch) |].
  split; [| split].
  - destruct arch; cbn [hasView]; intros H; try discriminate; reflexivity.
  - intros error Hview Hopen. unfold detectPreferredFromRegistry, logged.
    destruct arch; cbn [hasView] in Hview; try discriminate;
      cbn [viewFlags] in Hopen; rewrite Hopen;
      destruct (code error =? no_such_file_or_directory); reflexivity.
  - intros regKey Hview Hopen. unfold detectPreferredFromRegistry.
    destruct arch; cbn [hasView] in Hview; try discriminate;
      cbn [viewFlags] in Hopen; rewrite Hopen;
      destruct (find _ _); reflexivity.
Qed.

Lemma detectPreferredFromRegistry_outcomes_witness :
  detectPreferredFromRegistry Example.registryMachine HKEY_LOCAL_MACHINE ArchX64
  = (mkRVersion "" "" 0 ArchNone, []).
Proof.
  apply (proj1 (proj2 (proj2 (detectPreferredFromRegistry_outcomes
                                Example.registryMachine HKEY_LOCAL_MACHINE
                                ArchX64)))
           (mkError no_such_file_or_directory));
    reflexivity.
Defined.

(** ** [autoDetect] in every build *)

Lemma isValid_not_empty (h : Host) (r : RVersion) :
  isValid h r = true -> r <> newRVersion h "".
Proof. intros H E. rewrite E in H. discriminate. Qed.

Lemma scan_result (h : Host) (arch : Architecture) :
  let r := match find (fun v => arch_eqb (architecture v) arch)
                   (fst (allRVersions h [])) with
           | Some v => v
           | None => newRVersion h ""
           end in
  r = newRVersion h ""
  \/ (isValid h r = true /\ architecture r = arch /\ arch = ArchX64).
Proof.
  cbv zeta. destruct (find _ _) as [v |] eqn:E; [| left; reflexivity].
  right. apply find_some in E. destruct E as [Hin Ha].
  rewrite allRVersions_value in Hin. apply In_sortedCandidates in Hin.
  apply arch_eqb_eq in Ha. destruct Hin as [_ [Hv H64]].
  repeat split; [exact Hv | exact Ha | congruence].
Qed.

Lemma autoDetect_conda (h : Host) (arch : Architecture) (preferredOnly : bool) :
  CONDA_BUILD h = true ->
  autoDetect h arch preferredOnly
  = if preferredOnly then (newRVersion h "", [])
    else (match find (fun v => arch_eqb (architecture v) arch)
                  (fst (allRVersions h [])) with
          | Some v => v
          | None => newRVersion h ""
          end, snd (allRVersions h [])).
Proof.
  intros Hbuild. unfold autoDetect. rewrite Hbuild. cbn [negb].
  destruct preferredOnly; [reflexivity |].
  unfold bind, ret. destruct (allRVersions h []) as [versions log].
  cbn [fst snd]. destruct (find _ versions); rewrite app_nil_r; reflexivity.
Qed.



(** ** [detectRVersion] for every dialog *)

Lemma autoDetect_result (h : Host) (arch : Architecture) (preferredOnly : bool) :
  fst (autoDetect h arch preferredOnly) = newRVersion h ""
  \/ (isValid h (fst (autoDetect h arch preferredOnly)) = true
      /\ architecture (fst (autoDetect h arch preferredOnly)) = arch).
Proof.
  pose proof (scan_result h arch) as Hscan. cbv zeta in Hscan.
  destruct (CONDA_BUILD h) eqn:Hbuild.
  - rewrite (autoDetect_conda h arch preferredOnly Hbuild).
    destruct preferredOnly; cbn [fst]; [left; reflexivity |].
    destruct Hscan as [H | [Hv [Ha _]]]; [left; exact H | right; split; assumption].
  - rewrite (autoDetect_equation h arch preferredOnly Hbuild). cbv zeta.
    pose proof (detectPreferredFromRegistry_result h HKEY_CURRENT_USER arch)
      as Huser.
    pose proof (detectPreferredFromRegistry_result h HKEY_LOCAL_MACHINE arch)
      as Hmachine.
    cbv zeta in Huser, Hmachine.
    destruct (isValid h (fst (detectPreferredFromRegistry h HKEY_CURRENT_USER arch)))
      eqn:Eu; [| destruct (isValid h (fst (detectPreferredFromRegistry h
                                             HKEY_LOCAL_MACHINE arch))) eqn:Em];
      cbn [fst].
    + destruct Huser as [H | [_ H]]; [left; exact H | right; split; assumption].
    + destruct Hmachine as [H | [_ H]]; [left; exact H | right; split; assumption].
    + destruct preferredOnly; cbn [fst]; [left; reflexivity |].
      destruct Hscan as [H | [Hv [Ha _]]];
        [left; exact H | right; split; assumption].
Qed.

Lemma currentChoice_cases (h : Host) (d : Desktop) :
  currentChoice h d = newRVersion h ""
  \/ (isEmpty (currentChoice h d) = false
      /\ architecture (currentChoice h d) = ArchX64).
Proof.
  unfold currentChoice.
  destruct (isEmpty (newRVersion h (rBinDir d))) eqn:He; cbn [negb andb];
    [left; reflexivity |].
  destruct (arch_eqb (architecture (newRVersion h (rBinDir d))) ArchX64) eqn:Ea;
    [| left; reflexivity].
  right. apply arch_eqb_eq in Ea. split; assumption.
Qed.

(** What is found before the dialog is valid and 64-bit. *)
Lemma withoutAsking_found (h : Host) (forceUi : bool) (d : Desktop)
  (found : RVersion) (log : list Error) :
  withoutAsking h forceUi (currentChoice h d) = (Some found, log) ->
  isValid h found = true /\ architecture found = ArchX64.
Proof.
  destruct forceUi; [discriminate |].
  destruct (currentChoice_cases h d) as [Hc | [He Ha]].
  - rewrite Hc, withoutAsking_auto.
    destruct (isValid h (fst (autoDetectDefault h))) eqn:Hv; [| discriminate].
    intros [= <- _]. split; [exact Hv |].
    destruct (autoDetect_result h ArchX64 false) as [H | [_ H]]; [| exact H].
    unfold autoDetectDefault in Hv. rewrite H in Hv. discriminate.
  - rewrite (withoutAsking_chosen h _ He).
    destruct (isValid h (currentChoice h d)) eqn:Hv; [| discriminate].
    intros [= <- _]. split; assumption.
Qed.

(** X13. Whatever the dialog does and however long the run is, a version
    that [detectRVersion] returns is the empty record or a valid 64-bit
    installation. *)
Theorem detectRVersion_returns_valid (h : Host) (fuel : nat) (forceUi : bool)
  (d : Desktop) (result : RVersion) (d' : Desktop) :
  detectRVersion h fuel forceUi d = Some (result, d') ->
  result = newRVersion h ""
  \/ (isValid h result = true /\ architecture result = ArchX64).
Proof.
  revert forceUi d. induction fuel as [| fuel IH]; intros forceUi d;
    [discriminate |].
  destruct (withoutAsking h forceUi (currentChoice h d)) as [[found |] log] eqn:Ew.
  - rewrite (detectRVersion_found h fuel forceUi d found log Ew).
    intros [= <- _]. right. exact (withoutAsking_found h forceUi d found log Ew).
  - rewrite (detectRVersion_asks h fuel forceUi d log Ew). cbv zeta.
    destruct (chooseRHome h _ _ _) as [[chosen engine] |].
    + destruct (negb (String.eqb (desktopRenderingEngine d) engine)).
      * intros [= <- _]. left; reflexivity.
      * apply IH.
    + intros [= <- _]. left; reflexivity.
Qed.

Lemma detectRVersion_returns_valid_witness :
  isValid Example.attendedMachine
    (mkRVersion "C:/R-3.5.1/bin/x64" "C:/R-3.5.1" 196659 ArchX64) = true.
Proof.
  assert (E : exists d',
             detectRVersion Example.attendedMachine 2 true (mkDesktop "" "auto" [])
             = Some (mkRVersion "C:/R-3.5.1/bin/x64" "C:/R-3.5.1" 196659 ArchX64,
                     d'))
    by (eexists; vm_compute; reflexivity).
  destruct E as [d' E].
  destruct (detectRVersion_returns_valid _ _ _ _ _ _ E) as [H | [H _]].
  - discriminate.
  - exact H.
Defined.

Lemma withoutAsking_forced_none (h : Host) (rVersion : RVersion)
  (found : option RVersion) (log : list Error) :
  withoutAsking h true rVersion = (found, log) -> found = None /\ log = [].
Proof. intros [= <- <-]. split; reflexivity. Qed.

(** The counts in the state in which the dialog has been shown. *)
Lemma count_asked (p : Event -> bool) (d : Desktop)
  (log scanLog : list Error) (forceUi : bool) (versions : list RVersion)
  (selected : RVersion) (renderingEngine binDir' engine : string) :
  (forall e, p (ErrorLogged e) = false) ->
  count p (setDesktopRenderingEngine engine
             (setRBinDir binDir'
                (record (DialogShown versions selected renderingEngine)
                   (recordLog scanLog
                      (recordLog log (record (Entered forceUi) d))))))
  = (count p d
     + (if p (Entered forceUi) then 1 else 0)
     + (if p (DialogShown versions selected renderingEngine) then 1 else 0))%nat.
Proof.
  intros Hp.
  change (count p (setDesktopRenderingEngine engine (setRBinDir binDir' ?x)))
    with (count p x).
  rewrite count_record, !count_recordLog, count_record by exact Hp.
  reflexivity.
Qed.

(** X14. The trace of a run of [detectRVersion], whatever the dialog does.
    The function is entered at least once; the dialog is shown at most once
    per entry, and the function is entered at most once more than the
    dialog is shown; a forced call shows the dialog; the message box is
    shown at most once, and then the empty record is returned; and a run
    that does not show the dialog leaves the options as they were. *)
Theorem detectRVersion_trace (h : Host) (fuel : nat) (forceUi : bool)
  (d : Desktop) (result : RVersion) (d' : Desktop) :
  detectRVersion h fuel forceUi d = Some (result, d') ->
  exists dialogs entries boxes : nat,
    count isDialogShown d' = (count isDialogShown d + dialogs)%nat
    /\ count isEntered d' = (count isEntered d + entries)%nat
    /\ count isMessageBoxShown d' = (count isMessageBoxShown d + boxes)%nat
    /\ (1 <= entries)%nat
    /\ (dialogs <= entries)%nat
    /\ (entries <= dialogs + 1)%nat
    /\ (boxes <= 1)%nat
    /\ (forceUi = true -> (1 <= dialogs)%nat)
    /\ (boxes = 1%nat -> result = newRVersion h "")
    /\ (dialogs = 0%nat ->
        rBinDir d' = rBinDir d
        /\ desktopRenderingEngine d' = desktopRenderingEngine d
        /\ boxes = 0%nat).
Proof.
  revert forceUi d result d'.
  induction fuel as [| fuel IH]; intros forceUi d result d'; [discriminate |].
  destruct (withoutAsking h forceUi (currentChoice h d)) as [[found |] log] eqn:Ew.
  - rewrite (detectRVersion_found h fuel forceUi d found log Ew).
    intros [= <- <-]. exists 0%nat, 1%nat, 0%nat.
    rewrite !count_recordLog, !count_record by reflexivity. cbn [isDialogShown isEntered isMessageBoxShown].
    repeat split; try lia; try reflexivity.
    intros ->. destruct (withoutAsking_forced_none h _ _ _ Ew). discriminate.
  - rewrite (detectRVersion_asks h fuel forceUi d log Ew). cbv zeta.
    destruct (chooseRHome h _ _ _) as [[chosen engine] |].
    + destruct (negb (String.eqb (desktopRenderingEngine d) engine)).
      * intros [= <- <-]. exists 1%nat, 1%nat, 1%nat.
        rewrite !count_record.
        rewrite (count_asked isDialogShown), (count_asked isEntered),
          (count_asked isMessageBoxShown) by (intros; reflexivity).
        cbn [isDialogShown isEntered isMessageBoxShown].
        repeat split; try lia; try reflexivity; discriminate.
      * intros Hrun. destruct (IH false _ _ _ Hrun)
          as [dialogs [entries [boxes [Hd [He [Hb [H1 [H2 [H3 [H4 [_ [H6 _]]]]]]]]]]]].
        rewrite (count_asked isDialogShown) in Hd by (intros; reflexivity).
        rewrite (count_asked isEntered) in He by (intros; reflexivity).
        rewrite (count_asked isMessageBoxShown) in Hb by (intros; reflexivity).
        cbn [isDialogShown isEntered isMessageBoxShown] in Hd, He, Hb.
        exists (S dialogs), (S entries), boxes.
        repeat split; try lia; try exact H6; discriminate.
    + intros [= <- <-]. exists 1%nat, 1%nat, 0%nat.
      rewrite !count_record, !count_recordLog, !count_record by reflexivity.
      cbn [isDialogShown isEntered isMessageBoxShown].
      repeat split; try lia; try reflexivity; discriminate.
Qed.

Lemma detectRVersion_trace_witness :
  exists dialogs entries boxes : nat,
    (dialogs <= entries)%nat /\ (entries <= dialogs + 1)%nat
    /\ (boxes <= 1)%nat /\ (1 <= dialogs)%nat.
Proof.
  assert (E : exists r d',
             detectRVersion Example.attendedMachine 2 true (mkDesktop "" "auto" [])
             = Some (r, d'))
    by (eexists; eexists; vm_compute; reflexivity).
  destruct E as [r [d' E]].
  destruct (detectRVersion_trace _ _ _ _ _ _ E)
    as [dialogs [entries [boxes [_ [_ [_ [_ [H2 [H3 [H4 [H5 _]]]]]]]]]]].
  exists dialogs, entries, boxes. repeat split; auto.
Defined.

(** X15. When a run of [detectRVersion] gets to the dialog and the dialog
    is closed without a choice, the empty record is returned, the options
    are as before, the dialog has been shown once and no message box, and
    the function is not entered again. *)
Theorem detectRVersion_rejected (h : Host) (fuel : nat) (forceUi : bool)
  (d : Desktop) :
  fst (withoutAsking h forceUi (currentChoice h d)) = None ->
  chooseRHome h (offered h d) (currentChoice h d) (desktopRenderingEngine d)
  = None ->
  exists d',
    detectRVersion h (S fuel) forceUi d = Some (newRVersion h "", d')
    /\ rBinDir d' = rBinDir d
    /\ desktopRenderingEngine d' = desktopRenderingEngine d
    /\ count isDialogShown d' = S (count isDialogShown d)
    /\ count isEntered d' = S (count isEntered d)
    /\ count isMessageBoxShown d' = count isMessageBoxShown d.
Proof.
  intros Hfirst Hno.
  destruct (withoutAsking h forceUi (currentChoice h d)) as [found log] eqn:Ew.
  cbn [fst] in Hfirst. subst found.
  rewrite (detectRVersion_asks h fuel forceUi d log Ew). cbv zeta.
  rewrite Hno. eexists. split; [reflexivity |].
  split; [reflexivity |]. split; [reflexivity |].
  rewrite !count_record, !count_recordLog, !count_record by reflexivity.
  cbn [isDialogShown isEntered isMessageBoxShown]. repeat split; lia.
Qed.

Lemma detectRVersion_rejected_witness :
  exists d',
    detectRVersion Example.plainMachine 1 true (mkDesktop "" "auto" [])
    = Some (newRVersion Example.plainMachine "", d')
    /\ rBinDir d' = "" /\ desktopRenderingEngine d' = "auto".
Proof.
  destruct (detectRVersion_rejected Example.plainMachine 0 true
              (mkDesktop "" "auto" []) eq_refl eq_refl)
    as [d' [E [Hb [He _]]]].
  exists d'. repeat split; assumption.
Defined.

(** ** The directory that the user points at *)

(** X16. [detectVersionsInDir] for an installation whose home directory
    is a drive path of named segments, the last of them not "bin".  Given
    the home directory, it returns the record of that directory alone when
    R.dll lies directly in it, and otherwise the probes of bin and bin/x64.
    Given the bin directory, it returns the record of bin alone when bin
    holds R.dll, and otherwise goes back to the home directory by
    [binDirToHomeDir] and returns the probe of bin/x64. *)
Theorem detectVersionsInDir_home_or_bin (h : Host) (d : ascii)
  (l : list string) (y : string) :
  QDir.isLetter d = true ->
  forallb isSegment (l ++ [y]) = true ->
  y <> "bin"%string ->
  let home := drivePath d (l ++ [y]) in
  let bin := drivePath d (l ++ [y; "bin"%string]) in
  let x64 := drivePath d (l ++ [y; "bin"%string; "x64"%string]) in
  detectVersionsInDir h home
  = (if fileExists h (home ++ "/R.dll")%string then [newRVersion h home]
     else (if hasLibrary h bin then [newRVersion h bin] else [])
          ++ (if hasLibrary h x64 then [newRVersion h x64] else []))
  /\ detectVersionsInDir h bin
     = (if fileExists h (bin ++ "/R.dll")%string then [newRVersion h bin]
        else if hasLibrary h x64 then [newRVersion h x64] else []).
Proof.
  intros Hd H Hy. cbv zeta.
  assert (Hbin : forallb isSegment ((l ++ [y]) ++ ["bin"%string]) = true)
    by (apply isSegment_snoc; [exact H | reflexivity]).
  replace (l ++ [y; "bin"%string]) with ((l ++ [y]) ++ ["bin"%string])
    by (rewrite <- app_assoc; reflexivity).
  replace (l ++ [y; "bin"%string; "x64"%string])
    with ((l ++ [y]) ++ ["bin"%string; "x64"%string])
    by (rewrite <- app_assoc; reflexivity).
  assert (Hdir : QDir.dirName (drivePath d (l ++ [y])) = y)
    by (apply dirName_drivePath;
        [exact Hd | apply forallb_isSegment_plain; exact H]).
  assert (Hdirbin : QDir.dirName (drivePath d ((l ++ [y]) ++ ["bin"%string]))
                    = "bin"%string)
    by (apply dirName_drivePath;
        [exact Hd | apply forallb_isSegment_plain; exact Hbin]).
  pose proof (binDirToHomeDir_bin d (l ++ [y]) Hd H) as Hhome.
  destruct (l ++ [y]) as [| z zs] eqn:E; [destruct l; discriminate |].
  destruct (probe_drivePath h d z zs Hd H) as [Hset [Hex Habs]].
  destruct (probe_drivePath h d z (zs ++ ["bin"%string]) Hd Hbin)
    as [Hsetb [Hexb Habsb]].
  cbv zeta in Hset, Hex, Habs, Hsetb, Hexb, Habsb.
  split.
  - unfold detectVersionsInDir.
    rewrite (proj1 (make_drivePath d z zs Hd H)), Hex, Habs.
    destruct (fileExists h (drivePath d (z :: zs) ++ "/R.dll")%string);
      [reflexivity |].
    rewrite Hdir.
    destruct (String.eqb_spec y "bin"%string) as [Heq | _]; [contradiction |].
    rewrite (versionsFromRHome_drivePath h d z zs [] Hd H). reflexivity.
  - unfold detectVersionsInDir.
    change ((z :: zs) ++ ["bin"%string]) with (z :: (zs ++ ["bin"%string]))
      in *.
    rewrite (proj1 (make_drivePath d z (zs ++ ["bin"%string]) Hd Hbin)),
      Hexb, Habsb.
    destruct (fileExists h (drivePath d (z :: zs ++ ["bin"%string]) ++ "/R.dll")%string)
      eqn:Ef; [reflexivity |].
    rewrite Hdirbin. change (String.eqb "bin" "bin") with true. cbv iota.
    rewrite Hhome, Hset.
    rewrite (versionsFromRHome_drivePath h d z zs [] Hd H).
    change ((z :: zs) ++ ["bin"%string]) with (z :: (zs ++ ["bin"%string])).
    unfold hasLibrary at 1. rewrite Ef, andb_false_r. reflexivity.
Qed.

Lemma detectVersionsInDir_home_or_bin_witness :
  detectVersionsInDir Example.plainMachine "C:/R-3.5.1"
  = [mkRVersion "C:/R-3.5.1/bin/x64" "C:/R-3.5.1" 196659 ArchX64]
  /\ detectVersionsInDir Example.plainMachine "C:/R-3.5.1/bin"
     = [mkRVersion "C:/R-3.5.1/bin/x64" "C:/R-3.5.1" 196659 ArchX64].
Proof.
  assert (Hy : "R-3.5.1"%string <> "bin"%string) by discriminate.
  destruct (detectVersionsInDir_home_or_bin Example.plainMachine "C" []
              "R-3.5.1" eq_refl eq_refl Hy) as [E1 E2].
  cbv zeta in E1, E2.
  change (drivePath "C" ([] ++ ["R-3.5.1"%string])) with "C:/R-3.5.1"%string
    in E1.
  change (drivePath "C" ([] ++ ["R-3.5.1"%string; "bin"%string]))
    with "C:/R-3.5.1/bin"%string in E2.
  split; [rewrite E1 | rewrite E2]; vm_compute; reflexivity.
Defined.

(** ** The program files directories *)

Lemma In_removeDuplicatesFrom (seen l : list string) (x : string) :
  In x (removeDuplicatesFrom seen l) <-> In x l /\ ~ In x seen.
Proof.
  revert seen. induction l as [| y t IH]; intros seen;
    cbn [removeDuplicatesFrom In]; [tauto |].
  destruct (existsb (String.eqb y) seen) eqn:Ey.
  - rewrite IH. apply existsb_exists in Ey. destruct Ey as [z [Hz Hyz]].
    apply String.eqb_eq in Hyz. subst z.
    split; [tauto |]. intros [[-> | Hx] Hn]; [contradiction | tauto].
  - assert (Hy : ~ In y seen).
    { intros Hin. apply not_true_iff_false in Ey. apply Ey.
      apply existsb_exists. exists y. split; [exact Hin |].
      apply String.eqb_refl. }
    cbn [In]. rewrite IH. cbn [In]. split.
    + intros [<- | [Hx Hn]]; [tauto |]. split; [tauto |].
      intros Hs. apply Hn. right. exact Hs.
    + intros [[-> | Hx] Hn]; [left; reflexivity |].
      destruct (string_dec y x) as [-> | Hne]; [left; reflexivity |].
      right. split; [exact Hx |]. intros [-> | Hs]; [congruence | tauto].
Qed.

Lemma NoDup_removeDuplicatesFrom (seen l : list string) :
  NoDup (removeDuplicatesFrom seen l).
Proof.
  revert seen. induction l as [| y t IH]; intros seen;
    cbn [removeDuplicatesFrom]; [constructor |].
  destruct (existsb (String.eqb y) seen); [apply IH |].
  constructor; [| apply IH].
  intros Hin. apply In_removeDuplicatesFrom in Hin. destruct Hin as [_ Hn].
  apply Hn. left. reflexivity.
Qed.

(** X17. [enumProgramFiles] searches each program files directory once:
    the directories it searches are the values of ProgramFiles,
    ProgramW6432 and ProgramFiles(x86) that are set and not empty, none of
    them twice, and of a search nothing is taken back. *)
Theorem enumProgramFiles_once (h : Host) (pResults : list RVersion) :
  exists dirs : list string,
    NoDup dirs
    /\ (forall p, In p dirs <->
                  isEmpty_str p = false
                  /\ In p [getenv h "ProgramFiles"; getenv h "ProgramW6432";
                           getenv h "ProgramFiles(x86)"])
    /\ enumProgramFiles h pResults
       = fold_left (fun results p => enumProgramFilesIn h p results)
                   dirs pResults
    /\ extends h pResults (enumProgramFiles h pResults).
Proof.
  exists (removeDuplicates
            (filter (fun s => negb (isEmpty_str s))
               [getenv h "ProgramFiles"; getenv h "ProgramW6432";
                getenv h "ProgramFiles(x86)"])).
  split; [apply NoDup_removeDuplicatesFrom |].
  split; [| split; [reflexivity |]].
  - intros p. unfold removeDuplicates.
    rewrite In_removeDuplicatesFrom, filter_In, negb_true_iff.
    cbn [In]. tauto.
  - apply enumProgramFiles_extends. exists []. rewrite app_nil_r.
    split; [reflexivity | constructor].
Qed.

Lemma enumProgramFiles_once_witness :
  exists dirs : list string,
    NoDup dirs
    /\ In "C:\Program Files"%string dirs
    /\ fold_left
         (fun results p => enumProgramFilesIn Example.programFilesMachine p results)
         dirs []
       = [mkRVersion "C:/Program Files/R/R-3.5.1/bin/x64"
            "C:/Program Files/R/R-3.5.1" 196659 ArchX64].
Proof.
  destruct (enumProgramFiles_once Example.programFilesMachine [])
    as [dirs [Hnd [Hin [He _]]]].
  exists dirs. split; [exact Hnd |]. split.
  - apply Hin. split; [reflexivity | left; reflexivity].
  - rewrite <- He. vm_compute. reflexivity.
Defined.

(** ** The rendering engine in the options *)

(** X18. [detectRVersion] changes the rendering engine in the options in
    one case only, the one in which it shows the message box about the
    restart: then the message box is the last thing it does, and the empty
    record is returned.  In every other run the rendering engine is the
    one that was stored and no message box is shown. *)
Theorem detectRVersion_engine_change (h : Host) (fuel : nat) (forceUi : bool)
  (d : Desktop) (result : RVersion) (d' : Desktop) :
  detectRVersion h fuel forceUi d = Some (result, d') ->
  (desktopRenderingEngine d' = desktopRenderingEngine d
   /\ count isMessageBoxShown d' = count isMessageBoxShown d)
  \/ (desktopRenderingEngine d' <> desktopRenderingEngine d
      /\ count isMessageBoxShown d' = S (count isMessageBoxShown d)
      /\ result = newRVersion h ""
      /\ exists before, events d' = before ++ [MessageBoxShown]).
Proof.
  revert forceUi d result d'.
  induction fuel as [| fuel IH]; intros forceUi d result d'; [discriminate |].
  destruct (withoutAsking h forceUi (currentChoice h d)) as [[found |] log] eqn:Ew.
  - rewrite (detectRVersion_found h fuel forceUi d found log Ew).
    intros [= <- <-]. left. split; [reflexivity |].
    rewrite count_recordLog, count_record by reflexivity.
    cbn [isMessageBoxShown]. lia.
  - rewrite (detectRVersion_asks h fuel forceUi d log Ew). cbv zeta.
    destruct (chooseRHome h _ _ _) as [[chosen engine] |].
    + destruct (String.eqb_spec (desktopRenderingEngine d) engine)
        as [Hsame | Hchanged]; cbn [negb].
      * intros Hrun.
        destruct (IH false _ _ _ Hrun) as [[He Hc] | [He [Hc [Hr Hl]]]];
          rewrite (count_asked isMessageBoxShown) in Hc
            by (intros; reflexivity);
          cbn [isMessageBoxShown] in Hc;
          cbn [setDesktopRenderingEngine desktopRenderingEngine] in He;
          rewrite <- Hsame in He.
        -- left. split; [exact He | lia].
        -- right. split; [exact He |]. split; [lia |].
           split; [exact Hr | exact Hl].
      * intros [= <- <-]. right.
        split; [cbn [record setDesktopRenderingEngine desktopRenderingEngine];
                congruence |].
        split.
        -- rewrite count_record, (count_asked isMessageBoxShown)
             by (intros; reflexivity).
           cbn [isMessageBoxShown]. lia.
        -- split; [reflexivity |]. eexists. reflexivity.
    + intros [= <- <-]. left. split; [reflexivity |].
      rewrite count_record, !count_recordLog, count_record by reflexivity.
      cbn [isMessageBoxShown]. lia.
Qed.

Lemma detectRVersion_engine_change_witness :
  exists d',
    detectRVersion Example.attendedMachine 2 true (mkDesktop "" "auto" [])
    = Some (mkRVersion "C:/R-3.5.1/bin/x64" "C:/R-3.5.1" 196659 ArchX64, d')
    /\ desktopRenderingEngine d' = "auto"%string
    /\ count isMessageBoxShown d' = 0%nat.
Proof.
  assert (E : exists d',
             detectRVersion Example.attendedMachine 2 true (mkDesktop "" "auto" [])
             = Some (mkRVersion "C:/R-3.5.1/bin/x64" "C:/R-3.5.1" 196659 ArchX64,
                     d'))
    by (eexists; vm_compute; reflexivity).
  destruct E as [d' E]. exists d'. split; [exact E |].
  destruct (detectRVersion_engine_change _ _ _ _ _ _ E)
    as [[He Hc] | [_ [_ [Hr _]]]].
  - split; [exact He | exact Hc].
  - discriminate.
Defined.

(** ** The rendering engine at start-up *)

Lemma prefix_occurs (item s : string) :
  String.prefix item s = true <-> exists after, s = (item ++ after)%string.
Proof.
  revert s. induction item as [| c item IH]; intros s.
  - split; [intros _; exists s; reflexivity | destruct s; reflexivity].
  - destruct s as [| c' s]; cbn [String.prefix].
    + split; [discriminate | intros [after H]; discriminate].
    + destruct (ascii_dec c c') as [-> | Hne].
      * rewrite IH. split; intros [after H]; exists after.
        -- cbn. rewrite H. reflexivity.
        -- cbn in H. injection H as H. exact H.
      * split; [discriminate |]. intros [after H]. cbn in H.
        injection H as H _. congruence.
Qed.

Lemma find_occursIn (s item : string) :
  std_string.isNpos (std_string.find s item) = false <-> occursIn item s.
Proof.
  split.
  - induction s as [| c t IH]; cbn [std_string.find].
    + destruct (String.prefix item "") eqn:Ep; [| discriminate].
      intros _. apply prefix_occurs in Ep. destruct Ep as [after H].
      exists ""%string, after. exact H.
    + destruct (String.prefix item (String c t)) eqn:Ep.
      * intros _. apply prefix_occurs in Ep. destruct Ep as [after H].
        exists ""%string, after. exact H.
      * destruct (std_string.find t item) as [pos |]; [| discriminate].
        intros _. destruct (IH eq_refl) as [before [after H]].
        exists (String c before), after. cbn. rewrite H. reflexivity.
  - intros [before [after H]]. revert s H.
    induction before as [| c before IH]; intros s H.
    + assert (Ep : String.prefix item s = true)
        by (apply prefix_occurs; exists after; exact H).
      destruct s; cbn [std_string.find]; rewrite Ep; reflexivity.
    + subst s. cbn [append std_string.find].
      destruct (String.prefix item _); [reflexivity |].
      specialize (IH _ eq_refl).
      destruct (std_string.find (before ++ item ++ after) item);
        [reflexivity | discriminate].
Qed.

Lemma checkUnsupported_occurs (items : list string) (deviceString : string) :
  checkUnsupported items deviceString = true
  <-> exists item, In item items /\ occursIn item deviceString.
Proof.
  induction items as [| item rest IH]; cbn [checkUnsupported In].
  - split; [discriminate | intros [item [[] _]]].
  - destruct (std_string.isNpos (std_string.find deviceString item)) eqn:Ef;
      cbn [negb].
    + rewrite IH. split; intros [x [Hx Ho]]; exists x.
      * split; [right; exact Hx | exact Ho].
      * split; [| exact Ho]. destruct Hx as [<- | Hx]; [| exact Hx].
        apply find_occursIn in Ho. congruence.
    + split; [| reflexivity]. intros _. exists item.
      split; [left; reflexivity | apply find_occursIn; exact Ef].
Qed.

Lemma primary_flag (flags : Z) :
  (Z.land flags DISPLAY_DEVICE_PRIMARY_DEVICE =? 0) = negb (Z.testbit flags 2).
Proof.
  assert (H : Z.land flags 4 = if Z.testbit flags 2 then 4 else 0).
  { apply Z.bits_inj'. intros n Hn. rewrite Z.land_spec.
    change 4 with (2 ^ 2) at 1. rewrite Z.pow2_bits_eqb by lia.
    destruct (Z.eqb_spec 2 n) as [<- | Hne].
    - rewrite andb_true_r. destruct (Z.testbit flags 2); reflexivity.
    - rewrite andb_false_r. destruct (Z.testbit flags 2).
      + change 4 with (2 ^ 2). rewrite Z.pow2_bits_eqb by lia.
        symmetry. apply Z.eqb_neq. exact Hne.
      + rewrite Z.bits_0. reflexivity. }
  unfold DISPLAY_DEVICE_PRIMARY_DEVICE. rewrite H.
  destruct (Z.testbit flags 2); reflexivity.
Qed.

Lemma scanDevices_unsupported (devices : list DISPLAY_DEVICE) :
  scanDevices devices = true
  <-> exists device, In device devices /\ isPrimary device /\ unsupported device.
Proof.
  unfold isPrimary, unsupported.
  induction devices as [| device rest IH]; cbn [scanDevices In].
  - split; [discriminate | intros [device [[] _]]].
  - rewrite primary_flag.
    destruct (Z.testbit (StateFlags device) 2) eqn:Ep; cbn [negb].
    + destruct (checkUnsupported blacklist (DeviceString device)) eqn:Ec.
      * split; [| reflexivity]. intros _. exists device.
        split; [left; reflexivity |]. split; [exact Ep |].
        apply checkUnsupported_occurs. exact Ec.
      * rewrite IH. split; intros [x [Hx [Hp Hu]]]; exists x.
        -- split; [right; exact Hx |]. split; assumption.
        -- split; [| split; assumption]. destruct Hx as [<- | Hx]; [| exact Hx].
           apply checkUnsupported_occurs in Hu. congruence.
    + rewrite IH. split; intros [x [Hx [Hp Hu]]]; exists x.
      * split; [right; exact Hx |]. split; assumption.
      * split; [| split; assumption]. destruct Hx as [<- | Hx]; [| exact Hx].
        congruence.
Qed.

Lemma scanDevices_decides (w : Display) :
  (scanDevices (EnumDisplayDevices w) = true /\ unsupportedPrimary w)
  \/ (scanDevices (EnumDisplayDevices w) = false /\ ~ unsupportedPrimary w).
Proof.
  unfold unsupportedPrimary.
  destruct (scanDevices (EnumDisplayDevices w)) eqn:E.
  - left. split; [reflexivity |]. apply scanDevices_unsupported. exact E.
  - right. split; [reflexivity |]. intros H.
    apply scanDevices_unsupported in H. congruence.
Qed.

(** X19. [inferDefaultRenderingEngine] answers "software" or "auto":
    "software" exactly when the session is remote or the name of some
    primary display device holds a name of the blacklist, whatever the
    other devices are.  It switches the shader disk cache off only for such
    a device in a session that is not remote, and touches nothing else. *)
Theorem inferDefaultRenderingEngine_software (w : Display) (r : Rendering) :
  let engine := fst (inferDefaultRenderingEngine w r) in
  let r' := snd (inferDefaultRenderingEngine w r) in
  ((engine = "software"%string
    /\ (SM_REMOTESESSION w <> 0 \/ unsupportedPrimary w))
   \/ (engine = "auto"%string
       /\ SM_REMOTESESSION w = 0 /\ ~ unsupportedPrimary w))
  /\ ((r' = setAttribute AA_DisableShaderDiskCache r
       /\ SM_REMOTESESSION w = 0 /\ unsupportedPrimary w)
      \/ (r' = r /\ (SM_REMOTESESSION w <> 0 \/ ~ unsupportedPrimary w))).
Proof.
  cbv zeta. unfold inferDefaultRenderingEngine.
  destruct (Z.eqb_spec (SM_REMOTESESSION w) 0) as [Hlocal | Hremote];
    cbn [negb].
  - destruct (scanDevices_decides w) as [[-> Hu] | [-> Hu]]; cbn [fst snd].
    + split; [left; split; [reflexivity | right; exact Hu] |].
      left. split; [reflexivity |]. split; assumption.
    + split; [right; split; [reflexivity |]; split; assumption |].
      right. split; [reflexivity | right; exact Hu].
  - cbn [fst snd].
    split; [left; split; [reflexivity | left; exact Hremote] |].
    right. split; [reflexivity | left; exact Hremote].
Qed.

Lemma inferDefaultRenderingEngine_software_witness :
  fst (inferDefaultRenderingEngine Example.laptop Example.nothingSet)
  = "software"%string
  /\ fst (inferDefaultRenderingEngine Example.docked Example.nothingSet)
     = "auto"%string.
Proof.
  split.
  - destruct (inferDefaultRenderingEngine_software Example.laptop
                Example.nothingSet) as [[[H _] | [H _]] _].
    + exact H.
    + vm_compute in H. discriminate.
  - destruct (inferDefaultRenderingEngine_software Example.docked
                Example.nothingSet) as [[[H _] | [H _]] _].
    + vm_compute in H. discriminate.
    + exact H.
Defined.

Lemma inferDefaultRenderingEngine_engine (w : Display) (r : Rendering) :
  (fst (inferDefaultRenderingEngine w r) = "software"%string
   /\ (SM_REMOTESESSION w <> 0 \/ unsupportedPrimary w))
  \/ (fst (inferDefaultRenderingEngine w r) = "auto"%string
      /\ ~ (SM_REMOTESESSION w <> 0 \/ unsupportedPrimary w)).
Proof.
  unfold inferDefaultRenderingEngine.
  destruct (Z.eqb_spec (SM_REMOTESESSION w) 0) as [Hlocal | Hremote];
    cbn [negb].
  - destruct (scanDevices_decides w) as [[-> Hu] | [-> Hu]]; cbn [fst].
    + left. split; [reflexivity | right; exact Hu].
    + right. split; [reflexivity |]. intros [H | H]; [congruence | tauto].
  - left. split; [reflexivity | left; exact Hremote].
Qed.

Lemma inferDefaultRenderingEngine_keeps (w : Display) (r : Rendering) :
  sceneGraphBackend (snd (inferDefaultRenderingEngine w r))
  = sceneGraphBackend r
  /\ arguments (snd (inferDefaultRenderingEngine w r)) = arguments r
  /\ exists added,
       attributes (snd (inferDefaultRenderingEngine w r))
       = attributes r ++ added
       /\ Forall (eq AA_DisableShaderDiskCache) added.
Proof.
  unfold inferDefaultRenderingEngine.
  destruct (negb (SM_REMOTESESSION w =? 0));
    [| destruct (scanDevices (EnumDisplayDevices w))]; cbn [fst snd];
    (split; [reflexivity |]); (split; [reflexivity |]).
  - exists []. rewrite app_nil_r. split; [reflexivity | constructor].
  - exists [AA_DisableShaderDiskCache].
    split; [reflexivity | repeat constructor].
  - exists []. rewrite app_nil_r. split; [reflexivity | constructor].
Qed.

(** X20. When the options name a rendering engine, neither empty nor
    "auto", [initializeRenderingEngine] does not consult the display: the
    result is the same for every display.  And a name other than
    "desktop", "gles" and "software" sets no attribute and no scene graph
    backend. *)
Theorem initializeRenderingEngine_explicit (d : Desktop)
  (ignoreGpuBlacklist disableGpuDriverBugWorkarounds : bool)
  (w w' : Display) (r : Rendering) :
  desktopRenderingEngine d <> ""%string ->
  desktopRenderingEngine d <> "auto"%string ->
  let r' := initializeRenderingEngine d ignoreGpuBlacklist
              disableGpuDriverBugWorkarounds w r in
  r' = initializeRenderingEngine d ignoreGpuBlacklist
         disableGpuDriverBugWorkarounds w' r
  /\ (desktopRenderingEngine d <> "desktop"%string ->
      desktopRenderingEngine d <> "gles"%string ->
      desktopRenderingEngine d <> "software"%string ->
      attributes r' = attributes r
      /\ sceneGraphBackend r' = sceneGraphBackend r).
Proof.
  intros Hne Hna. cbv zeta. unfold initializeRenderingEngine. cbv zeta.
  assert (He : isEmpty_str (desktopRenderingEngine d) = false)
    by (destruct (desktopRenderingEngine d); [congruence | reflexivity]).
  rewrite He. cbn [orb].
  destruct (String.eqb_spec (desktopRenderingEngine d) "auto");
    [contradiction |].
  split; [reflexivity |]. intros H1 H2 H3.
  destruct (String.eqb_spec (desktopRenderingEngine d) "desktop");
    [contradiction |].
  destruct (String.eqb_spec (desktopRenderingEngine d) "gles");
    [contradiction |].
  destruct (String.eqb_spec (desktopRenderingEngine d) "software");
    [contradiction |].
  destruct ignoreGpuBlacklist, disableGpuDriverBugWorkarounds;
    split; reflexivity.
Qed.

Lemma initializeRenderingEngine_explicit_witness :
  initializeRenderingEngine (mkDesktop "" "gles" []) true false
    Example.laptop Example.nothingSet
  = initializeRenderingEngine (mkDesktop "" "gles" []) true false
      Example.docked Example.nothingSet.
Proof.
  assert (H1 : "gles"%string <> ""%string) by discriminate.
  assert (H2 : "gles"%string <> "auto"%string) by discriminate.
  exact (proj1 (initializeRenderingEngine_explicit (mkDesktop "" "gles" [])
                  true false Example.laptop Example.docked
                  Example.nothingSet H1 H2)).
Defined.

(** The two flags at the end of [initializeRenderingEngine]. *)
Lemma gpu_flags (ignoreGpuBlacklist disableGpuDriverBugWorkarounds : bool)
  (r : Rendering) :
  let r1 :=
    if ignoreGpuBlacklist then push_back "--ignore-gpu-blacklist" r else r in
  let r' :=
    if disableGpuDriverBugWorkarounds
    then push_back "--disable-gpu-driver-bug-workarounds" r1
    else r1 in
  attributes r' = attributes r
  /\ sceneGraphBackend r' = sceneGraphBackend r
  /\ exists flags,
       arguments r' = arguments r ++ flags
       /\ (In "--ignore-gpu-blacklist"%string flags
           <-> ignoreGpuBlacklist = true)
       /\ (In "--disable-gpu-driver-bug-workarounds"%string flags
           <-> disableGpuDriverBugWorkarounds = true)
       /\ ~ In "--enable-webgl-software-rendering"%string flags
       /\ (List.length flags <= 2)%nat.
Proof.
  cbv zeta.
  destruct ignoreGpuBlacklist, disableGpuDriverBugWorkarounds;
    cbn [push_back attributes sceneGraphBackend arguments];
    (split; [reflexivity |]); (split; [reflexivity |]).
  - exists ["--ignore-gpu-blacklist"%string;
            "--disable-gpu-driver-bug-workarounds"%string].
    rewrite <- app_assoc. cbn [app In List.length].
    repeat split; try tauto; try lia; try discriminate.
    intros [H | [H | []]]; discriminate.
  - exists ["--ignore-gpu-blacklist"%string].
    cbn [In List.length].
    repeat split; try tauto; try lia; try discriminate.
    + intros [H | []]; discriminate.
    + intros [H | []]; discriminate.
  - exists ["--disable-gpu-driver-bug-workarounds"%string].
    cbn [In List.length].
    repeat split; try tauto; try lia; try discriminate.
    + intros [H | []]; discriminate.
    + intros [H | []]; discriminate.
  - exists []. rewrite app_nil_r. cbn [In List.length].
    repeat split; try tauto; try lia; try discriminate.
Qed.

Lemma engine_inferred (d : Desktop) :
  isEmpty_str (desktopRenderingEngine d)
  || String.eqb (desktopRenderingEngine d) "auto" = true
  <-> desktopRenderingEngine d = ""%string
      \/ desktopRenderingEngine d = "auto"%string.
Proof.
  rewrite orb_true_iff, String.eqb_eq.
  destruct (desktopRenderingEngine d); cbn [isEmpty_str]; split;
    intros [H | H]; try discriminate; tauto.
Qed.

(** X21. What [initializeRenderingEngine] adds.  It appends to the
    attributes and to the arguments and takes nothing away.  The engine it
    acts on is "software" when the options say so, or when they say
    nothing or "auto" and the session is remote or a primary display
    device is on the blacklist; exactly then it switches on
    AA_UseSoftwareOpenGL and passes --enable-webgl-software-rendering, and
    then it selects the software scene graph backend.  Each of the two GPU
    flags
    is passed exactly when its option is on, and at most three arguments
    are added. *)
Theorem initializeRenderingEngine_software (d : Desktop)
  (ignoreGpuBlacklist disableGpuDriverBugWorkarounds : bool)
  (w : Display) (r : Rendering) :
  let r' := initializeRenderingEngine d ignoreGpuBlacklist
              disableGpuDriverBugWorkarounds w r in
  exists attrs args,
    attributes r' = attributes r ++ attrs
    /\ arguments r' = arguments r ++ args
    /\ (In AA_UseSoftwareOpenGL attrs <-> softwareChosen d w)
    /\ (In "--enable-webgl-software-rendering"%string args
        <-> softwareChosen d w)
    /\ (softwareChosen d w -> sceneGraphBackend r' = Some Software)
    /\ (In "--ignore-gpu-blacklist"%string args
        <-> ignoreGpuBlacklist = true)
    /\ (In "--disable-gpu-driver-bug-workarounds"%string args
        <-> disableGpuDriverBugWorkarounds = true)
    /\ (List.length args <= 3)%nat.
Proof.
  cbv zeta. unfold initializeRenderingEngine. cbv zeta.
  destruct (isEmpty_str (desktopRenderingEngine d)
            || String.eqb (desktopRenderingEngine d) "auto") eqn:Eauto.
  - apply engine_inferred in Eauto.
    destruct (inferDefaultRenderingEngine_keeps w r)
      as [Hb [Ha [added [Hat Hall]]]].
    assert (Hadded : ~ In AA_UseSoftwareOpenGL added).
    { intros Hin. rewrite Forall_forall in Hall.
      specialize (Hall _ Hin). discriminate. }
    destruct (inferDefaultRenderingEngine_engine w r) as [[He HP] | [He HnP]];
      destruct (inferDefaultRenderingEngine w r) as [engine r0];
      cbn [fst snd] in *; subst engine.
    + change (String.eqb "software" "desktop") with false.
      change (String.eqb "software" "gles") with false.
      change (String.eqb "software" "software") with true. cbv iota.
      destruct (gpu_flags ignoreGpuBlacklist disableGpuDriverBugWorkarounds
                  (push_back "--enable-webgl-software-rendering"
                     (setSceneGraphBackend Software
                        (setAttribute AA_UseSoftwareOpenGL r0))))
        as [Hattr [Hback [flags [Hargs [Hi [Hg [Hw Hlen]]]]]]].
      cbv zeta in Hattr, Hback, Hargs.
      assert (Hs : softwareChosen d w) by (right; split; assumption).
      exists (added ++ [AA_UseSoftwareOpenGL]),
             ("--enable-webgl-software-rendering"%string :: flags).
      rewrite Hattr, Hback, Hargs.
      cbn [push_back setSceneGraphBackend setAttribute attributes
             sceneGraphBackend arguments].
      rewrite Hat, Ha, <- !app_assoc. cbn [app In List.length].
      split; [reflexivity |]. split; [reflexivity |].
      split; [split; [intros _; exact Hs |
                      intros _; apply in_or_app; right; left; reflexivity] |].
      split; [split; [intros _; exact Hs | intros _; left; reflexivity] |].
      split; [reflexivity |].
      split; [rewrite <- Hi; split;
              [intros [H | H]; [discriminate | exact H] | intros H; right; exact H] |].
      split; [rewrite <- Hg; split;
              [intros [H | H]; [discriminate | exact H] | intros H; right; exact H] |].
      lia.
    + change (String.eqb "auto" "desktop") with false.
      change (String.eqb "auto" "gles") with false.
      change (String.eqb "auto" "software") with false. cbv iota.
      destruct (gpu_flags ignoreGpuBlacklist disableGpuDriverBugWorkarounds r0)
        as [Hattr [Hback [flags [Hargs [Hi [Hg [Hw Hlen]]]]]]].
      cbv zeta in Hattr, Hback, Hargs.
      assert (Hs : ~ softwareChosen d w).
      { intros [H | [_ H]]; [| exact (HnP H)].
        destruct Eauto as [E | E]; rewrite E in H; discriminate. }
      exists added, flags. rewrite Hattr, Hargs, Hat, Ha.
      split; [reflexivity |]. split; [reflexivity |].
      split; [tauto |]. split; [tauto |]. split; [tauto |].
      split; [exact Hi |]. split; [exact Hg | lia].
  - assert (Hexplicit : ~ (desktopRenderingEngine d = ""%string
                           \/ desktopRenderingEngine d = "auto"%string)).
    { intros H. apply engine_inferred in H. congruence. }
    destruct (String.eqb_spec (desktopRenderingEngine d) "desktop") as [E1 | E1];
      [| destruct (String.eqb_spec (desktopRenderingEngine d) "gles") as [E2 | E2];
         [| destruct (String.eqb_spec (desktopRenderingEngine d) "software")
              as [E3 | E3]]].
    + destruct (gpu_flags ignoreGpuBlacklist disableGpuDriverBugWorkarounds
                  (setSceneGraphBackend OpenGL
                     (setAttribute AA_UseDesktopOpenGL r)))
        as [Hattr [Hback [flags [Hargs [Hi [Hg [Hw Hlen]]]]]]].
      cbv zeta in Hattr, Hback, Hargs.
      assert (Hs : ~ softwareChosen d w).
      { intros [H | [H _]]; [rewrite E1 in H; discriminate | tauto]. }
      exists [AA_UseDesktopOpenGL], flags. rewrite Hattr, Hargs.
      cbn [setSceneGraphBackend setAttribute attributes arguments In].
      split; [reflexivity |]. split; [reflexivity |].
      split; [split; [intros [H | []]; discriminate | tauto] |].
      split; [tauto |]. split; [tauto |].
      split; [exact Hi |]. split; [exact Hg | lia].
    + destruct (gpu_flags ignoreGpuBlacklist disableGpuDriverBugWorkarounds
                  (setSceneGraphBackend OpenGL
                     (setAttribute AA_UseOpenGLES r)))
        as [Hattr [Hback [flags [Hargs [Hi [Hg [Hw Hlen]]]]]]].
      cbv zeta in Hattr, Hback, Hargs.
      assert (Hs : ~ softwareChosen d w).
      { intros [H | [H _]]; [rewrite E2 in H; discriminate | tauto]. }
      exists [AA_UseOpenGLES], flags. rewrite Hattr, Hargs.
      cbn [setSceneGraphBackend setAttribute attributes arguments In].
      split; [reflexivity |]. split; [reflexivity |].
      split; [split; [intros [H | []]; discriminate | tauto] |].
      split; [tauto |]. split; [tauto |].
      split; [exact Hi |]. split; [exact Hg | lia].
    + destruct (gpu_flags ignoreGpuBlacklist disableGpuDriverBugWorkarounds
                  (push_back "--enable-webgl-software-rendering"
                     (setSceneGraphBackend Software
                        (setAttribute AA_UseSoftwareOpenGL r))))
        as [Hattr [Hback [flags [Hargs [Hi [Hg [Hw Hlen]]]]]]].
      cbv zeta in Hattr, Hback, Hargs.
      assert (Hs : softwareChosen d w) by (left; exact E3).
      exists [AA_UseSoftwareOpenGL],
             ("--enable-webgl-software-rendering"%string :: flags).
      rewrite Hattr, Hback, Hargs.
      cbn [push_back setSceneGraphBackend setAttribute attributes
             sceneGraphBackend arguments].
      rewrite <- !app_assoc. cbn [app In List.length].
      split; [reflexivity |]. split; [reflexivity |].
      split; [split; [intros _; exact Hs | intros _; left; reflexivity] |].
      split; [split; [intros _; exact Hs | intros _; left; reflexivity] |].
      split; [reflexivity |].
      split; [rewrite <- Hi; split;
              [intros [H | H]; [discriminate | exact H] | intros H; right; exact H] |].
      split; [rewrite <- Hg; split;
              [intros [H | H]; [discriminate | exact H] | intros H; right; exact H] |].
      lia.
    + destruct (gpu_flags ignoreGpuBlacklist disableGpuDriverBugWorkarounds r)
        as [Hattr [Hback [flags [Hargs [Hi [Hg [Hw Hlen]]]]]]].
      cbv zeta in Hattr, Hback, Hargs.
      assert (Hs : ~ softwareChosen d w).
      { intros [H | [H _]]; [contradiction | tauto]. }
      exists [], flags. rewrite Hattr, Hargs, app_nil_r. cbn [In].
      split; [reflexivity |]. split; [reflexivity |].
      split; [tauto |]. split; [tauto |]. split; [tauto |].
      split; [exact Hi |]. split; [exact Hg | lia].
Qed.

Lemma initializeRenderingEngine_software_witness :
  exists args,
    arguments (initializeRenderingEngine (mkDesktop "" "auto" []) true false
                 Example.laptop Example.nothingSet)
    = arguments Example.nothingSet ++ args
    /\ In "--enable-webgl-software-rendering"%string args
    /\ In "--ignore-gpu-blacklist"%string args.
Proof.
  destruct (initializeRenderingEngine_software (mkDesktop "" "auto" []) true
              false Example.laptop Example.nothingSet)
    as [attrs [args [_ [Hargs [_ [Hw [_ [Hi _]]]]]]]].
  exists args. split; [exact Hargs |]. split.
  - apply Hw. right. split; [right; reflexivity |]. right.
    exists (mkDISPLAY_DEVICE "Intel(R) HD Graphics 620 (Mobile)" 5).
    split; [right; left; reflexivity |]. split; [reflexivity |].
    exists "Intel(R) HD Graphics 620"%string.
    split; [right; right; left; reflexivity |].
    exists ""%string, " (Mobile)"%string. reflexivity.
  - apply Hi. reflexivity.
Defined.
